(** * File_Auto_Classify: a shallow embedding of the classification pipeline

  The development follows [File_Auto_Classify.py]: the catalog built by
  [ImageInfo.get_file_info], the metadata table built by
  [ImageInfo.get_exif_metadata], the two classification passes
  [ImageInfo.classify_exif] and [ImageInfo.classify_expand_name], and
  [main], which sequences them; and, of [ConfigManager], the text of the
  configuration file and the loop that asks for a target path.

  Python strings are [string]; the two dictionaries of [ImageInfo] are
  insertion-ordered association lists; the methods live in a monad that
  threads the instance, the filesystem and a log, and that can raise.
  The filesystem itself ([os.walk], [os.makedirs], [shutil.move], [open]
  with [exifread.process_file]) is an interface, so that the theorems
  about the passes hold for every filesystem; a directory tree gives a
  concrete instance on which runs are evaluated, and on which the passes
  are followed down to the place of each file on the disk. *)

From Stdlib Require Import String Ascii List Bool Arith ZArith Lia.
Import ListNotations.
Local Open Scope string_scope.

(** ** Python string primitives *)

Module PyStr.

(** [s.startswith(c)] for a one-character [c]. *)
Definition startswith (c : ascii) (s : string) : bool :=
  match s with
  | String x _ => Ascii.eqb x c
  | EmptyString => false
  end.

(** [s.endswith(c)] for a one-character [c]. *)
Fixpoint endswith (c : ascii) (s : string) : bool :=
  match s with
  | EmptyString => false
  | String x EmptyString => Ascii.eqb x c
  | String _ r => endswith c r
  end.

(** [c in s] for a one-character [c]. *)
Fixpoint contains (c : ascii) (s : string) : bool :=
  match s with
  | EmptyString => false
  | String x r => Ascii.eqb x c || contains c r
  end.

(** [s == c * len(s)]: every character of [s] is [c]. *)
Fixpoint all_char (c : ascii) (s : string) : bool :=
  match s with
  | EmptyString => true
  | String x r => Ascii.eqb x c && all_char c r
  end.

(** [s.rfind(c)], counting positions from [i]; [-1] when [c] is absent. *)
Fixpoint rfind_from (c : ascii) (s : string) (i : Z) : Z :=
  match s with
  | EmptyString => (-1)%Z
  | String x r =>
      let j := rfind_from c r (i + 1) in
      if (0 <=? j)%Z then j
      else if Ascii.eqb x c then i else (-1)%Z
  end.

Definition rfind (c : ascii) (s : string) : Z := rfind_from c s 0.

(** [s[:i]] and [s[i:]] for [0 <= i]; [s[i:j]] for [0 <= i <= j]. *)
Definition slice_to (s : string) (i : Z) : string :=
  substring 0 (Z.to_nat i) s.

Definition slice_from (s : string) (i : Z) : string :=
  substring (Z.to_nat i) (String.length s - Z.to_nat i) s.

Definition slice (s : string) (i j : Z) : string :=
  substring (Z.to_nat i) (Z.to_nat j - Z.to_nat i) s.

(** [s.rstrip(c)] for a one-character [c]. *)
Fixpoint rstrip (c : ascii) (s : string) : string :=
  match s with
  | EmptyString => EmptyString
  | String x r =>
      match rstrip c r with
      | EmptyString => if Ascii.eqb x c then EmptyString else String x EmptyString
      | r' => String x r'
      end
  end.

(** [s.replace(c, "")]: every occurrence of [c] is dropped. *)
Fixpoint remove_char (c : ascii) (s : string) : string :=
  match s with
  | EmptyString => EmptyString
  | String x r => if Ascii.eqb x c then remove_char c r
                  else String x (remove_char c r)
  end.

(** [s.replace(c, d)] for one-character [c] and [d]. *)
Fixpoint replace_char (c d : ascii) (s : string) : string :=
  match s with
  | EmptyString => EmptyString
  | String x r => String (if Ascii.eqb x c then d else x) (replace_char c d r)
  end.

(** [s.split(c)[0]]: the text before the first [c]. *)
Fixpoint split_first (c : ascii) (s : string) : string :=
  match s with
  | EmptyString => EmptyString
  | String x r => if Ascii.eqb x c then EmptyString
                  else String x (split_first c r)
  end.

(** [s.split(c)[-1]]: the text after the last [c]. *)
Fixpoint split_last (c : ascii) (s : string) : string :=
  match s with
  | EmptyString => EmptyString
  | String x r => if contains c r then split_last c r
                  else if Ascii.eqb x c then r else s
  end.

(** Truth value of a string: [bool(s)]. *)
Definition truthy (s : string) : bool :=
  match s with EmptyString => false | _ => true end.

End PyStr.

(** ** [os.path] (the POSIX flavour, [posixpath]) *)

Module OsPath.
Import PyStr.

Definition sep : ascii := "/"%char.
Definition extsep : ascii := "."%char.

(** [os.path.join(a, b)]. *)
Definition join (a b : string) : string :=
  if startswith sep b then b
  else if negb (truthy a) || endswith sep a then a ++ b
  else a ++ String sep b.

(** [os.path.dirname(p)]. *)
Definition dirname (p : string) : string :=
  let i := (rfind sep p + 1)%Z in
  let head := slice_to p i in
  if truthy head && negb (all_char sep head) then rstrip sep head else head.

(** [os.path.splitext(p)]: the extension starts at the last dot of the
    last component, unless only dots precede it in that component. *)
Definition splitext (p : string) : string * string :=
  let sepIndex := rfind sep p in
  let dotIndex := rfind extsep p in
  if (sepIndex <? dotIndex)%Z then
    if all_char extsep (slice p (sepIndex + 1) dotIndex) then (p, EmptyString)
    else (slice_to p dotIndex, slice_from p dotIndex)
  else (p, EmptyString).

End OsPath.

(** ** Python dictionaries

  A [dict] keeps its keys in insertion order; assigning to a key that is
  already present replaces the value where it stands. *)

Definition dict (V : Type) : Type := list (string * V).

Fixpoint dict_get {V : Type} (k : string) (d : dict V) : option V :=
match d with
| [] => None
| (k', v) :: d' => if String.eqb k k' then Some v else dict_get k d'
end.

Fixpoint dict_set {V : Type} (k : string) (v : V) (d : dict V) : dict V :=
match d with
| [] => [(k, v)]
| (k', v') :: d' => if String.eqb k k' then (k', v) :: d'
                    else (k', v') :: dict_set k v d'
end.

Definition dict_mem {V : Type} (k : string) (d : dict V) : bool :=
match dict_get k d with Some _ => true | None => false end.

Definition dict_keys {V : Type} (d : dict V) : list string := map fst d.

(** ** The data of [ImageInfo] *)

(** The sub-dictionary stored in [file_info] for one file. *)
Record FileInfo : Type := mkFileInfo {
Name : string;
ext : string;
Path : string;
Folder : string
}.

(** The sub-dictionary stored in [exif_dic] for one base name. *)
Record FileExif : Type := mkFileExif {
Type_ : string;
Date : string;
Time_ : string;
CameraModel : string;
ISO : string;
Shutter : string;
Aperture : string
}.

Record ImageInfo : Type := mkImageInfo {
target_path : string;
exif_dic : dict FileExif;
file_info : dict FileInfo;
exif_classify_mode : string;
is_ext_classify : bool
}.

(** Assignments to one field or one key. *)
Definition with_file_info (d : dict FileInfo) (i : ImageInfo) : ImageInfo :=
{| target_path := target_path i; exif_dic := exif_dic i; file_info := d;
   exif_classify_mode := exif_classify_mode i;
   is_ext_classify := is_ext_classify i |}.

Definition with_exif_dic (d : dict FileExif) (i : ImageInfo) : ImageInfo :=
{| target_path := target_path i; exif_dic := d; file_info := file_info i;
   exif_classify_mode := exif_classify_mode i;
   is_ext_classify := is_ext_classify i |}.

Definition with_Path (p : string) (info : FileInfo) : FileInfo :=
{| Name := Name info; ext := ext info; Path := p; Folder := Folder info |}.

Definition with_Folder (d : string) (info : FileInfo) : FileInfo :=
{| Name := Name info; ext := ext info; Path := Path info; Folder := d |}.

(** [ImageInfo.__init__]. *)
Definition ImageInfo_init : ImageInfo :=
{| target_path := ""; exif_dic := []; file_info := [];
   exif_classify_mode := ""; is_ext_classify := true |}.

(** The three values [main] reads from [ConfigManager.config]. *)
Record Config : Type := mkConfig {
config_target_path : string;
config_classify_by_ext : bool;
config_exif_mode : string
}.

(** ** Exceptions, console lines and the log *)

Inductive exception : Type :=
| AttributeError
| KeyError
| NameError
| RuntimeError
| FileExistsError
| PermissionError
| FileNotFoundError
| NotADirectoryError
| IsADirectoryError
| ShutilError.

(** One constructor per [print] of the classification code. *)
Inductive message : Type :=
| SelectMode (mode : string)
| SkipExif
| UnsupportedMode (mode : string)
| TryMove (file src dst : string)
| FailedMove (file : string) (e : exception)
| AlreadyExist (file folder : string)
| NoPermission
| SourceMissing (file : string)
| Finished.

(** What a run does, in order: the lines it prints and the filesystem
  calls it makes (recorded when the call is made, whatever its outcome). *)
Inductive event : Type :=
| Printed (m : message)
| Open (path : string)
| Makedirs (path : string)
| Move (src dst : string).

Inductive result (A : Type) : Type :=
| Ok (a : A)
| Raise (e : exception).
Arguments Ok {A} a.
Arguments Raise {A} e.

(** The EXIF tags [exifread.process_file] decodes from a file: tag name to
  the [printable] text of the tag. *)
Definition tags : Type := dict string.

(** ** The filesystem the program runs against *)

Class FileSystem (FS : Type) : Type := {
  (** [os.walk(top)]: the [(root, dirs, files)] triples, top-down. *)
  os_walk : string -> FS -> list (string * list string * list string);
  (** [os.makedirs(path, exist_ok=True)]. *)
  os_makedirs : string -> FS -> result FS;
  (** [shutil.move(src, dst)]. *)
  shutil_move : string -> string -> FS -> result FS;
  (** [open(path, 'rb')] followed by [exifread.process_file]. *)
  process_file : string -> FS -> result tags
}.

(** ** The monad of the methods *)

Section Methods.
Context {FS : Type}.

Record state : Type := mkState {
  self : ImageInfo;
  disk : FS;
  log : list event
}.

Definition M (A : Type) : Type := state -> result A * state.

Definition ret {A : Type} (a : A) : M A := fun s => (Ok a, s).

Definition bind {A B : Type} (m : M A) (f : A -> M B) : M B :=
  fun s => match m s with
           | (Ok a, s') => f a s'
           | (Raise e, s') => (Raise e, s')
           end.

Definition raise {A : Type} (e : exception) : M A := fun s => (Raise e, s).

(** [try: m except ...: handler]. *)
Definition try_except {A : Type} (m : M A) (handler : exception -> M A) : M A :=
  fun s => match m s with
           | (Raise e, s') => handler e s'
           | r => r
           end.

Definition gets {A : Type} (f : ImageInfo -> A) : M A :=
  fun s => (Ok (f (self s)), s).

Definition modify (f : ImageInfo -> ImageInfo) : M unit :=
  fun s => (Ok tt, mkState (f (self s)) (disk s) (log s)).

Definition emit (e : event) : M unit :=
  fun s => (Ok tt, mkState (self s) (disk s) (log s ++ [e])).

Definition print (m : message) : M unit := emit (Printed m).

(** A filesystem call that changes the disk, or raises and leaves it. *)
Definition fs_update (op : FS -> result FS) : M unit :=
  fun s => match op (disk s) with
           | Ok d => (Ok tt, mkState (self s) d (log s))
           | Raise e => (Raise e, s)
           end.

(** A filesystem call that only reads. *)
Definition fs_read {A : Type} (op : FS -> result A) : M A :=
  fun s => (op (disk s), s).

End Methods.

Arguments state FS : clear implicits.
Arguments mkState {FS} self disk log.
Arguments M FS A : clear implicits.

Declare Scope py_scope.
Delimit Scope py_scope with py.
Notation "x <- m ;; k" := (bind m (fun x => k))
  (at level 61, m at next level, right associativity) : py_scope.
Notation "m ;; k" := (bind m (fun _ => k))
  (at level 61, right associativity) : py_scope.
Local Open Scope py_scope.

(** ** The methods of [ImageInfo] and [main] *)

Section Program.
Context {FS : Type} `{FileSystem FS}.
Import PyStr OsPath.

(** Control at the end of one loop iteration: go on with the next
    element, or [return] from the enclosing function. *)
Inductive flow : Type := Next | Return.

(** [for x in xs: body]. *)
Fixpoint for_in {A : Type} (xs : list A) (body : A -> M FS flow) : M FS flow :=
  match xs with
  | [] => ret Next
  | x :: xs' =>
      c <- body x ;;
      match c with
      | Next => for_in xs' body
      | Return => ret Return
      end
  end.

(** [self.file_info[file]]. *)
Definition file_info_at (file : string) : M FS FileInfo :=
  d <- gets file_info ;;
  match dict_get file d with
  | Some info => ret info
  | None => raise KeyError
  end.

(** [self.exif_dic[file_name]]. *)
Definition exif_dic_at (file_name : string) : M FS FileExif :=
  d <- gets exif_dic ;;
  match dict_get file_name d with
  | Some e => ret e
  | None => raise KeyError
  end.

(** [self.file_info[file] = info]. *)
Definition set_file_info (file : string) (info : FileInfo) : M FS unit :=
  modify (fun i => with_file_info (dict_set file info (file_info i)) i).

(** [self.exif_dic[file_name] = e]. *)
Definition set_exif_dic (file_name : string) (e : FileExif) : M FS unit :=
  modify (fun i => with_exif_dic (dict_set file_name e (exif_dic i)) i).

(** [self.file_info[file]["Path"] = p]. *)
Definition set_Path (file p : string) : M FS unit :=
  info <- file_info_at file ;;
  set_file_info file (with_Path p info).

(** [self.file_info[file]["Folder"] = d]. *)
Definition set_Folder (file d : string) : M FS unit :=
  info <- file_info_at file ;;
  set_file_info file (with_Folder d info).

Definition makedirs (path : string) : M FS unit :=
  emit (Makedirs path) ;; fs_update (os_makedirs path).

Definition move (src dst : string) : M FS unit :=
  emit (Move src dst) ;; fs_update (shutil_move src dst).

(** *** [get_file_info] *)

Definition get_file_info_file (root file : string) : M FS flow :=
  let '(file_name, file_expand_name) := splitext file in
  if truthy file_expand_name then
    set_file_info file
      {| Name := file_name;
         ext := remove_char "."%char file_expand_name;
         Path := join root file;
         Folder := root |} ;;
    ret Next
  else ret Next.

Definition get_file_info : M FS unit :=
  top <- gets target_path ;;
  triples <- fs_read (fun d => Ok (os_walk top d)) ;;
  for_in triples (fun '(root, dirs, files) =>
    for_in files (get_file_info_file root)) ;;
  ret tt.

(** *** [classify_expand_name] *)

Definition classify_expand_name_file (file : string) : M FS flow :=
  info <- file_info_at file ;;
  let type_folder := join (Folder info) (ext info) in
  makedirs type_folder ;;
  let file_original_path := Path info in
  let file_new_path := join type_folder file in
  try_except
    (move file_original_path file_new_path ;;
     print (TryMove file file_original_path file_new_path) ;;
     set_Path file file_new_path)
    (fun e => print (FailedMove file e)) ;;
  ret Next.

Definition classify_expand_name : M FS unit :=
  files <- gets (fun i => dict_keys (file_info i)) ;;
  for_in files classify_expand_name_file ;;
  ret tt.

(** *** [get_exif_metadata] *)

(** [tag.printable] for the result of [tags.get(...)]: [None] has no
    such attribute. *)
Definition printable (tag : option string) : M FS string :=
  match tag with
  | Some p => ret p
  | None => raise AttributeError
  end.

Definition get_exif_metadata_file (file : string) : M FS flow :=
  info <- file_info_at file ;;
  seen <- gets exif_dic ;;
  if negb (dict_mem (Name info) seen) then
    emit (Open (Path info)) ;;
    tags <- fs_read (process_file (Path info)) ;;
    date <- printable (dict_get "EXIF DateTimeOriginal" tags) ;;
    time <- printable (dict_get "EXIF DateTimeOriginal" tags) ;;
    model <- printable (dict_get "Image Model" tags) ;;
    iso <- printable (dict_get "EXIF ISOSpeedRatings" tags) ;;
    shutter <- printable (dict_get "EXIF ExposureTime" tags) ;;
    aperture <- printable (dict_get "EXIF FNumber" tags) ;;
    set_exif_dic (Name info)
      {| Type_ := ext info;
         Date := replace_char ":"%char "-"%char (split_first " "%char date);
         Time_ := split_last " "%char time;
         CameraModel := model;
         ISO := "ISO" ++ iso;
         Shutter := shutter ++ "s";
         Aperture := "f" ++ aperture |} ;;
    ret Next
  else ret Next.

Definition get_exif_metadata : M FS unit :=
  files <- gets (fun i => dict_keys (file_info i)) ;;
  for_in files get_exif_metadata_file ;;
  ret tt.

(** *** [classify_exif] *)

(** The names bound in the module's global scope: the imports, the two
    classes and [main].  (The built-in names and the module attributes
    such as [__name__] and [__doc__] are left out.) *)
Definition module_globals : list string :=
  ["os"; "shutil"; "time"; "exifread"; "json";
   "ConfigManager"; "ImageInfo"; "main"].

(** Reading a name inside a function: the function's local variables
    first, then the globals of the module (whose values are modules,
    classes and functions, shown here by their name). A name bound in
    neither is a [NameError]. *)
Definition load_name (locals : dict string) (x : string) : M FS string :=
  match dict_get x locals with
  | Some v => ret v
  | None => if existsb (String.eqb x) module_globals then ret x
            else raise NameError
  end.

(** The branch of [classify_exif] chosen by the mode: the destination
    folder together with the local variable the branch binds, [None]
    for the branch that returns, an exception for an unknown mode. *)
Definition exif_dispatch (mode root_path file_name : string)
  : M FS (option (string * (string * string))) :=
  if String.eqb mode "0" then
    e <- exif_dic_at file_name ;;
    let camera_model := CameraModel e in
    ret (Some (join root_path camera_model, ("camera_model", camera_model)))
  else if String.eqb mode "1" then
    e <- exif_dic_at file_name ;;
    let capture_date := Date e in
    ret (Some (join root_path capture_date, ("capture_date", capture_date)))
  else if String.eqb mode "" then
    print SkipExif ;; ret None
  else
    print (UnsupportedMode mode) ;; raise RuntimeError.

(** The local variables of [classify_exif] that are bound when the
    handlers of the [try] run. *)
Definition classify_exif_locals
    (file file_name original_path root_path : string)
    (branch_local : string * string) (dst_folder dst_path : string) : dict string :=
  [("file", file); ("file_name", file_name);
   ("original_path", original_path); ("root_path", root_path);
   branch_local; ("dst_folder", dst_folder); ("dst_path", dst_path)].

Definition classify_exif_file (file : string) : M FS flow :=
  let file_name := fst (splitext file) in
  known <- gets exif_dic ;;
  if dict_mem file_name known then
    info <- file_info_at file ;;
    let original_path := Path info in
    let root_path := dirname original_path in
    mode <- gets exif_classify_mode ;;
    branch <- exif_dispatch mode root_path file_name ;;
    match branch with
    | None => ret Return
    | Some (dst_folder, branch_local) =>
        makedirs dst_folder ;;
        let dst_path := join dst_folder file in
        let locals := classify_exif_locals file file_name original_path
                        root_path branch_local dst_folder dst_path in
        try_except
          (move original_path dst_path ;;
           print (TryMove file original_path dst_path) ;;
           set_Path file dst_path ;;
           set_Folder file dst_folder)
          (fun e =>
             match e with
             | FileExistsError =>
                 f <- load_name locals "file" ;;
                 folder <- load_name locals "camera_model_folder" ;;
                 print (AlreadyExist f folder)
             | PermissionError => print NoPermission
             | FileNotFoundError =>
                 f <- load_name locals "file" ;;
                 print (SourceMissing f)
             | _ => raise e
             end) ;;
        ret Next
    end
  else ret Next.

Definition classify_exif : M FS unit :=
  mode <- gets exif_classify_mode ;;
  if truthy mode then
    print (SelectMode mode) ;;
    files <- gets (fun i => dict_keys (file_info i)) ;;
    for_in files classify_exif_file ;;
    ret tt
  else ret tt.

(** *** [main] *)

Definition main (config : Config) : M FS unit :=
  modify (fun _ => ImageInfo_init) ;;
  modify (fun i =>
    {| target_path := config_target_path config; exif_dic := exif_dic i;
       file_info := file_info i; exif_classify_mode := exif_classify_mode i;
       is_ext_classify := is_ext_classify i |}) ;;
  modify (fun i =>
    {| target_path := target_path i; exif_dic := exif_dic i;
       file_info := file_info i;
       exif_classify_mode := config_exif_mode config;
       is_ext_classify := is_ext_classify i |}) ;;
  modify (fun i =>
    {| target_path := target_path i; exif_dic := exif_dic i;
       file_info := file_info i; exif_classify_mode := exif_classify_mode i;
       is_ext_classify := config_classify_by_ext config |}) ;;
  get_file_info ;;
  get_exif_metadata ;;
  classify_exif ;;
  classify_expand_name ;;
  print Finished.

(** A run of the program on a disk: [main] from a fresh process. *)
Definition run (config : Config) (d : FS) : result unit * state FS :=
  main config {| self := ImageInfo_init; disk := d; log := [] |}.

End Program.

(** ** A concrete filesystem: a directory tree

  The tree is rooted at the working directory of the process (taken to
  be [/] as well); an entry list keeps the order in which the directory
  is listed.  A file is represented by the tags [exifread] decodes from
  it.  Path components [..] and symbolic links are not interpreted.

  [replace_existing] selects what the move primitive does when its
  destination is an existing regular file: [true] replaces it, as
  [os.rename] does on POSIX (and as [shutil.move] ends up doing
  everywhere for a regular file); [false] refuses with
  [FileExistsError], the case the handler of [classify_exif] is
  written for. *)

Module TreeFS.
Import PyStr OsPath.

#[warnings="-register-all"]
Inductive node : Type :=
| File (t : tags)
| Dir (entries : list (string * node)).

Fixpoint split_sep (s cur : string) : list string :=
  match s with
  | EmptyString => [cur]
  | String c r => if Ascii.eqb c sep then cur :: split_sep r ""
                  else split_sep r (cur ++ String c "")
  end.

Definition components (p : string) : list string :=
  filter (fun c => negb (String.eqb c "") && negb (String.eqb c "."))
         (split_sep p "").

Definition lookup_entry (c : string) (es : list (string * node)) : option node :=
  dict_get c es.

Fixpoint lookup (n : node) (cs : list string) : option node :=
  match cs with
  | [] => Some n
  | c :: cs' =>
      match n with
      | File _ => None
      | Dir es => match lookup_entry c es with
                  | Some n' => lookup n' cs'
                  | None => None
                  end
      end
  end.

Fixpoint remove_entry (c : string) (es : list (string * node)) : list (string * node) :=
  match es with
  | [] => []
  | (c', n) :: es' => if String.eqb c c' then es' else (c', n) :: remove_entry c es'
  end.

(** Unlink the node at [cs]. *)
Fixpoint remove (n : node) (cs : list string) : node :=
  match cs, n with
  | [c], Dir es => Dir (remove_entry c es)
  | c :: cs', Dir es =>
      match lookup_entry c es with
      | Some n' => Dir (dict_set c (remove n' cs') es)
      | None => n
      end
  | _, _ => n
  end.

(** Link [new] at [cs]; the parent directory has to exist. *)
Fixpoint insert (n : node) (cs : list string) (new : node) : result node :=
  match cs, n with
  | [], _ => Ok new
  | _ :: _, File _ => Raise NotADirectoryError
  | [c], Dir es => Ok (Dir (dict_set c new es))
  | c :: cs', Dir es =>
      match lookup_entry c es with
      | Some n' => match insert n' cs' new with
                   | Ok n'' => Ok (Dir (dict_set c n'' es))
                   | Raise e => Raise e
                   end
      | None => Raise FileNotFoundError
      end
  end.

Fixpoint mkdirs (n : node) (cs : list string) : result node :=
  match cs, n with
  | [], Dir _ => Ok n
  | [], File _ => Raise FileExistsError
  | _ :: _, File _ => Raise NotADirectoryError
  | c :: cs', Dir es =>
      match mkdirs (match lookup_entry c es with
                    | Some n' => n'
                    | None => Dir []
                    end) cs' with
      | Ok n'' => Ok (Dir (dict_set c n'' es))
      | Raise e => Raise e
      end
  end.

Definition is_dir (o : option node) : bool :=
  match o with Some (Dir _) => true | _ => false end.

Definition is_file (o : option node) : bool :=
  match o with Some (File _) => true | _ => false end.

Definition names (want_dirs : bool) (es : list (string * node)) : list string :=
  map fst (filter (fun e => Bool.eqb (is_dir (Some (snd e))) want_dirs) es).

Fixpoint walk (top : string) (n : node) : list (string * list string * list string) :=
  match n with
  | File _ => []
  | Dir es =>
      (top, names true es, names false es)
      :: (fix subdirs (l : list (string * node)) :=
            match l with
            | [] => []
            | (name, child) :: l' => (walk (join top name) child ++ subdirs l')%list
            end) es
  end.

Definition tree_walk (top : string) (root : node) : list (string * list string * list string) :=
  if truthy top then
    match lookup root (components top) with
    | Some n => walk top n
    | None => []
    end
  else [].

Definition tree_makedirs (path : string) (root : node) : result node :=
  mkdirs root (components path).

(** [os.path.basename(src.rstrip("/"))], as [shutil.move] computes it. *)
Definition basename (src : string) : string :=
  let p := rstrip sep src in slice_from p (rfind sep p + 1).

Definition list_eqb (a b : list string) : bool :=
  if list_eq_dec string_dec a b then true else false.

Definition tree_move (replace_existing : bool) (src dst : string) (root : node)
  : result node :=
  let to_dir := is_dir (lookup root (components dst)) in
  let real_dst := if to_dir then join dst (basename src) else dst in
  let cs := components src in
  let cd := components real_dst in
  if to_dir && (match lookup root cd with Some _ => true | None => false end)
  then Raise ShutilError
  else
    match lookup root cs with
    | None => Raise FileNotFoundError
    | Some n =>
        if list_eqb cs cd then Ok root
        else
          match lookup root cd with
          | Some (Dir _) => Raise ShutilError
          | Some (File _) =>
              if replace_existing then insert (remove root cs) cd n
              else Raise FileExistsError
          | None => insert (remove root cs) cd n
          end
    end.

Definition tree_process_file (path : string) (root : node) : result tags :=
  match lookup root (components path) with
  | Some (File t) => Ok t
  | Some (Dir _) => Raise PermissionError
  | None => Raise FileNotFoundError
  end.

(** The filesystem of a POSIX host. *)
Definition posix : FileSystem node :=
  {| os_walk := tree_walk;
     os_makedirs := tree_makedirs;
     shutil_move := tree_move true;
     process_file := tree_process_file |}.

(** A filesystem whose move never replaces a file. *)
Definition strict : FileSystem node :=
  {| os_walk := tree_walk;
     os_makedirs := tree_makedirs;
     shutil_move := tree_move false;
     process_file := tree_process_file |}.


(** The tags of a photograph. *)
Definition photo (date_time model : string) : node :=
  File [("EXIF DateTimeOriginal", date_time); ("Image Model", model);
        ("EXIF ISOSpeedRatings", "100"); ("EXIF ExposureTime", "1/250");
        ("EXIF FNumber", "2.8")].

End TreeFS.


(** ** [ConfigManager]: the text of the configuration file

    Three pieces of [ConfigManager] are functions of text alone: what
    [create_default_config] writes, what [load] hands to [json.loads],
    and the loop of [load] that asks for a target path.  Text is a
    sequence of bytes of its UTF-8 encoding; a file is given by the text
    its text-mode stream yields, line ends already [\n]. *)

Module ConfigText.
Import PyStr.

Definition bytes (l : list nat) : string :=
  fold_right (fun n s => String (ascii_of_nat n) s) EmptyString l.

Definition nl : string := bytes [10].
Definition dq : string := bytes [34].
Definition backslash : ascii := ascii_of_nat 92.

(** The characters for which [str.isspace] holds, in UTF-8: U+0009 to
    U+000D, U+001C to U+0020, U+0085, U+00A0, U+1680, U+2000 to U+200A,
    U+2028, U+2029, U+202F, U+205F and U+3000. *)
Definition whitespace : list string :=
  map bytes
    [[9]; [10]; [11]; [12]; [13]; [28]; [29]; [30]; [31]; [32];
     [194; 133]; [194; 160]; [225; 154; 128];
     [226; 128; 128]; [226; 128; 129]; [226; 128; 130]; [226; 128; 131];
     [226; 128; 132]; [226; 128; 133]; [226; 128; 134]; [226; 128; 135];
     [226; 128; 136]; [226; 128; 137]; [226; 128; 138];
     [226; 128; 168]; [226; 128; 169]; [226; 128; 175]; [226; 129; 159];
     [227; 128; 128]].

(** [s] without its prefix [p], when it has that prefix. *)
Fixpoint drop_prefix (p s : string) : option string :=
  match p, s with
  | EmptyString, _ => Some s
  | String a p', String b s' => if Ascii.eqb a b then drop_prefix p' s' else None
  | String _ _, EmptyString => None
  end.

Fixpoint drop_any (ps : list string) (s : string) : option string :=
  match ps with
  | [] => None
  | p :: ps' => match drop_prefix p s with
                | Some r => Some r
                | None => drop_any ps' s
                end
  end.

(** Leading characters of [chars] removed, one per unit of [fuel]. *)
Fixpoint lstrip_chars (chars : list string) (fuel : nat) (s : string) : string :=
  match fuel with
  | O => s
  | S fuel' => match drop_any chars s with
               | Some r => lstrip_chars chars fuel' r
               | None => s
               end
  end.

Definition reverse (s : string) : string :=
  string_of_list_ascii (rev (list_ascii_of_string s)).

(** [s.strip()]: whitespace removed at both ends (the length of [s] is
    fuel enough, as each removal takes at least one byte). *)
Definition strip (s : string) : string :=
  let left := lstrip_chars whitespace (String.length s) s in
  reverse (lstrip_chars (map reverse whitespace) (String.length left) (reverse left)).

(** [for line in f]: the lines of a text, each with its line end. *)
Fixpoint lines_of (text : string) : list string :=
  match text with
  | EmptyString => []
  | String c r =>
      if Ascii.eqb c (ascii_of_nat 10) then String c EmptyString :: lines_of r
      else match lines_of r with
           | [] => [String c EmptyString]
           | l :: ls => String c l :: ls
           end
  end.

(** [line.strip().startswith("#")]. *)
Definition is_comment (line : string) : bool :=
  startswith "#"%char (strip line).

(** The text [load] passes to [json.loads]: the lines that are not
    comments, joined, with every backslash replaced by a slash. *)
Definition load_json_text (text : string) : string :=
  let lines := filter (fun line => negb (is_comment line)) (lines_of text) in
  let json_text := String.concat EmptyString lines in
  replace_char backslash "/"%char json_text.

(** [help_text] of [create_default_config]. *)
Definition help_text : string :=
  "# 说明([]内为可选参数，用 | 分隔)：" ++ nl ++
  "# target_path：需要分类的素材所在路径，支持子文件夹" ++ nl ++
  "# classify_by_ext：是否按拓展名分类(同时启用拓展名分类和EXIF分类时，优先进行EXIF分类，如"
    ++ dq ++ "拍摄时间-Raw|JPG" ++ dq ++ "层级) [True | False]" ++ nl ++
  "# exif_mode：EXIF分类方式，支持按相机、拍摄日期分类(根据作者实际经验，该两项相对常用) [0:相机机型 | 1:拍摄日期 | "
    ++ dq ++ dq ++ ":不进行EXIF分类]" ++ nl.

(** What [json.dump(self.default_config, f, indent=4, ensure_ascii=False)]
    writes: the three keys of [default_config], one per line. *)
Definition default_config_json : string :=
  "{" ++ nl ++
  "    " ++ dq ++ "target_path" ++ dq ++ ": " ++ dq ++ dq ++ "," ++ nl ++
  "    " ++ dq ++ "classify_by_ext" ++ dq ++ ": true," ++ nl ++
  "    " ++ dq ++ "exif_mode" ++ dq ++ ": " ++ dq ++ dq ++ nl ++
  "}".

(** The file [create_default_config] leaves: the help text, then the
    default configuration. *)
Definition create_default_config : string := help_text ++ default_config_json.

(** How the loop of [load] ends: with a target path and what is left of
    the standard input, or with the [EOFError] of [input]. *)
Inductive asked : Type :=
| Target (target_path : string) (stdin : list string)
| EOFError.

(** [while not config["target_path"] or not os.path.exists(config["target_path"]):
    config["target_path"] = input(...)], for a target path that is a
    string; [stdin] holds the lines the user will enter, [path_exists] is
    [os.path.exists]. *)
Fixpoint ask_target_path (path_exists : string -> bool) (stdin : list string)
    (target_path : string) : asked :=
  if negb (truthy target_path) || negb (path_exists target_path) then
    match stdin with
    | [] => EOFError
    | answer :: stdin' => ask_target_path path_exists stdin' answer
    end
  else Target target_path stdin.

End ConfigText.

Local Open Scope list_scope.

(** ** Vocabulary of the statements *)

(** The folder name [classify_exif] takes from the metadata, by mode. *)
Definition exif_segment (mode : string) (e : FileExif) : option string :=
  if String.eqb mode "0" then Some (CameraModel e)
  else if String.eqb mode "1" then Some (Date e)
  else None.

(** The filesystem moves a log asks for, in order. *)
Definition moves_of (l : list event) : list (string * string) :=
  flat_map (fun ev => match ev with Move src dst => [(src, dst)] | _ => [] end) l.

(** A console line that reports a move that did not happen. *)
Definition is_failure (ev : event) : bool :=
  match ev with
  | Printed (FailedMove _ _) | Printed (AlreadyExist _ _)
  | Printed NoPermission | Printed (SourceMissing _) => true
  | _ => false
  end.

(** The state in which [main] reaches the two classification passes: the
    instance configured, the tree scanned and the metadata read. *)
Definition scanned {FS : Type} `{FileSystem FS} (config : Config) (d : FS) : state FS :=
  snd ((get_file_info ;; get_exif_metadata)
         (mkState {| target_path := config_target_path config; exif_dic := [];
                     file_info := [];
                     exif_classify_mode := config_exif_mode config;
                     is_ext_classify := config_classify_by_ext config |} d [])).

(** A name that [get_file_info] accepts as a key: it has an extension,
    and, being a directory entry, no separator. *)
Definition cataloged_name (k : string) : Prop :=
  PyStr.truthy (snd (OsPath.splitext k)) = true
  /\ PyStr.contains OsPath.sep k = false.

(** An event that concerns a cataloged name only: a move whose source is
    some folder joined with such a name, a move line for such a name. *)
Definition event_ok (ev : event) : Prop :=
  match ev with
  | Move src _ => exists x k, cataloged_name k /\ src = OsPath.join x k
  | Printed (TryMove k _ _) => cataloged_name k
  | _ => True
  end.

(** Every record is filed under a cataloged name and holds a path made
    of a folder and that name; every event so far is about such names. *)
Definition catalog_inv {FS : Type} (s : state FS) : Prop :=
  (forall k info, dict_get k (file_info (self s)) = Some info ->
     cataloged_name k /\ exists x, Path info = OsPath.join x k)
  /\ Forall event_ok (log s).

(** What a step on [x] leaves alone: the log is extended, the records of
    the other files, the metadata, the mode and the keys stay. *)
Definition frame {FS : Type} (x : string) (s s' : state FS) : Prop :=
  (exists l, log s' = log s ++ l)
  /\ (forall k, k <> x ->
        dict_get k (file_info (self s')) = dict_get k (file_info (self s)))
  /\ exif_dic (self s') = exif_dic (self s)
  /\ exif_classify_mode (self s') = exif_classify_mode (self s)
  /\ dict_keys (file_info (self s')) = dict_keys (file_info (self s)).

(** What a pass keeps of the state it starts from. *)
Definition extends {FS : Type} (s s' : state FS) : Prop :=
  (exists l, log s' = log s ++ l)
  /\ exif_dic (self s') = exif_dic (self s)
  /\ exif_classify_mode (self s') = exif_classify_mode (self s)
  /\ dict_keys (file_info (self s')) = dict_keys (file_info (self s)).

(** The instance and the state with the flag [is_ext_classify] reset. *)
Definition set_flag (b : bool) (i : ImageInfo) : ImageInfo :=
  {| target_path := target_path i; exif_dic := exif_dic i;
     file_info := file_info i; exif_classify_mode := exif_classify_mode i;
     is_ext_classify := b |}.

Definition reflag {FS : Type} (b : bool) (s : state FS) : state FS :=
  mkState (set_flag b (self s)) (disk s) (log s).

(** A method that never reads [is_ext_classify]: resetting the flag
    before it runs or after makes no difference. *)
Definition flag_blind {FS : Type} {A : Type} (m : M FS A) : Prop :=
  forall b s, m (reflag b s) = (fst (m s), reflag b (snd (m s))).

(** The catalog as the scan leaves it: distinct keys, and under each key
    a record whose path is its folder joined with the key. *)
Definition scan_shape {FS : Type} (s : state FS) : Prop :=
  NoDup (dict_keys (file_info (self s)))
  /\ forall k info, dict_get k (file_info (self s)) = Some info ->
       Path info = OsPath.join (Folder info) k
       /\ PyStr.contains OsPath.sep k = false
       /\ PyStr.endswith OsPath.sep (Folder info) = false.

(** The two classification passes in the order of [main]. *)
Definition both_passes {FS : Type} `{FileSystem FS} : M FS unit :=
  classify_exif ;; classify_expand_name.

(** What [main] does once the scan is over. *)
Definition after_scan {FS : Type} `{FileSystem FS} : M FS unit :=
  classify_exif ;; classify_expand_name ;; print Finished.

(** The state in which [main] calls [get_file_info]: a fresh instance
    with the three values of the configuration. *)
Definition start {FS : Type} (config : Config) (d : FS) : state FS :=
  mkState {| target_path := config_target_path config; exif_dic := [];
             file_info := [];
             exif_classify_mode := config_exif_mode config;
             is_ext_classify := config_classify_by_ext config |} d [].

(** The record [get_file_info] stores for [file] found in [root]. *)
Definition scan_record (root file : string) : FileInfo :=
  {| Name := fst (OsPath.splitext file);
     ext := PyStr.remove_char "."%char (snd (OsPath.splitext file));
     Path := OsPath.join root file;
     Folder := root |}.

(** The catalog after the files of one folder, and after a whole walk,
    as a function of the catalog before. *)
Definition scan_files (root : string) (files : list string)
    (d : dict FileInfo) : dict FileInfo :=
  fold_left
    (fun d file =>
       if PyStr.truthy (snd (OsPath.splitext file))
       then dict_set file (scan_record root file) d else d)
    files d.

Definition scan_catalog (triples : list (string * list string * list string))
    (d : dict FileInfo) : dict FileInfo :=
  fold_left (fun d '(root, _, files) => scan_files root files d) triples d.

(** The entry [get_exif_metadata] builds from the tags of a file of the
    given type, when the five tags it reads are all there. *)
Definition exif_of_tags (type_ : string) (t : tags) : option FileExif :=
  match dict_get "EXIF DateTimeOriginal" t, dict_get "Image Model" t,
        dict_get "EXIF ISOSpeedRatings" t, dict_get "EXIF ExposureTime" t,
        dict_get "EXIF FNumber" t with
  | Some date_time, Some model, Some iso, Some shutter, Some aperture =>
      Some {| Type_ := type_;
              Date := PyStr.replace_char ":"%char "-"%char
                        (PyStr.split_first " "%char date_time);
              Time_ := PyStr.split_last " "%char date_time;
              CameraModel := model;
              ISO := "ISO" ++ iso;
              Shutter := shutter ++ "s";
              Aperture := "f" ++ aperture |}
  | _, _, _, _, _ => None
  end.

(** A date that can name a folder: no colon and no blank in [Date], no
    blank in [Time_]. *)
Definition normalized (e : FileExif) : Prop :=
  PyStr.contains ":"%char (Date e) = false
  /\ PyStr.contains " "%char (Date e) = false
  /\ PyStr.contains " "%char (Time_ e) = false.

(** The move the extension pass asks for a record, and the moves the
    EXIF pass asks for it (none when its base name has no metadata). *)
Definition extension_move (entry : string * FileInfo) : string * string :=
  let '(file, info) := entry in
  (Path info, OsPath.join (OsPath.join (Folder info) (ext info)) file).

Definition exif_moves (mode : string) (known : dict FileExif)
    (entry : string * FileInfo) : list (string * string) :=
  let '(file, info) := entry in
  match dict_get (fst (OsPath.splitext file)) known with
  | Some e =>
      match exif_segment mode e with
      | Some seg =>
          [(Path info,
            OsPath.join (OsPath.join (OsPath.dirname (Path info)) seg) file)]
      | None => []
      end
  | None => []
  end.

(** What the classification passes keep of the instance: the settings,
    the metadata, the keys of the catalog, and under each key the name
    and the extension. *)
Definition same_files {FS : Type} (s s' : state FS) : Prop :=
  target_path (self s') = target_path (self s)
  /\ exif_classify_mode (self s') = exif_classify_mode (self s)
  /\ is_ext_classify (self s') = is_ext_classify (self s)
  /\ exif_dic (self s') = exif_dic (self s)
  /\ dict_keys (file_info (self s')) = dict_keys (file_info (self s))
  /\ forall k info', dict_get k (file_info (self s')) = Some info' ->
       exists info, dict_get k (file_info (self s)) = Some info
                    /\ Name info' = Name info /\ ext info' = ext info.

(** What a step of [get_exif_metadata] keeps, however it ends: the
    disk and the catalog; the entries already in the table; and it opens
    cataloged paths only. *)
Definition reads_only {FS : Type} (s s' : state FS) : Prop :=
  disk s' = disk s
  /\ file_info (self s') = file_info (self s)
  /\ (forall name e, dict_get name (exif_dic (self s)) = Some e ->
        dict_get name (exif_dic (self s')) = Some e)
  /\ exists l, log s' = log s ++ l
       /\ Forall (fun ev => exists k info,
                    dict_get k (file_info (self s)) = Some info
                    /\ ev = Open (Path info)) l.


(** A log without a line that reports a failed move. *)
Definition quiet (l : list event) : Prop :=
  forall ev, In ev l -> is_failure ev = false.

(** *** Paths and files of a directory tree *)

(** A path, as the list of its components, and the paths below it. *)
Definition is_prefix (p q : list string) : Prop := exists r, q = p ++ r.

(** The tree has a directory at [p]; it has, at [path], the regular file
    with the tags [t]. *)
Definition dir_at (d : TreeFS.node) (p : list string) : Prop :=
  exists es, TreeFS.lookup d p = Some (TreeFS.Dir es).

Definition file_at (d : TreeFS.node) (path : string) (t : tags) : Prop :=
  TreeFS.lookup d (TreeFS.components path) = Some (TreeFS.File t).

(** Every directory of the tree lists each name once. *)
Definition distinct_names (d : TreeFS.node) : Prop :=
  forall p es, TreeFS.lookup d p = Some (TreeFS.Dir es) -> NoDup (dict_keys es).

(** No directory of the tree bears one of the names [K], nor lies below
    a directory that does. *)
Definition no_dir_named (K : list string) (d : TreeFS.node) : Prop :=
  forall p es, TreeFS.lookup d p = Some (TreeFS.Dir es) ->
    forall c, In c p -> ~ In c K.

(** No component of [path] is one of the names [K]. *)
Definition apart (K : list string) (path : string) : Prop :=
  forall c, In c (TreeFS.components path) -> ~ In c K.

(** A name that is one component of a path. *)
Definition valid_name (k : string) : Prop :=
  PyStr.contains OsPath.sep k = false /\ k <> "" /\ k <> ".".

(** The catalog keeps track of the files of the tree: the keys are among
    the names [K]; every record holds the path of a regular file, made
    of a folder and the key; no directory bears a name of [K], and
    neither the folder of a record, nor its extension, nor a folder
    named by the metadata has such a name among its components. *)
Definition tracked (K : list string) (s : state TreeFS.node) : Prop :=
  distinct_names (disk s) /\ no_dir_named K (disk s)
  /\ (forall k info, dict_get k (file_info (self s)) = Some info ->
        In k K /\ (exists x, Path info = OsPath.join x k)
        /\ (exists t, file_at (disk s) (Path info) t)
        /\ apart K (Folder info) /\ apart K (ext info))
  /\ (forall name e seg,
        dict_get name (exif_dic (self s)) = Some e ->
        exif_segment (exif_classify_mode (self s)) e = Some seg ->
        apart K seg).

(** What a step on the key [k] leaves in place on the disk: the
    directories, the regular files whose name is not [k], and the
    absence of a file under another name of [K]. *)
Definition settled (K : list string) (k : string) (d d' : TreeFS.node) : Prop :=
  (forall p, dir_at d p -> dir_at d' p)
  /\ (forall p c t, c <> k -> TreeFS.lookup d (p ++ [c]) = Some (TreeFS.File t) ->
        TreeFS.lookup d' (p ++ [c]) = Some (TreeFS.File t))
  /\ (forall p c, In c K -> c <> k -> TreeFS.lookup d (p ++ [c]) = None ->
        TreeFS.lookup d' (p ++ [c]) = None).

(** The file named [k] that was at [src] on [d] is, on [d'], in the
    directory [folder]: it is no longer at [src], unless that is where
    [folder/k] is, and no file named [k] has appeared elsewhere. *)
Definition relocated (k : string) (src folder : string) (t : tags)
    (d d' : TreeFS.node) : Prop :=
  file_at d' (OsPath.join folder k) t
  /\ dir_at d' (TreeFS.components folder)
  /\ (TreeFS.components src <> TreeFS.components folder ++ [k] ->
      TreeFS.lookup d' (TreeFS.components src) = None)
  /\ (forall p, p ++ [k] <> TreeFS.components folder ++ [k] ->
        TreeFS.lookup d (p ++ [k]) = None -> TreeFS.lookup d' (p ++ [k]) = None).

(** What a step on [k] that ends normally has done: the record of [k] is
    [info'], and the file that was at [src] is in [folder]. *)
Definition step_moves (k src folder : string) (info' : FileInfo)
    (s : state TreeFS.node) (r : result flow * state TreeFS.node) : Prop :=
  match r with
  | (Ok c, s') =>
      c = Next
      /\ dict_get k (file_info (self s')) = Some info'
      /\ forall t, file_at (disk s) src t ->
           relocated k src folder t (disk s) (disk s')
  | (Raise _, _) => True
  end.

(** *** Orderly trees *)

(** A name a directory can list: no separator, and none of [""], ["."]
    and [".."]. *)
Definition entry_name (c : string) : bool :=
  negb (PyStr.contains OsPath.sep c) && negb (String.eqb c "")
  && negb (String.eqb c ".") && negb (String.eqb c "..").

Fixpoint distinct (l : list string) : bool :=
  match l with
  | [] => true
  | x :: l' => negb (existsb (String.eqb x) l') && distinct l'
  end.

(** A tree as a filesystem holds it: every directory lists entry names,
    each once. *)
Fixpoint well_formed (n : TreeFS.node) : bool :=
  match n with
  | TreeFS.File _ => true
  | TreeFS.Dir es =>
      forallb entry_name (map fst es) && distinct (map fst es)
      && forallb (fun e => well_formed (snd e)) es
  end.

Definition named_in (K : list string) (c : string) : bool :=
  existsb (String.eqb c) K.

(** No directory of the tree bears one of the names [K]. *)
Fixpoint dirs_apart (K : list string) (n : TreeFS.node) : bool :=
  match n with
  | TreeFS.File _ => true
  | TreeFS.Dir es =>
      forallb (fun e => match snd e with
                        | TreeFS.Dir _ =>
                            negb (named_in K (fst e)) && dirs_apart K (snd e)
                        | TreeFS.File _ => true
                        end) es
  end.

(** No component of the folder name [seg] is one of the names [K], or
    [".."]. *)
Definition segment_apart (K : list string) (seg : string) : bool :=
  forallb (fun c => negb (named_in K c) && negb (String.eqb c ".."))
          (TreeFS.components seg).

Definition segments_apart (K : list string) (mode : string)
    (known : dict FileExif) : bool :=
  forallb (fun entry => match exif_segment mode (snd entry) with
                        | Some seg => segment_apart K seg
                        | None => true
                        end) known.

(** The trees on which the catalog keeps track of the files, for a
    configuration: the tree is well formed, and neither a directory of
    the tree nor a folder that the metadata name, in the mode of the
    configuration, bears the name of a cataloged file. *)
Definition orderly (config : Config) (d : TreeFS.node) : bool :=
  let s := scanned (H := TreeFS.posix) config d in
  let K := dict_keys (file_info (self s)) in
  well_formed d && dirs_apart K d
  && segments_apart K (config_exif_mode config) (exif_dic (self s)).

(** ** Directory trees used as concrete inputs *)

Module Scenario.
Import TreeFS.

(** A folder with one photograph and one file without extension. *)
Definition photos : node :=
  Dir [("r", Dir [("a.jpg", photo "2024:05:01 10:00:00" "CameraX");
                  ("README", File [])])].

(** A folder with one text file, which carries no EXIF tag. *)
Definition notes : node :=
  Dir [("r", Dir [("notes.txt", File [])])].

(** Two subfolders that each hold a file named [x.jpg]. *)
Definition twins : node :=
  Dir [("r", Dir [("a", Dir [("x.jpg", photo "2024:05:01 10:00:00" "CameraX")]);
                  ("b", Dir [("x.jpg", photo "2024:06:02 11:00:00" "CameraY")])])].

(** A folder [/r] with [x.jpg], and a subfolder [B] with another [x.jpg]
    whose camera-model tag reads [/r]: in mode ["0"] the second file is
    given the destination [/r/x.jpg], where the first one is. *)
Definition collision : node :=
  Dir [("r", Dir [("x.jpg", photo "2024:05:01 10:00:00" "CameraX");
                  ("B", Dir [("x.jpg", photo "2024:06:02 11:00:00" "/r")])])].


(** A raw file and its rendering, which share the base name [IMG_001]. *)
Definition pair : node :=
  Dir [("r", Dir [("IMG_001.raw", photo "2024:05:01 10:00:00" "CameraX");
                  ("IMG_001.jpg", photo "2024:05:01 10:00:00" "CameraX");
                  ("notes", File [])])].


(** A photograph, and, in the folder its camera model names, a directory
    that bears the name of the photograph and holds a file. *)
Definition shadowed : node :=
  Dir [("r", Dir [("a.jpg", photo "2024:05:01 10:00:00" "CameraX");
                  ("CameraX", Dir [("a.jpg", Dir [("README", File [])])])])].



(** A file whose name ends with a dot. *)
Definition dotted : node :=
  Dir [("r", Dir [("b.", photo "2024:05:01 10:00:00" "CameraX")])].


End Scenario.

(** * Properties *)

(** ** The path functions on a few inputs *)

Example join_ex1 : OsPath.join "r" "a.jpg" = "r/a.jpg".
Proof. reflexivity. Qed.
Example join_ex2 : OsPath.join "r/" "a.jpg" = "r/a.jpg" /\ OsPath.join "" "a" = "a"
                 /\ OsPath.join "r" "/x" = "/x" /\ OsPath.join "r" "" = "r/".
Proof. repeat split. Qed.
Example dirname_ex : OsPath.dirname "r/b/a.jpg" = "r/b" /\ OsPath.dirname "/a" = "/"
                   /\ OsPath.dirname "a" = "" /\ OsPath.dirname "r//a" = "r".
Proof. repeat split. Qed.
Example splitext_ex :
OsPath.splitext "a.jpg" = ("a", ".jpg") /\ OsPath.splitext "README" = ("README", "")
/\ OsPath.splitext ".bashrc" = (".bashrc", "") /\ OsPath.splitext "a.tar.gz" = ("a.tar", ".gz")
/\ OsPath.splitext "a." = ("a", ".") /\ OsPath.splitext "..x" = ("..x", "")
/\ OsPath.splitext "d.d/f" = ("d.d/f", "").
Proof. repeat split. Qed.

(** ** Dictionaries *)

Section DictFacts.
Context {V : Type}.
Implicit Types (d : dict V) (k : string) (v : V).

Lemma dict_get_set_same k v d : dict_get k (dict_set k v d) = Some v.
Proof.
  induction d as [|[k' v'] d IH]; simpl.
  - now rewrite String.eqb_refl.
  - destruct (String.eqb k k') eqn:E; simpl; rewrite E; auto.
Qed.

Lemma dict_get_set_other k k' v d :
  k <> k' -> dict_get k' (dict_set k v d) = dict_get k' d.
Proof.
  intros Hne. induction d as [|[k0 v0] d IH]; simpl.
  - destruct (String.eqb k' k) eqn:E; auto.
    apply String.eqb_eq in E. congruence.
  - destruct (String.eqb k k0) eqn:E; simpl.
    + apply String.eqb_eq in E. subst k0.
      destruct (String.eqb k' k) eqn:E'; auto.
      apply String.eqb_eq in E'. congruence.
    + now rewrite IH.
Qed.

Lemma dict_keys_set_present k v d :
  dict_get k d <> None -> dict_keys (dict_set k v d) = dict_keys d.
Proof.
  unfold dict_keys. induction d as [|[k0 v0] d IH]; simpl; intros Hk.
  - congruence.
  - destruct (String.eqb k k0) eqn:E; simpl; auto.
    now rewrite IH.
Qed.

Lemma dict_get_in_keys k d :
  In k (dict_keys d) -> exists v, dict_get k d = Some v.
Proof.
  unfold dict_keys. induction d as [|[k0 v0] d IH]; simpl; intros Hin.
  - contradiction.
  - destruct (String.eqb k k0) eqn:E; eauto.
    destruct Hin as [->|Hin]; auto.
    now rewrite String.eqb_refl in E.
Qed.

Lemma dict_get_some_in_keys k v d :
  dict_get k d = Some v -> In k (dict_keys d).
Proof.
  unfold dict_keys. induction d as [|[k0 v0] d IH]; simpl; intros Hget.
  - discriminate.
  - destruct (String.eqb k k0) eqn:E; auto.
    apply String.eqb_eq in E. now left.
Qed.

Lemma dict_set_set_same k v v' d :
  dict_set k v (dict_set k v' d) = dict_set k v d.
Proof.
  induction d as [|[k0 v0] d IH]; simpl.
  - now rewrite String.eqb_refl.
  - destruct (String.eqb k k0) eqn:E; simpl; rewrite E; congruence.
Qed.

Lemma dict_get_set_inv k k' v v' d :
  dict_get k' (dict_set k v d) = Some v' ->
  (k' = k /\ v' = v) \/ (k' <> k /\ dict_get k' d = Some v').
Proof.
  intros Hget. destruct (string_dec k' k) as [->|Hne].
  - rewrite dict_get_set_same in Hget. left. split; congruence.
  - right. split; auto. rewrite dict_get_set_other in Hget; auto.
Qed.

End DictFacts.

(** ** One step of each loop, case by case *)

Section Steps.
Context {FS : Type} `{FileSystem FS}.
Import PyStr OsPath.

Ltac run_step :=
  unfold bind, ret, raise, gets, modify, emit, print, fs_update, fs_read,
    try_except; simpl.

(** The body of the loop of [classify_expand_name]. *)
Lemma classify_expand_name_file_cases (s : state FS) (file : string) (info : FileInfo) :
  dict_get file (file_info (self s)) = Some info ->
  let type_folder := join (Folder info) (ext info) in
  let file_new_path := join type_folder file in
  classify_expand_name_file file s =
    match os_makedirs type_folder (disk s) with
    | Raise e => (Raise e, mkState (self s) (disk s) (log s ++ [Makedirs type_folder]))
    | Ok d1 =>
        match shutil_move (Path info) file_new_path d1 with
        | Ok d2 =>
            (Ok Next,
             mkState
               (with_file_info
                  (dict_set file (with_Path file_new_path info) (file_info (self s)))
                  (self s))
               d2
               (((log s ++ [Makedirs type_folder])
                   ++ [Move (Path info) file_new_path])
                  ++ [Printed (TryMove file (Path info) file_new_path)]))
        | Raise e =>
            (Ok Next,
             mkState (self s) d1
               (((log s ++ [Makedirs type_folder])
                   ++ [Move (Path info) file_new_path])
                  ++ [Printed (FailedMove file e)]))
        end
    end.
Proof.
  intros Hget. unfold classify_expand_name_file, file_info_at, makedirs, move,
    set_Path, set_file_info, file_info_at.
  run_step. rewrite Hget. simpl.
  destruct (os_makedirs _ (disk s)) as [d1|e]; simpl; auto.
  destruct (shutil_move _ _ d1) as [d2|e]; simpl; auto.
  rewrite Hget. reflexivity.
Qed.

Lemma exif_segment_mode mode e seg :
  exif_segment mode e = Some seg -> mode = "0" \/ mode = "1".
Proof.
  unfold exif_segment.
  destruct (String.eqb mode "0") eqn:E0; [apply String.eqb_eq in E0; auto|].
  destruct (String.eqb mode "1") eqn:E1; [apply String.eqb_eq in E1; auto|].
  discriminate.
Qed.

(** The body of the loop of [classify_exif] for a file without metadata. *)
Lemma classify_exif_file_skip (s : state FS) (file : string) :
  dict_mem (fst (splitext file)) (exif_dic (self s)) = false ->
  classify_exif_file file s = (Ok Next, s).
Proof.
  intros Hmem. unfold classify_exif_file. run_step. now rewrite Hmem.
Qed.

(** The body of the loop of [classify_exif] in modes ["0"] and ["1"]. *)
Lemma classify_exif_file_cases (s : state FS) (file seg : string)
    (info : FileInfo) (e : FileExif) :
  dict_get (fst (splitext file)) (exif_dic (self s)) = Some e ->
  dict_get file (file_info (self s)) = Some info ->
  exif_segment (exif_classify_mode (self s)) e = Some seg ->
  let dst_folder := join (dirname (Path info)) seg in
  let dst_path := join dst_folder file in
  classify_exif_file file s =
    match os_makedirs dst_folder (disk s) with
    | Raise x => (Raise x, mkState (self s) (disk s) (log s ++ [Makedirs dst_folder]))
    | Ok d1 =>
        let l1 := ((log s ++ [Makedirs dst_folder]) ++ [Move (Path info) dst_path])%list in
        match shutil_move (Path info) dst_path d1 with
        | Ok d2 =>
            (Ok Next,
             mkState
               (with_file_info
                  (dict_set file (with_Folder dst_folder (with_Path dst_path info))
                     (file_info (self s)))
                  (self s))
               d2
               (l1 ++ [Printed (TryMove file (Path info) dst_path)]))
        | Raise FileExistsError => (Raise NameError, mkState (self s) d1 l1)
        | Raise PermissionError =>
            (Ok Next, mkState (self s) d1 (l1 ++ [Printed NoPermission]))
        | Raise FileNotFoundError =>
            (Ok Next, mkState (self s) d1 (l1 ++ [Printed (SourceMissing file)]))
        | Raise x => (Raise x, mkState (self s) d1 l1)
        end
    end.
Proof.
  intros He Hget Hseg. unfold classify_exif_file, dict_mem, file_info_at,
    exif_dispatch, exif_dic_at, makedirs, move, set_Path, set_Folder,
    set_file_info, file_info_at, load_name, classify_exif_locals.
  run_step. rewrite He, Hget. simpl.
  unfold exif_segment in Hseg.
  destruct (String.eqb (exif_classify_mode (self s)) "0") eqn:E0.
  - injection Hseg as <-. simpl. rewrite He. simpl.
    destruct (os_makedirs _ (disk s)) as [d1|x]; simpl; auto.
    destruct (shutil_move _ _ d1) as [d2|x]; simpl.
    + rewrite Hget. simpl. rewrite dict_get_set_same. simpl.
      unfold with_file_info. simpl. now rewrite dict_set_set_same.
    + destruct x; reflexivity.
  - destruct (String.eqb (exif_classify_mode (self s)) "1") eqn:E1; [|discriminate].
    injection Hseg as <-. simpl. rewrite He. simpl.
    destruct (os_makedirs _ (disk s)) as [d1|x]; simpl; auto.
    destruct (shutil_move _ _ d1) as [d2|x]; simpl.
    + rewrite Hget. simpl. rewrite dict_get_set_same. simpl.
      unfold with_file_info. simpl. now rewrite dict_set_set_same.
    + destruct x; reflexivity.
Qed.

(** The body of the loop of [classify_exif] in any other non-empty mode. *)
Lemma classify_exif_file_unsupported (s : state FS) (file : string) :
  dict_mem (fst (splitext file)) (exif_dic (self s)) = true ->
  In file (dict_keys (file_info (self s))) ->
  let mode := exif_classify_mode (self s) in
  mode <> "0" -> mode <> "1" -> mode <> "" ->
  classify_exif_file file s =
    (Raise RuntimeError,
     mkState (self s) (disk s) (log s ++ [Printed (UnsupportedMode mode)])).
Proof.
  intros Hmem Hin mode H0 H1 He.
  apply dict_get_in_keys in Hin. destruct Hin as [info Hget].
  unfold classify_exif_file, file_info_at, exif_dispatch. run_step.
  rewrite Hmem, Hget. simpl. fold mode.
  apply String.eqb_neq in H0, H1, He. now rewrite H0, H1, He.
Qed.

End Steps.

(** ** Loops *)

Section Loops.
Context {FS : Type} `{FileSystem FS}.
Import PyStr OsPath.

Lemma for_in_app {A : Type} (xs ys : list A) (body : A -> M FS flow) (s : state FS) :
  for_in (xs ++ ys) body s =
    match for_in xs body s with
    | (Ok Next, s') => for_in ys body s'
    | r => r
    end.
Proof.
  revert s. induction xs as [|x xs IH]; intros s; simpl; auto.
  unfold bind. destruct (body x s) as [[[|]|e] s']; auto.
Qed.

(** A loop whose every step keeps [I] and goes on keeps [I] and ends
    normally, unless a step raises. *)
Lemma for_in_invariant {A : Type} (I : state FS -> Prop) (xs : list A)
    (body : A -> M FS flow) :
  (forall x s, In x xs -> I s ->
     match body x s with
     | (Ok c, s') => c = Next /\ I s'
     | (Raise _, _) => True
     end) ->
  forall s, I s ->
    match for_in xs body s with
    | (Ok c, s') => c = Next /\ I s'
    | (Raise _, _) => True
    end.
Proof.
  induction xs as [|x xs IH]; intros Hbody s HI; simpl.
  - auto.
  - unfold bind. pose proof (Hbody x s (or_introl eq_refl) HI) as Hx.
    destruct (body x s) as [[c|e] s']; auto.
    destruct Hx as [-> HI']. apply IH; auto.
    intros y s0 Hy. apply Hbody. now right.
Qed.

(** A property of the state that every step keeps, however the step
    ends, holds after the loop, however the loop ends. *)
Lemma for_in_preserves {A : Type} (I : state FS -> Prop) (xs : list A)
    (body : A -> M FS flow) :
  (forall x s, In x xs -> I s -> I (snd (body x s))) ->
  forall s, I s -> I (snd (for_in xs body s)).
Proof.
  induction xs as [|x xs IH]; intros Hbody s HI; simpl; auto.
  unfold bind. pose proof (Hbody x s (or_introl eq_refl) HI) as Hx.
  destruct (body x s) as [[[|]|e] s']; simpl in *; auto.
Qed.

Lemma truthy_nonempty (x : string) : x <> "" -> truthy x = true.
Proof. now destruct x. Qed.

(** [classify_exif] once the mode is known to be set. *)
Lemma classify_exif_unfold (s : state FS) :
  truthy (exif_classify_mode (self s)) = true ->
  classify_exif s =
    match for_in (dict_keys (file_info (self s))) classify_exif_file
            (mkState (self s) (disk s)
               (log s ++ [Printed (SelectMode (exif_classify_mode (self s)))])) with
    | (Ok _, s') => (Ok tt, s')
    | (Raise e, s') => (Raise e, s')
    end.
Proof.
  intros Hm. unfold classify_exif, bind, gets, print, emit, ret.
  now rewrite Hm.
Qed.

Lemma classify_exif_disabled (s : state FS) :
  exif_classify_mode (self s) = "" -> classify_exif s = (Ok tt, s).
Proof.
  intros Hm. unfold classify_exif, bind, gets, ret. now rewrite Hm.
Qed.

Lemma classify_expand_name_unfold (s : state FS) :
  classify_expand_name s =
    match for_in (dict_keys (file_info (self s))) classify_expand_name_file s with
    | (Ok _, s') => (Ok tt, s')
    | (Raise e, s') => (Raise e, s')
    end.
Proof. reflexivity. Qed.

(** An exception of [classify_exif] ends the run: the extension pass
    does not start and the closing line is not printed. *)
Lemma after_scan_raise (s s' : state FS) (e : exception) :
  classify_exif s = (Raise e, s') -> after_scan s = (Raise e, s').
Proof. intros Hr. unfold after_scan, bind. now rewrite Hr. Qed.

(** [main] is the scan followed by [after_scan]. *)
Lemma run_after_scan (config : Config) (d : FS) :
  run config d =
    match (get_file_info ;; get_exif_metadata)
            (mkState {| target_path := config_target_path config; exif_dic := [];
                        file_info := [];
                        exif_classify_mode := config_exif_mode config;
                        is_ext_classify := config_classify_by_ext config |} d []) with
    | (Ok _, s) => after_scan s
    | (Raise e, s) => (Raise e, s)
    end.
Proof.
  unfold run, main, after_scan, bind, modify. simpl.
  destruct (get_file_info _) as [[[]|e] s1]; auto.
Qed.


End Loops.

(** ** Unsupported modes *)

Section UnsupportedMode.
Context {FS : Type} `{FileSystem FS}.
Import PyStr OsPath.


End UnsupportedMode.

(** ** The handler of [FileExistsError] in [classify_exif] *)

Section AlreadyExistsHandler.
Context {FS : Type} `{FileSystem FS}.
Import PyStr OsPath.

(** C10.  No branch of [classify_exif] binds [camera_model_folder] (the
    branches bind [camera_model] or [capture_date]) and the module has no
    global of that name; so when the move of a file raises
    [FileExistsError], the handler raises [NameError] and [classify_exif]
    stops there: the already-exists line is not printed and the files
    after it are not processed. *)
Theorem classify_exif_FileExistsError_raises_NameError
    (s s1 : state FS) (done rest : list string) (file seg : string)
    (info : FileInfo) (e : FileExif) (d1 : FS) :
  exif_classify_mode (self s) <> "" ->
  dict_keys (file_info (self s)) = done ++ file :: rest ->
  for_in done classify_exif_file
    (mkState (self s) (disk s)
       (log s ++ [Printed (SelectMode (exif_classify_mode (self s)))])) = (Ok Next, s1) ->
  dict_get (fst (splitext file)) (exif_dic (self s1)) = Some e ->
  dict_get file (file_info (self s1)) = Some info ->
  exif_segment (exif_classify_mode (self s1)) e = Some seg ->
  let dst_folder := join (dirname (Path info)) seg in
  let dst_path := join dst_folder file in
  os_makedirs dst_folder (disk s1) = Ok d1 ->
  shutil_move (Path info) dst_path d1 = Raise FileExistsError ->
  (forall name value,
      name = "camera_model" \/ name = "capture_date" ->
      dict_get "camera_model_folder"
        (classify_exif_locals file (fst (splitext file)) (Path info)
           (dirname (Path info)) (name, value) dst_folder dst_path) = None)
  /\ existsb (String.eqb "camera_model_folder") module_globals = false
  /\ classify_exif s =
       (Raise NameError,
        mkState (self s1) d1
          (log s1 ++ [Makedirs dst_folder; Move (Path info) dst_path]))
  /\ after_scan s =
       (Raise NameError,
        mkState (self s1) d1
          (log s1 ++ [Makedirs dst_folder; Move (Path info) dst_path])).
Proof.
  intros Hmode Hkeys Hdone He Hget Hseg dst_folder dst_path Hmk Hmv.
  assert (Hr : classify_exif s =
                (Raise NameError,
                 mkState (self s1) d1
                   (log s1 ++ [Makedirs dst_folder; Move (Path info) dst_path]))).
  { rewrite classify_exif_unfold by now apply truthy_nonempty.
    rewrite Hkeys, for_in_app, Hdone. simpl. unfold bind.
    rewrite (classify_exif_file_cases s1 file seg info e He Hget Hseg).
    fold dst_folder. fold dst_path. rewrite Hmk. cbv zeta. rewrite Hmv.
    now rewrite <- app_assoc. }
  split; [|split; [|split]].
  - intros name value [-> | ->]; reflexivity.
  - reflexivity.
  - exact Hr.
  - now apply after_scan_raise.
Qed.

End AlreadyExistsHandler.

(** The theorem applies: on a filesystem whose move refuses an occupied
    destination, the second [x.jpg] of [Scenario.collision] meets the first. *)
Lemma classify_exif_FileExistsError_witness :
  after_scan (H := TreeFS.strict)
    (scanned (H := TreeFS.strict) (mkConfig "/r" true "0") Scenario.collision)
  = (Raise NameError,
     mkState
       (self (scanned (H := TreeFS.strict) (mkConfig "/r" true "0") Scenario.collision))
       Scenario.collision
       [Open "/r/B/x.jpg"; Printed (SelectMode "0"); Makedirs "/r";
        Move "/r/B/x.jpg" "/r/x.jpg"]).
Proof.
  refine (proj2 (proj2 (proj2
    (classify_exif_FileExistsError_raises_NameError (H := TreeFS.strict)
       (scanned (H := TreeFS.strict) (mkConfig "/r" true "0") Scenario.collision)
       (mkState
          (self (scanned (H := TreeFS.strict) (mkConfig "/r" true "0") Scenario.collision))
          Scenario.collision [Open "/r/B/x.jpg"; Printed (SelectMode "0")])
       [] [] "x.jpg" "/r"
       {| Name := "x"; ext := "jpg"; Path := "/r/B/x.jpg"; Folder := "/r/B" |}
       {| Type_ := "jpg"; Date := "2024-06-02"; Time_ := "11:00:00";
          CameraModel := "/r"; ISO := "ISO100"; Shutter := "1/250s";
          Aperture := "f2.8" |}
       Scenario.collision _ _ _ _ _ _ _ _)))); vm_compute; try reflexivity.
  discriminate.
Defined.

(** ** Facts about [os.path] *)

Section PathFacts.
Import PyStr OsPath.

Lemma rfind_from_absent (c : ascii) (s : string) (i : Z) :
  contains c s = false -> rfind_from c s i = (-1)%Z.
Proof.
  revert i. induction s as [|x r IH]; simpl; intros i Hc; auto.
  apply orb_false_iff in Hc. destruct Hc as [Hx Hr].
  now rewrite IH, Hx.
Qed.

Lemma rfind_from_last (c : ascii) (a k : string) (i : Z) :
  (0 <= i)%Z -> contains c k = false ->
  rfind_from c (a ++ String c k) i = (i + Z.of_nat (String.length a))%Z.
Proof.
  revert i. induction a as [|x a IH]; intros i Hi Hk.
  - simpl. rewrite rfind_from_absent by auto. simpl.
    rewrite Ascii.eqb_refl. lia.
  - simpl String.append. cbn [rfind_from]. rewrite IH by (auto; lia).
    replace (0 <=? i + 1 + Z.of_nat (String.length a))%Z with true
      by (symmetry; apply Z.leb_le; lia).
    cbn [String.length]. lia.
Qed.

Lemma substring_prefix (a b : string) :
  substring 0 (String.length a) (a ++ b) = a.
Proof.
  induction a as [|x a IH]; simpl.
  - now destruct b.
  - now rewrite IH.
Qed.

Lemma length_append (a b : string) :
  String.length (a ++ b) = String.length a + String.length b.
Proof. induction a; simpl; auto. Qed.

Lemma append_assoc (a b c : string) : ((a ++ b) ++ c)%string = (a ++ (b ++ c))%string.
Proof. induction a; simpl; congruence. Qed.

Lemma endswith_append_one (c : ascii) (a : string) :
  endswith c (a ++ String c "") = true.
Proof.
  induction a as [|x a IH]; simpl.
  - apply Ascii.eqb_refl.
  - destruct (a ++ String c "")%string eqn:E; auto.
    destruct a; discriminate.
Qed.

Lemma rstrip_append_one (c : ascii) (a : string) :
  endswith c a = false -> rstrip c (a ++ String c "") = a.
Proof.
  induction a as [|x a IH]; intros He.
  - simpl. now rewrite Ascii.eqb_refl.
  - simpl String.append. cbn [rstrip].
    destruct a as [|y a].
    + simpl in *. rewrite Ascii.eqb_refl. now rewrite He.
    + rewrite IH by exact He. reflexivity.
Qed.

Lemma all_char_not_endswith (c : ascii) (a b : string) :
  a <> "" -> endswith c a = false -> all_char c (a ++ b) = false.
Proof.
  induction a as [|x a IH]; intros Hne He; [congruence|].
  simpl. destruct a as [|y a].
  - simpl in He. now rewrite He.
  - rewrite IH; [apply andb_false_r | discriminate | exact He].
Qed.

Lemma contains_startswith (c : ascii) (k : string) :
  contains c k = false -> startswith c k = false.
Proof.
  destruct k; simpl; auto. intros Hc. now apply orb_false_iff in Hc.
Qed.

(** The folder of a file joined to a folder is that folder. *)
Lemma dirname_join (folder file : string) :
  contains sep file = false -> endswith sep folder = false ->
  dirname (join folder file) = folder.
Proof.
  intros Hk Hf. unfold join. rewrite contains_startswith by auto.
  destruct folder as [|x folder].
  - simpl. unfold dirname, rfind. rewrite rfind_from_absent by auto.
    simpl. now destruct file.
  - cbn [truthy negb orb]. rewrite Hf.
    set (a := String x folder) in *.
    unfold dirname, rfind. rewrite rfind_from_last by (auto; lia).
    unfold slice_to.
    replace (Z.to_nat (0 + Z.of_nat (String.length a) + 1))
      with (String.length (a ++ String sep "")%string)
      by (rewrite length_append; simpl; lia).
    replace (a ++ String sep file)%string
      with ((a ++ String sep "") ++ file)%string
      by (now rewrite append_assoc).
    rewrite substring_prefix.
    rewrite all_char_not_endswith by (auto; discriminate).
    replace (truthy (a ++ String sep "")) with true by reflexivity.
    cbn [andb negb]. now apply rstrip_append_one.
Qed.

Lemma contains_append (c : ascii) (a b : string) :
  contains c (a ++ b) = contains c a || contains c b.
Proof.
  induction a as [|x a IH]; simpl; auto. now rewrite IH, orb_assoc.
Qed.

Lemma split_last_absent (c : ascii) (k : string) :
  contains c k = false -> split_last c k = k.
Proof.
  destruct k as [|x k]; simpl; auto. intros Hc.
  apply orb_false_iff in Hc. destruct Hc as [Hx Hk]. now rewrite Hk, Hx.
Qed.

Lemma split_last_append (c : ascii) (a k : string) :
  contains c k = false -> split_last c (a ++ String c k) = k.
Proof.
  intros Hk. induction a as [|x a IH]; simpl.
  - now rewrite Hk, Ascii.eqb_refl.
  - rewrite contains_append. simpl. rewrite Ascii.eqb_refl.
    now rewrite orb_true_r.
Qed.

Lemma endswith_split (c : ascii) (a : string) :
  endswith c a = true -> exists a', a = (a' ++ String c "")%string.
Proof.
  induction a as [|x a IH]; simpl; [discriminate|].
  destruct a as [|y a].
  - intros He. apply Ascii.eqb_eq in He. subst. now exists ""%string.
  - intros He. destruct (IH He) as [a' Ha']. exists (String x a').
    simpl. now rewrite <- Ha'.
Qed.

(** The last component of a joined path is the file name. *)
Lemma split_last_join (folder file : string) :
  contains sep file = false -> split_last sep (join folder file) = file.
Proof.
  intros Hk. unfold join. rewrite contains_startswith by auto.
  destruct folder as [|x folder].
  - simpl. now apply split_last_absent.
  - cbn [truthy negb orb].
    destruct (endswith sep (String x folder)) eqn:He.
    + apply endswith_split in He. destruct He as [a' ->].
      rewrite append_assoc. simpl. now apply split_last_append.
    + now apply split_last_append.
Qed.

Lemma join_file_inj (x y file file' : string) :
  contains sep file = false -> contains sep file' = false ->
  join x file = join y file' -> file = file'.
Proof.
  intros Hf Hf' Heq. apply (f_equal (split_last sep)) in Heq.
  now rewrite !split_last_join in Heq.
Qed.

End PathFacts.

(** ** What a pass does to the record of one file *)

Section Records.
Context {FS : Type} `{FileSystem FS}.
Import PyStr OsPath.

Lemma frame_refl (x : string) (s : state FS) : frame x s s.
Proof.
  repeat split; auto. exists []. now rewrite app_nil_r.
Qed.

Lemma frame_log (x : string) (s : state FS) (d : FS) (l : list event) :
  frame x s (mkState (self s) d (log s ++ l)).
Proof. repeat split; auto. now exists l. Qed.

Lemma frame_set (x : string) (s : state FS) (d : FS) (l : list event)
    (info : FileInfo) :
  dict_get x (file_info (self s)) <> None ->
  frame x s
    (mkState (with_file_info (dict_set x info (file_info (self s))) (self s))
       d (log s ++ l)).
Proof.
  intros Hx. repeat split; simpl; auto.
  - now exists l.
  - intros k Hk. apply dict_get_set_other. congruence.
  - now apply dict_keys_set_present.
Qed.

Lemma classify_expand_name_file_missing (s : state FS) (file : string) :
  dict_get file (file_info (self s)) = None ->
  classify_expand_name_file file s = (Raise KeyError, s).
Proof.
  intros Hget. unfold classify_expand_name_file, file_info_at, bind, gets, raise.
  now rewrite Hget.
Qed.

Lemma classify_exif_file_missing (s : state FS) (file : string) :
  dict_mem (fst (splitext file)) (exif_dic (self s)) = true ->
  dict_get file (file_info (self s)) = None ->
  classify_exif_file file s = (Raise KeyError, s).
Proof.
  intros Hmem Hget.
  unfold classify_exif_file, file_info_at, bind, gets, raise.
  now rewrite Hmem, Hget.
Qed.

Lemma classify_expand_name_file_frame (x : string) (s : state FS) :
  match classify_expand_name_file x s with
  | (Ok c, s') => c = Next /\ frame x s s'
  | (Raise _, _) => True
  end.
Proof.
  destruct (dict_get x (file_info (self s))) as [info|] eqn:Hget.
  - rewrite (classify_expand_name_file_cases s x info Hget). cbv zeta.
    destruct (os_makedirs _ (disk s)) as [d1|e]; auto.
    destruct (shutil_move _ _ d1) as [d2|e]; split; auto;
      rewrite <- !app_assoc.
    + apply frame_set. congruence.
    + apply frame_log.
  - now rewrite classify_expand_name_file_missing.
Qed.

Lemma exif_segment_some (mode : string) (e : FileExif) :
  mode = "0" \/ mode = "1" -> exists seg, exif_segment mode e = Some seg.
Proof. intros [-> | ->]; eexists; reflexivity. Qed.

Lemma classify_exif_file_frame (x : string) (s : state FS) :
  exif_classify_mode (self s) = "0" \/ exif_classify_mode (self s) = "1" ->
  match classify_exif_file x s with
  | (Ok c, s') => c = Next /\ frame x s s'
  | (Raise _, _) => True
  end.
Proof.
  intros Hmode.
  destruct (dict_get (fst (splitext x)) (exif_dic (self s))) as [e|] eqn:He.
  - destruct (dict_get x (file_info (self s))) as [info|] eqn:Hget.
    + destruct (exif_segment_some _ e Hmode) as [seg Hseg].
      rewrite (classify_exif_file_cases s x seg info e He Hget Hseg). cbv zeta.
      destruct (os_makedirs _ (disk s)) as [d1|e1]; auto.
      destruct (shutil_move _ _ d1) as [d2|[]]; auto; split; auto;
        rewrite <- !app_assoc.
      * apply frame_set. congruence.
      * apply frame_log.
      * apply frame_log.
    + rewrite classify_exif_file_missing; auto.
      unfold dict_mem. now rewrite He.
  - rewrite classify_exif_file_skip.
    + split; auto. apply frame_refl.
    + unfold dict_mem. now rewrite He.
Qed.

(** A loop over distinct keys, seen from one of them: the steps on the
    other keys keep what is known before the step on [file], and what is
    known after it. *)
Lemma for_in_at_key (body : string -> M FS flow) (file : string)
    (Before After : state FS -> Prop) (xs : list string) :
  NoDup xs -> In file xs ->
  (forall x s, x <> file -> Before s ->
     match body x s with
     | (Ok c, s') => c = Next /\ Before s'
     | (Raise _, _) => True
     end) ->
  (forall s, Before s ->
     match body file s with
     | (Ok c, s') => c = Next /\ After s'
     | (Raise _, _) => True
     end) ->
  (forall x s, x <> file -> After s ->
     match body x s with
     | (Ok c, s') => c = Next /\ After s'
     | (Raise _, _) => True
     end) ->
  forall s, Before s ->
    match for_in xs body s with
    | (Ok c, s') => c = Next /\ After s'
    | (Raise _, _) => True
    end.
Proof.
  intros Hnd Hin Hb Hstep Ha s Hs.
  apply in_split in Hin. destruct Hin as [done [rest ->]].
  apply NoDup_remove_2 in Hnd.
  assert (Hdone : forall x, In x done -> x <> file).
  { intros x Hx ->. apply Hnd. apply in_or_app. now left. }
  assert (Hrest : forall x, In x rest -> x <> file).
  { intros x Hx ->. apply Hnd. apply in_or_app. now right. }
  rewrite for_in_app.
  pose proof (for_in_invariant Before done body
                (fun x s0 Hx => Hb x s0 (Hdone x Hx)) s Hs) as H1.
  destruct (for_in done body s) as [[c|e] s1]; auto.
  destruct H1 as [-> H1]. simpl. unfold bind.
  pose proof (Hstep s1 H1) as H2.
  destruct (body file s1) as [[c|e] s2]; auto.
  destruct H2 as [-> H2].
  apply (for_in_invariant After rest body
           (fun x s0 Hx => Ha x s0 (Hrest x Hx)) s2 H2).
Qed.

End Records.

Section Passes.
Context {FS : Type} `{FileSystem FS}.
Import PyStr OsPath.

Lemma extends_refl (s : state FS) : extends s s.
Proof. repeat split; auto. exists []. now rewrite app_nil_r. Qed.

Lemma extends_frame (x : string) (s s1 s2 : state FS) :
  extends s s1 -> frame x s1 s2 -> extends s s2.
Proof.
  intros [[l Hl] [He [Hm Hk]]] [[l' Hl'] [_ [He' [Hm' Hk']]]].
  repeat split; try congruence.
  exists (l ++ l'). now rewrite Hl', Hl, app_assoc.
Qed.

Lemma extends_log_only (s : state FS) (d : FS) (l : list event) :
  extends s (mkState (self s) d (log s ++ l)).
Proof. repeat split; auto. now exists l. Qed.

Lemma extends_trans (s s1 s2 : state FS) :
  extends s s1 -> extends s1 s2 -> extends s s2.
Proof.
  intros [[l Hl] [He [Hm Hk]]] [[l' Hl'] [He' [Hm' Hk']]].
  repeat split; try congruence.
  exists (l ++ l'). now rewrite Hl', Hl, app_assoc.
Qed.

Lemma frame_event (x : string) (s s' : state FS) (ev : event) :
  frame x s s' -> In ev (log s) -> In ev (log s').
Proof.
  intros [[l Hl] _] Hin. rewrite Hl. apply in_or_app. now left.
Qed.

Lemma extends_event (s s' : state FS) (ev : event) :
  extends s s' -> In ev (log s) -> In ev (log s').
Proof.
  intros [[l Hl] _] Hin. rewrite Hl. apply in_or_app. now left.
Qed.

Lemma frame_record (x k : string) (s s' : state FS) (info : FileInfo) :
  frame x s s' -> k <> x ->
  dict_get k (file_info (self s)) = Some info ->
  dict_get k (file_info (self s')) = Some info.
Proof. intros [_ [Hr _]] Hk Hget. now rewrite Hr. Qed.

(** The extension pass and the record of one file: the file is sent to
    [Folder/ext/file], and the record follows it, unless the move fails
    and the failure is printed. *)
Lemma classify_expand_name_record (s s' : state FS) (file : string) (info : FileInfo) :
  NoDup (dict_keys (file_info (self s))) ->
  dict_get file (file_info (self s)) = Some info ->
  classify_expand_name s = (Ok tt, s') ->
  let file_new_path := join (join (Folder info) (ext info)) file in
  ((dict_get file (file_info (self s')) = Some (with_Path file_new_path info)
    /\ In (Move (Path info) file_new_path) (log s'))
   \/ (dict_get file (file_info (self s')) = Some info
       /\ exists e, In (Printed (FailedMove file e)) (log s')))
  /\ extends s s'.
Proof.
  intros Hnd Hget Hrun file_new_path.
  set (After := fun s0 : state FS =>
    ((dict_get file (file_info (self s0)) = Some (with_Path file_new_path info)
      /\ In (Move (Path info) file_new_path) (log s0))
     \/ (dict_get file (file_info (self s0)) = Some info
         /\ exists e, In (Printed (FailedMove file e)) (log s0)))
    /\ extends s s0).
  set (Before := fun s0 : state FS =>
    dict_get file (file_info (self s0)) = Some info /\ extends s s0).
  rewrite classify_expand_name_unfold in Hrun.
  pose proof (for_in_at_key classify_expand_name_file file Before After
                (dict_keys (file_info (self s))) Hnd
                (dict_get_some_in_keys _ _ _ Hget)) as Hloop.
  assert (HB : Before s) by (split; [auto | apply extends_refl]).
  specialize (fun a b c => Hloop a b c s HB).
  destruct (for_in _ classify_expand_name_file s) as [[c|e] s1];
    [|discriminate].
  injection Hrun as <-. apply Hloop; clear Hloop.
  - intros x s0 Hx [Hg He].
    pose proof (classify_expand_name_file_frame x s0) as Hf.
    destruct (classify_expand_name_file x s0) as [[c0|e0] s2]; auto.
    destruct Hf as [-> Hf]. split; auto. split.
    + eapply frame_record; eauto.
    + eapply extends_frame; eauto.
  - intros s0 [Hg He].
    rewrite (classify_expand_name_file_cases s0 file info Hg). cbv zeta.
    fold file_new_path.
    destruct (os_makedirs _ (disk s0)) as [d1|e1]; auto.
    destruct (shutil_move _ _ d1) as [d2|e2]; split; auto; split.
    + left. simpl. rewrite dict_get_set_same. split; auto.
      apply in_or_app. left. apply in_or_app. right. now left.
    + eapply extends_frame; [exact He|]. rewrite <- !app_assoc.
      apply frame_set with (x := file). congruence.
    + right. simpl. split; auto. exists e2.
      apply in_or_app. right. now left.
    + eapply extends_trans; [exact He|]. rewrite <- !app_assoc.
      apply extends_log_only.
  - intros x s0 Hx [Hcase He].
    pose proof (classify_expand_name_file_frame x s0) as Hf.
    destruct (classify_expand_name_file x s0) as [[c0|e0] s2]; auto.
    destruct Hf as [-> Hf]. split; auto. split.
    + destruct Hcase as [[Hg Hm]|[Hg [e Hm]]]; [left|right]; split.
      * eapply frame_record; eauto.
      * eapply frame_event; eauto.
      * eapply frame_record; eauto.
      * exists e. eapply frame_event; eauto.
    + eapply extends_frame; eauto.
Qed.

(** The EXIF pass and the record of one file that has metadata: the file
    is sent to [dirname(Path)/segment/file] and the record follows it,
    unless the move fails for want of permission or of the source. *)
Lemma classify_exif_record (s s' : state FS) (file seg : string)
    (info : FileInfo) (e : FileExif) :
  NoDup (dict_keys (file_info (self s))) ->
  dict_get file (file_info (self s)) = Some info ->
  dict_get (fst (splitext file)) (exif_dic (self s)) = Some e ->
  exif_segment (exif_classify_mode (self s)) e = Some seg ->
  classify_exif s = (Ok tt, s') ->
  let dst_folder := join (dirname (Path info)) seg in
  let dst_path := join dst_folder file in
  ((dict_get file (file_info (self s'))
      = Some (with_Folder dst_folder (with_Path dst_path info))
    /\ In (Move (Path info) dst_path) (log s'))
   \/ (dict_get file (file_info (self s')) = Some info
       /\ (In (Printed NoPermission) (log s')
           \/ In (Printed (SourceMissing file)) (log s'))))
  /\ extends s s'.
Proof.
  intros Hnd Hget Hex Hseg Hrun dst_folder dst_path.
  pose proof (exif_segment_mode _ _ _ Hseg) as Hmode.
  set (After := fun s0 : state FS =>
    ((dict_get file (file_info (self s0))
        = Some (with_Folder dst_folder (with_Path dst_path info))
      /\ In (Move (Path info) dst_path) (log s0))
     \/ (dict_get file (file_info (self s0)) = Some info
         /\ (In (Printed NoPermission) (log s0)
             \/ In (Printed (SourceMissing file)) (log s0))))
    /\ extends s s0).
  set (Before := fun s0 : state FS =>
    dict_get file (file_info (self s0)) = Some info /\ extends s s0).
  assert (Hm : forall s0, extends s s0 ->
            exif_classify_mode (self s0) = "0" \/ exif_classify_mode (self s0) = "1").
  { intros s0 [_ [_ [Hm _]]]. now rewrite Hm. }
  rewrite classify_exif_unfold in Hrun
    by (destruct Hmode as [-> | ->]; reflexivity).
  set (s0 := mkState (self s) (disk s)
               (log s ++ [Printed (SelectMode (exif_classify_mode (self s)))])) in *.
  assert (H0 : extends s s0) by apply extends_log_only.
  pose proof (for_in_at_key classify_exif_file file Before After
                (dict_keys (file_info (self s))) Hnd
                (dict_get_some_in_keys _ _ _ Hget)) as Hloop.
  assert (HB : Before s0) by (split; auto).
  specialize (fun a b c => Hloop a b c s0 HB).
  destruct (for_in _ classify_exif_file s0) as [[c|x] sf]; [|discriminate].
  injection Hrun as <-. apply Hloop; clear Hloop.
  - intros x s1 Hx [Hg He].
    pose proof (classify_exif_file_frame x s1 (Hm s1 He)) as Hf.
    destruct (classify_exif_file x s1) as [[c0|e0] s2]; auto.
    destruct Hf as [-> Hf]. split; auto. split.
    + eapply frame_record; eauto.
    + eapply extends_frame; eauto.
  - intros s1 [Hg He].
    assert (Hex1 : dict_get (fst (splitext file)) (exif_dic (self s1)) = Some e).
    { destruct He as [_ [He _]]. now rewrite He. }
    assert (Hseg1 : exif_segment (exif_classify_mode (self s1)) e = Some seg).
    { destruct He as [_ [_ [He _]]]. now rewrite He. }
    rewrite (classify_exif_file_cases s1 file seg info e Hex1 Hg Hseg1). cbv zeta.
    fold dst_folder. fold dst_path.
    destruct (os_makedirs _ (disk s1)) as [d1|e1]; auto.
    destruct (shutil_move _ _ d1) as [d2|[]]; auto; split; auto; split.
    + left. simpl. rewrite dict_get_set_same. split; auto.
      apply in_or_app. left. apply in_or_app. right. now left.
    + eapply extends_frame; [exact He|]. rewrite <- !app_assoc.
      apply frame_set with (x := file). congruence.
    + right. simpl. split; auto. left. apply in_or_app. right. now left.
    + eapply extends_trans; [exact He|]. rewrite <- !app_assoc.
      apply extends_log_only.
    + right. simpl. split; auto. right. apply in_or_app. right. now left.
    + eapply extends_trans; [exact He|]. rewrite <- !app_assoc.
      apply extends_log_only.
  - intros x s1 Hx [Hcase He].
    pose proof (classify_exif_file_frame x s1 (Hm s1 He)) as Hf.
    destruct (classify_exif_file x s1) as [[c0|e0] s2]; auto.
    destruct Hf as [-> Hf]. split; auto. split.
    + destruct Hcase as [[Hg Hmv]|[Hg Hmsg]]; [left|right]; split.
      * eapply frame_record; eauto.
      * eapply frame_event; eauto.
      * eapply frame_record; eauto.
      * destruct Hmsg; [left|right]; eapply frame_event; eauto.
    + eapply extends_frame; eauto.
Qed.

End Passes.

(** ** EXIF first, extension inside *)

Section Priority.
Context {FS : Type} `{FileSystem FS}.
Import PyStr OsPath.

Lemma bind_ok {A B : Type} (m : M FS A) (f : A -> M FS B) (s s' : state FS) (b : B) :
  bind m f s = (Ok b, s') ->
  exists a s1, m s = (Ok a, s1) /\ f a s1 = (Ok b, s').
Proof.
  unfold bind. destruct (m s) as [[a|e] s1]; [eauto | discriminate].
Qed.

(** On any filesystem, in the catalog and in the requests: a file that
    has metadata, in mode ["0"] or ["1"], when no move is reported as
    failed, is recorded at [Folder/segment/ext/file]; the EXIF pass asks
    for its move from [Folder] to [Folder/segment] first, and the
    extension pass then asks for its move from there to
    [Folder/segment/ext]. *)
Lemma exif_segment_outermost (s s' : state FS) (file seg : string)
    (info : FileInfo) (e : FileExif) :
  NoDup (dict_keys (file_info (self s))) ->
  dict_get file (file_info (self s)) = Some info ->
  dict_get (fst (splitext file)) (exif_dic (self s)) = Some e ->
  exif_segment (exif_classify_mode (self s)) e = Some seg ->
  Path info = join (Folder info) file ->
  contains sep file = false ->
  endswith sep (Folder info) = false ->
  both_passes s = (Ok tt, s') ->
  (forall ev, In ev (log s') -> is_failure ev = false) ->
  let exif_folder := join (Folder info) seg in
  let final_path := join (join exif_folder (ext info)) file in
  dict_get file (file_info (self s'))
    = Some {| Name := Name info; ext := ext info;
              Path := final_path; Folder := exif_folder |}
  /\ In (Move (Path info) (join exif_folder file)) (log s')
  /\ In (Move (join exif_folder file) final_path) (log s').
Proof.
  intros Hnd Hget Hex Hseg Hpath Hfile Hfolder Hrun Hok exif_folder final_path.
  apply bind_ok in Hrun. destruct Hrun as [[] [s1 [Hexif Hext]]].
  pose proof (classify_exif_record s s1 file seg info e Hnd Hget Hex Hseg Hexif) as H1.
  cbv zeta in H1. rewrite Hpath, dirname_join in H1 by auto.
  fold exif_folder in H1. rewrite <- Hpath in H1.
  destruct H1 as [H1 Hs1].
  assert (Hnd1 : NoDup (dict_keys (file_info (self s1)))).
  { destruct Hs1 as [_ [_ [_ Hk]]]. now rewrite Hk. }
  destruct H1 as [[Hg1 Hm1]|[Hg1 Hfail]].
  - pose proof (classify_expand_name_record s1 s' file _ Hnd1 Hg1 Hext) as H2.
    cbv zeta in H2. simpl in H2. fold final_path in H2.
    destruct H2 as [[[Hg2 Hm2]|[_ [x Hfail]]] Hs2].
    + split; [exact Hg2|]. split; auto.
      eapply extends_event; eauto.
    + apply Hok in Hfail. discriminate.
  - pose proof (classify_expand_name_record s1 s' file _ Hnd1 Hg1 Hext) as [_ Hs2].
    destruct Hfail as [Hfail|Hfail];
      apply (extends_event s1 s' _ Hs2), Hok in Hfail; discriminate.
Qed.

End Priority.

(** ** A second run *)

Section SecondRun.
Context {FS : Type} `{FileSystem FS}.
Import PyStr OsPath.

(** On any filesystem, in the catalog and in the requests: the
    extension pass plans [Folder/ext/file] for every cataloged file,
    wherever the file is; for a file that is already in [folder/ext] it
    asks for a move to [folder/ext/ext/file], and records that path
    unless the move is reported as failed. *)
Lemma classify_expand_name_nests_again (s s' : state FS) (file folder : string)
    (info : FileInfo) :
  NoDup (dict_keys (file_info (self s))) ->
  dict_get file (file_info (self s)) = Some info ->
  Folder info = join folder (ext info) ->
  classify_expand_name s = (Ok tt, s') ->
  (forall e, ~ In (Printed (FailedMove file e)) (log s')) ->
  let nested := join (join (join folder (ext info)) (ext info)) file in
  dict_get file (file_info (self s')) = Some (with_Path nested info)
  /\ In (Move (Path info) nested) (log s').
Proof.
  intros Hnd Hget Hfolder Hrun Hok nested.
  pose proof (classify_expand_name_record s s' file info Hnd Hget Hrun) as [H1 _].
  cbv zeta in H1. rewrite Hfolder in H1. fold nested in H1.
  destruct H1 as [H1|[_ [e Hfail]]]; auto.
  now apply Hok in Hfail.
Qed.

End SecondRun.

(** ** Files without extension *)

Section Extensionless.
Context {FS : Type} `{FileSystem FS}.
Import PyStr OsPath.

Lemma preserves_bind {A B : Type} (I : state FS -> Prop) (m : M FS A)
    (f : A -> M FS B) (s : state FS) :
  I (snd (m s)) -> (forall a s1, I s1 -> I (snd (f a s1))) ->
  I (snd (bind m f s)).
Proof.
  intros Hm Hf. unfold bind. destruct (m s) as [[a|e] s1]; simpl in *; auto.
Qed.

(** Closes [Forall event_ok l] for an explicit [l], from the context. *)
Ltac event_list :=
  repeat (apply Forall_cons; [simpl; eauto|]); apply Forall_nil.

Lemma catalog_inv_log (s : state FS) (d : FS) (l : list event) :
  catalog_inv s -> Forall event_ok l ->
  catalog_inv (mkState (self s) d (log s ++ l)).
Proof.
  intros [Hr Hl] Hnew. split; simpl; auto. apply Forall_app. now split.
Qed.

Lemma catalog_inv_set (s : state FS) (d : FS) (l : list event)
    (k : string) (info : FileInfo) :
  catalog_inv s -> Forall event_ok l ->
  cataloged_name k -> (exists x, Path info = join x k) ->
  catalog_inv
    (mkState (with_file_info (dict_set k info (file_info (self s))) (self s))
       d (log s ++ l)).
Proof.
  intros [Hr Hl] Hnew Hk Hp. split; simpl.
  - intros k' info' Hget. apply dict_get_set_inv in Hget.
    destruct Hget as [[-> ->]|[_ Hget]]; eauto.
  - apply Forall_app. now split.
Qed.

Lemma get_file_info_file_inv (root file : string) (s : state FS) :
  contains sep file = false -> catalog_inv s ->
  catalog_inv (snd (get_file_info_file root file s)).
Proof.
  intros Hf Hinv. unfold get_file_info_file.
  destruct (splitext file) as [file_name file_expand_name] eqn:Hsplit.
  destruct (truthy file_expand_name) eqn:Hext; simpl; auto.
  unfold bind, set_file_info, modify, ret. simpl.
  rewrite <- (app_nil_r (log s)). apply catalog_inv_set; auto.
  - split; auto. now rewrite Hsplit.
  - now exists root.
Qed.

Lemma get_file_info_inv (s : state FS) :
  (forall root dirs files file,
      In (root, dirs, files) (os_walk (target_path (self s)) (disk s)) ->
      In file files -> contains sep file = false) ->
  catalog_inv s -> catalog_inv (snd (get_file_info s)).
Proof.
  intros Hnames Hinv.
  replace (snd (get_file_info s))
    with (snd (for_in (os_walk (target_path (self s)) (disk s))
                 (fun '(root, dirs, files) =>
                    for_in files (get_file_info_file root)) s)).
  - apply for_in_preserves; auto.
    intros [[root dirs] files] s0 Hin H0.
    apply for_in_preserves; auto.
    intros file s2 Hfile. apply get_file_info_file_inv. eauto.
  - unfold get_file_info, bind, gets, fs_read, ret. simpl.
    now destruct (for_in _ _ s) as [[c|e] s1].
Qed.

Lemma catalog_inv_same (s s' : state FS) (l : list event) :
  catalog_inv s ->
  file_info (self s') = file_info (self s) ->
  log s' = log s ++ l -> Forall event_ok l ->
  catalog_inv s'.
Proof.
  intros [Hr Hl] Hfi Hlog Hnew. split.
  - now rewrite Hfi.
  - rewrite Hlog. apply Forall_app. now split.
Qed.

Lemma get_exif_metadata_file_inv (file : string) (s : state FS) :
  catalog_inv s -> catalog_inv (snd (get_exif_metadata_file file s)).
Proof.
  intros Hinv.
  unfold get_exif_metadata_file, file_info_at, printable, set_exif_dic,
    bind, gets, raise, ret, emit, fs_read, modify. simpl.
  destruct (dict_get file (file_info (self s))) as [info|]; simpl; auto.
  destruct (dict_mem (Name info) (exif_dic (self s))); simpl; auto.
  assert (Hopen : Forall event_ok [Open (Path info)])
    by (constructor; simpl; auto).
  assert (Hsame : forall i, file_info i = file_info (self s) ->
            catalog_inv (mkState i (disk s) (log s ++ [Open (Path info)]))).
  { intros i Hi. now apply (catalog_inv_same s _ [Open (Path info)]). }
  destruct (process_file (Path info) (disk s)) as [t|e]; simpl;
    [|now apply Hsame].
  repeat match goal with
         | |- context [dict_get ?k t] =>
             destruct (dict_get k t); simpl
         end;
    now apply Hsame.
Qed.

Lemma get_exif_metadata_inv (s : state FS) :
  catalog_inv s -> catalog_inv (snd (get_exif_metadata s)).
Proof.
  intros Hinv. unfold get_exif_metadata.
  apply preserves_bind; [exact Hinv|]. intros files s1 H1.
  apply preserves_bind; [|auto].
  apply for_in_preserves; auto.
  intros file s0 _. apply get_exif_metadata_file_inv.
Qed.

Lemma classify_expand_name_file_inv (file : string) (s : state FS) :
  catalog_inv s -> catalog_inv (snd (classify_expand_name_file file s)).
Proof.
  intros Hinv.
  destruct (dict_get file (file_info (self s))) as [info|] eqn:Hget.
  - destruct (proj1 Hinv file info Hget) as [Hk [x Hx]].
    rewrite (classify_expand_name_file_cases s file info Hget). cbv zeta.
    assert (Hmove : forall dst, event_ok (Move (Path info) dst))
      by (intros dst; simpl; eauto).
    destruct (os_makedirs _ (disk s)) as [d1|e]; simpl.
    + destruct (shutil_move _ _ d1) as [d2|e]; simpl; rewrite <- !app_assoc.
      * apply catalog_inv_set; auto; [event_list | eexists; reflexivity].
      * apply catalog_inv_log; auto. simpl. event_list.
    + apply catalog_inv_log; auto. event_list.
  - now rewrite classify_expand_name_file_missing.
Qed.

Lemma classify_expand_name_inv (s : state FS) :
  catalog_inv s -> catalog_inv (snd (classify_expand_name s)).
Proof.
  intros Hinv. unfold classify_expand_name.
  apply preserves_bind; [exact Hinv|]. intros files s1 H1.
  apply preserves_bind; [|auto].
  apply for_in_preserves; auto.
  intros file s0 _. apply classify_expand_name_file_inv.
Qed.

(** The body of the loop of [classify_exif] when the mode is empty. *)
Lemma classify_exif_file_disabled (s : state FS) (file : string) (info : FileInfo) :
  dict_mem (fst (splitext file)) (exif_dic (self s)) = true ->
  dict_get file (file_info (self s)) = Some info ->
  exif_classify_mode (self s) = "" ->
  classify_exif_file file s =
    (Ok Return, mkState (self s) (disk s) (log s ++ [Printed SkipExif])).
Proof.
  intros Hmem Hget Hmode.
  unfold classify_exif_file, file_info_at, exif_dispatch, bind, gets, ret,
    print, emit.
  rewrite Hmem, Hget. simpl. now rewrite Hmode.
Qed.

Lemma classify_exif_file_inv (file : string) (s : state FS) :
  catalog_inv s -> catalog_inv (snd (classify_exif_file file s)).
Proof.
  intros Hinv.
  destruct (dict_get (fst (splitext file)) (exif_dic (self s))) as [e|] eqn:He.
  2: { rewrite classify_exif_file_skip; auto. unfold dict_mem. now rewrite He. }
  assert (Hmem : dict_mem (fst (splitext file)) (exif_dic (self s)) = true)
    by (unfold dict_mem; now rewrite He).
  destruct (dict_get file (file_info (self s))) as [info|] eqn:Hget.
  2: { now rewrite classify_exif_file_missing. }
  destruct (proj1 Hinv file info Hget) as [Hk [x Hx]].
  destruct (exif_segment (exif_classify_mode (self s)) e) as [seg|] eqn:Hseg.
  - rewrite (classify_exif_file_cases s file seg info e He Hget Hseg). cbv zeta.
    assert (Hmove : forall dst, event_ok (Move (Path info) dst))
      by (intros dst; simpl; eauto).
    destruct (os_makedirs _ (disk s)) as [d1|e1]; simpl.
    + destruct (shutil_move _ _ d1) as [d2|[]]; simpl; rewrite <- !app_assoc;
        try (apply catalog_inv_log; auto; simpl; event_list).
      apply catalog_inv_set; auto; [event_list | eexists; reflexivity].
    + apply catalog_inv_log; auto. event_list.
  - destruct (string_dec (exif_classify_mode (self s)) "") as [Hm|Hm].
    + rewrite (classify_exif_file_disabled s file info); auto.
      apply catalog_inv_log; auto. event_list.
    + unfold exif_segment in Hseg.
      destruct (String.eqb (exif_classify_mode (self s)) "0") eqn:E0;
        [discriminate|].
      destruct (String.eqb (exif_classify_mode (self s)) "1") eqn:E1;
        [discriminate|].
      apply String.eqb_neq in E0, E1.
      rewrite classify_exif_file_unsupported; auto.
      * apply catalog_inv_log; auto. event_list.
      * eapply dict_get_some_in_keys; eauto.
Qed.

Lemma classify_exif_inv (s : state FS) :
  catalog_inv s -> catalog_inv (snd (classify_exif s)).
Proof.
  intros Hinv. unfold classify_exif.
  apply preserves_bind; [exact Hinv|]. intros mode s1 H1.
  destruct (truthy mode); auto.
  apply preserves_bind.
  { unfold print, emit. simpl. apply catalog_inv_log; auto. event_list. }
  intros _ s2 H2.
  apply preserves_bind; [exact H2|]. intros files s3 H3.
  apply preserves_bind; [|auto].
  apply for_in_preserves; auto.
  intros file s0 _. apply classify_exif_file_inv.
Qed.

Lemma run_unfold (config : Config) (d : FS) :
  run config d =
    (get_file_info ;; get_exif_metadata ;; classify_exif ;;
     classify_expand_name ;; print Finished)
      (mkState {| target_path := config_target_path config; exif_dic := [];
                  file_info := [];
                  exif_classify_mode := config_exif_mode config;
                  is_ext_classify := config_classify_by_ext config |} d []).
Proof. reflexivity. Qed.

Lemma run_catalog_inv (config : Config) (d : FS) :
  (forall root dirs files file,
      In (root, dirs, files) (os_walk (config_target_path config) d) ->
      In file files -> contains sep file = false) ->
  catalog_inv (snd (run config d)).
Proof.
  intros Hnames. rewrite run_unfold.
  apply preserves_bind.
  { apply get_file_info_inv; auto. split; simpl; [discriminate | constructor]. }
  intros _ s1 H1. apply preserves_bind; [now apply get_exif_metadata_inv|].
  intros _ s2 H2. apply preserves_bind; [now apply classify_exif_inv|].
  intros _ s3 H3. apply preserves_bind; [now apply classify_expand_name_inv|].
  intros _ s4 H4. unfold print, emit. simpl.
  apply catalog_inv_log; auto. event_list.
Qed.

(** On any filesystem whose walk lists names without separator: a file
    the walk finds whose name has no extension is not in the catalog at
    the end of the run; no move of the run has it as source, and no move
    line names it. *)
Lemma extensionless_file_untouched (config : Config) (d : FS)
    (root file : string) (dirs files : list string) :
  (forall root dirs files file,
      In (root, dirs, files) (os_walk (config_target_path config) d) ->
      In file files -> contains sep file = false) ->
  In (root, dirs, files) (os_walk (config_target_path config) d) ->
  In file files ->
  snd (splitext file) = "" ->
  let s := snd (run config d) in
  dict_get file (file_info (self s)) = None
  /\ (forall src dst, In (Move src dst) (log s) -> src <> join root file)
  /\ (forall src dst, ~ In (Printed (TryMove file src dst)) (log s)).
Proof.
  intros Hnames Hroot Hfile Hext s.
  pose proof (run_catalog_inv config d Hnames) as [Hr Hl]. fold s in Hr, Hl.
  assert (Hno : ~ cataloged_name file).
  { intros [Ht _]. rewrite Hext in Ht. discriminate. }
  rewrite Forall_forall in Hl.
  split; [|split].
  - destruct (dict_get file (file_info (self s))) as [info|] eqn:Hget; auto.
    destruct (Hr file info Hget) as [Hk _]. contradiction.
  - intros src dst Hin Heq. apply Hl in Hin. simpl in Hin.
    destruct Hin as [x [k [Hk Hsrc]]]. rewrite Heq in Hsrc.
    apply join_file_inj in Hsrc; [|eauto|apply Hk].
    subst k. contradiction.
  - intros src dst Hin. apply Hl in Hin. simpl in Hin. contradiction.
Qed.

End Extensionless.

(** ** Runs on concrete trees *)

Section Runs.
Import TreeFS.

(** C1.  With [classify_by_ext] false the run still moves [r/a.jpg] into
    the folder named after its extension: [main] stores the flag in
    [is_ext_classify] and calls [classify_expand_name] whatever it is. *)
Theorem extension_pass_runs_when_disabled :
  let config := mkConfig "r" false "" in
  let '(r, s) := run (H := posix) config Scenario.photos in
  r = Ok tt
  /\ is_ext_classify (self s) = false
  /\ moves_of (log s) = [("r/a.jpg", "r/jpg/a.jpg")]
  /\ lookup (disk s) (components "r/a.jpg") = None
  /\ lookup (disk s) (components "r/jpg/a.jpg")
     = Some (photo "2024:05:01 10:00:00" "CameraX").
Proof. vm_compute. repeat split. Qed.

(** C2.  A cataloged file without the capture-timestamp tag: the
    [tags.get(...)] of [get_exif_metadata] is [None], reading its
    [printable] raises [AttributeError], nothing catches it, and the run
    ends there, before any classification, although classification by
    extension is enabled. *)
Theorem missing_tag_aborts_run :
  let config := mkConfig "r" true "" in
  run (H := posix) config Scenario.notes
  = (Raise AttributeError,
     mkState
       {| target_path := "r"; exif_dic := [];
          file_info := [("notes.txt",
                         {| Name := "notes"; ext := "txt";
                            Path := "r/notes.txt"; Folder := "r" |})];
          exif_classify_mode := ""; is_ext_classify := true |}
       Scenario.notes
       [Open "r/notes.txt"]).
Proof. reflexivity. Qed.

(** C3.  Two files meet at [/r/x.jpg].  Where the move refuses an
    occupied destination, the [FileExistsError] handler of
    [classify_exif] raises [NameError] and the run stops, instead of
    skipping that file and going on.  Where the move replaces the
    destination, as on POSIX, nothing is rejected and the file that was
    at [/r/x.jpg] is gone. *)
Theorem collision_is_not_isolated :
  let config := mkConfig "/r" true "0" in
  let first := photo "2024:05:01 10:00:00" "CameraX" in
  let second := photo "2024:06:02 11:00:00" "/r" in
  lookup Scenario.collision (components "/r/x.jpg") = Some first
  /\ lookup Scenario.collision (components "/r/B/x.jpg") = Some second
  /\ (let '(r, s) := run (H := strict) config Scenario.collision in
      r = Raise NameError
      /\ moves_of (log s) = [("/r/B/x.jpg", "/r/x.jpg")]
      /\ ~ In (Printed Finished) (log s))
  /\ (let '(r, s) := run (H := posix) config Scenario.collision in
      r = Ok tt
      /\ (forall ev, In ev (log s) -> is_failure ev = false)
      /\ moves_of (log s) = [("/r/B/x.jpg", "/r/x.jpg"); ("/r/x.jpg", "/r/jpg/x.jpg")]
      /\ disk s = Dir [("r", Dir [("B", Dir []);
                                  ("jpg", Dir [("x.jpg", second)])])]).
Proof.
  vm_compute. repeat split.
  - intros Hin. repeat (destruct Hin as [Hin|Hin]; [discriminate|]). destruct Hin.
  - intros ev Hin.
    repeat (destruct Hin as [<-|Hin]; [reflexivity|]). destruct Hin.
Qed.



(** C7.  Two files named [x.jpg] in different subfolders are both found
    by the walk, and the catalog ends with one record: the assignment
    [self.file_info[file] = info] of the second replaces the first. *)
Theorem same_name_files_share_one_record :
  let s0 := mkState {| target_path := "r"; exif_dic := []; file_info := [];
                       exif_classify_mode := ""; is_ext_classify := true |}
              Scenario.twins [] in
  os_walk (FileSystem := posix) "r" Scenario.twins
  = [("r", ["a"; "b"], []); ("r/a", [], ["x.jpg"]); ("r/b", [], ["x.jpg"])]
  /\ get_file_info (H := posix) s0
     = (Ok tt,
        mkState {| target_path := "r"; exif_dic := [];
                   file_info := [("x.jpg",
                                  {| Name := "x"; ext := "jpg";
                                     Path := "r/b/x.jpg"; Folder := "r/b" |})];
                   exif_classify_mode := ""; is_ext_classify := true |}
          Scenario.twins []).
Proof. split; reflexivity. Qed.

(** C8.  After a successful move of the extension pass the record has
    the new [Path] and the old [Folder]: [classify_expand_name] assigns
    ["Path"] only, where [classify_exif] assigns both. *)
Theorem extension_pass_leaves_Folder_behind :
  let config := mkConfig "r" true "" in
  let '(r, s) := run (H := posix) config Scenario.photos in
  r = Ok tt
  /\ In (Printed (TryMove "a.jpg" "r/a.jpg" "r/jpg/a.jpg")) (log s)
  /\ dict_get "a.jpg" (file_info (self s))
     = Some {| Name := "a"; ext := "jpg"; Path := "r/jpg/a.jpg"; Folder := "r" |}
  /\ OsPath.dirname "r/jpg/a.jpg" = "r/jpg"
  /\ "r" <> OsPath.dirname "r/jpg/a.jpg".
Proof.
  vm_compute. repeat split.
  - right. right. right. now left.
  - discriminate.
Qed.

End Runs.

(** ** The flag [is_ext_classify] is never read *)

Section FlagBlind.
Context {FS : Type} `{FileSystem FS}.
Import PyStr OsPath.

Lemma blind_ret {A : Type} (a : A) : flag_blind (FS := FS) (ret a).
Proof. intros b s. reflexivity. Qed.

Lemma blind_raise {A : Type} (e : exception) : flag_blind (FS := FS) (A := A) (raise e).
Proof. intros b s. reflexivity. Qed.

Lemma blind_bind {A B : Type} (m : M FS A) (f : A -> M FS B) :
  flag_blind m -> (forall a, flag_blind (f a)) -> flag_blind (bind m f).
Proof.
  intros Hm Hf b s. unfold bind. rewrite Hm.
  destruct (m s) as [[a|e] s1]; simpl; auto. apply Hf.
Qed.

Lemma blind_try_except {A : Type} (m : M FS A) (h : exception -> M FS A) :
  flag_blind m -> (forall e, flag_blind (h e)) -> flag_blind (try_except m h).
Proof.
  intros Hm Hh b s. unfold try_except. rewrite Hm.
  destruct (m s) as [[a|e] s1]; simpl; auto. apply Hh.
Qed.

Lemma blind_gets {A : Type} (f : ImageInfo -> A) :
  (forall b i, f (set_flag b i) = f i) -> flag_blind (FS := FS) (gets f).
Proof. intros Hf b s. unfold gets. simpl. now rewrite Hf. Qed.

Lemma blind_modify (f : ImageInfo -> ImageInfo) :
  (forall b i, f (set_flag b i) = set_flag b (f i)) ->
  flag_blind (FS := FS) (modify f).
Proof. intros Hf b s. unfold modify, reflag. simpl. now rewrite Hf. Qed.

Lemma blind_emit (ev : event) : flag_blind (FS := FS) (emit ev).
Proof. intros b s. reflexivity. Qed.

Lemma blind_fs_update (op : FS -> result FS) : flag_blind (fs_update op).
Proof.
  intros b s. unfold fs_update. simpl. now destruct (op (disk s)).
Qed.

Lemma blind_fs_read {A : Type} (op : FS -> result A) : flag_blind (fs_read op).
Proof. intros b s. reflexivity. Qed.

Lemma blind_for_in {A : Type} (xs : list A) (body : A -> M FS flow) :
  (forall x, flag_blind (body x)) -> flag_blind (for_in xs body).
Proof.
  intros Hbody. induction xs as [|x xs IH]; simpl.
  - apply blind_ret.
  - apply blind_bind; auto. intros [|]; auto. apply blind_ret.
Qed.

Ltac blind :=
  repeat first
    [ apply blind_ret | apply blind_raise | apply blind_emit
    | apply blind_fs_update | apply blind_fs_read
    | apply blind_gets; reflexivity | apply blind_modify; reflexivity
    | apply blind_bind; [|intros ?]
    | apply blind_try_except; [|intros ?]
    | apply blind_for_in; intros ?
    | match goal with
      | |- flag_blind (match ?x with _ => _ end) => destruct x
      | |- flag_blind (if ?x then _ else _) => destruct x
      | |- flag_blind (let '(_, _) := ?x in _) => destruct x
      end ].

Lemma blind_get_file_info : flag_blind (get_file_info (FS := FS)).
Proof.
  unfold get_file_info, get_file_info_file, set_file_info. blind.
Qed.

Lemma blind_get_exif_metadata : flag_blind (get_exif_metadata (FS := FS)).
Proof.
  unfold get_exif_metadata, get_exif_metadata_file, file_info_at, printable,
    set_exif_dic. blind.
Qed.

Lemma blind_classify_exif : flag_blind (classify_exif (FS := FS)).
Proof.
  unfold classify_exif, classify_exif_file, exif_dispatch, file_info_at,
    exif_dic_at, makedirs, move, set_Path, set_Folder, set_file_info,
    file_info_at, load_name, print. blind.
Qed.

Lemma blind_classify_expand_name : flag_blind (classify_expand_name (FS := FS)).
Proof.
  unfold classify_expand_name, classify_expand_name_file, file_info_at,
    makedirs, move, set_Path, set_file_info, file_info_at, print. blind.
Qed.

(** Two runs that differ in [classify_by_ext] only end alike: the same
    result, the same disk, the same log, the same catalog. *)
Lemma run_ignores_classify_by_ext (top mode : string) (b b' : bool) (d : FS) :
  run (mkConfig top b' mode) d
  = (fst (run (mkConfig top b mode) d),
     reflag b' (snd (run (mkConfig top b mode) d))).
Proof.
  rewrite !run_unfold. simpl.
  assert (Hblind : flag_blind (FS := FS)
            (get_file_info ;; get_exif_metadata ;; classify_exif ;;
             classify_expand_name ;; print Finished)).
  { apply blind_bind; [apply blind_get_file_info | intros _].
    apply blind_bind; [apply blind_get_exif_metadata | intros _].
    apply blind_bind; [apply blind_classify_exif | intros _].
    apply blind_bind; [apply blind_classify_expand_name | intros _].
    apply blind_emit. }
  apply (Hblind b'
           (mkState {| target_path := top; exif_dic := []; file_info := [];
                       exif_classify_mode := mode; is_ext_classify := b |} d [])).
Qed.

(** A file whose tags lack the capture timestamp stops
    [get_exif_metadata]. *)
Lemma get_exif_metadata_file_missing_tag (s : state FS) (file : string)
    (info : FileInfo) (t : tags) :
  dict_get file (file_info (self s)) = Some info ->
  dict_mem (Name info) (exif_dic (self s)) = false ->
  process_file (Path info) (disk s) = Ok t ->
  dict_get "EXIF DateTimeOriginal" t = None ->
  get_exif_metadata_file file s
  = (Raise AttributeError,
     mkState (self s) (disk s) (log s ++ [Open (Path info)])).
Proof.
  intros Hget Hmem Ht Htag.
  unfold get_exif_metadata_file, file_info_at, printable, bind, gets, raise,
    ret, emit, fs_read. simpl.
  rewrite Hget. simpl. rewrite Hmem. simpl. rewrite Ht. now rewrite Htag.
Qed.

(** The extension pass never assigns ["Folder"]. *)
Lemma classify_expand_name_keeps_Folder (s s' : state FS) (file : string)
    (info : FileInfo) :
  NoDup (dict_keys (file_info (self s))) ->
  dict_get file (file_info (self s)) = Some info ->
  classify_expand_name s = (Ok tt, s') ->
  exists info', dict_get file (file_info (self s')) = Some info'
                /\ Folder info' = Folder info.
Proof.
  intros Hnd Hget Hrun.
  destruct (classify_expand_name_record s s' file info Hnd Hget Hrun)
    as [[[Hg _]|[Hg _]] _]; eauto.
Qed.

End FlagBlind.

(** ** The catalog after the scan *)

Section Scan.
Context {FS : Type} `{FileSystem FS}.
Import PyStr OsPath.

Lemma dict_get_none_not_key {V : Type} (k : string) (d : dict V) :
  dict_get k d = None -> ~ In k (dict_keys d).
Proof.
  intros Hget Hin. apply dict_get_in_keys in Hin.
  destruct Hin as [v Hv]. congruence.
Qed.

Lemma dict_keys_set_absent {V : Type} (k : string) (v : V) (d : dict V) :
  dict_get k d = None -> dict_keys (dict_set k v d) = dict_keys d ++ [k].
Proof.
  unfold dict_keys. induction d as [|[k0 v0] d IH]; simpl; intros Hget; auto.
  destruct (String.eqb k k0) eqn:E; [discriminate|].
  simpl. now rewrite IH.
Qed.

Lemma NoDup_dict_set {V : Type} (k : string) (v : V) (d : dict V) :
  NoDup (dict_keys d) -> NoDup (dict_keys (dict_set k v d)).
Proof.
  intros Hnd. destruct (dict_get k d) as [v0|] eqn:Hget.
  - rewrite dict_keys_set_present; [auto | congruence].
  - rewrite dict_keys_set_absent by auto.
    apply NoDup_app; auto.
    + repeat constructor. intros [].
    + intros x Hx [Heq|[]]. subst x. now apply (dict_get_none_not_key k d).
Qed.

Lemma get_file_info_state (s : state FS) :
  snd (get_file_info s)
  = snd (for_in (os_walk (target_path (self s)) (disk s))
           (fun '(root, dirs, files) => for_in files (get_file_info_file root)) s).
Proof.
  unfold get_file_info, bind, gets, fs_read, ret. simpl.
  now destruct (for_in _ _ s) as [[c|e] s1].
Qed.

Lemma get_file_info_file_shape (root file : string) (s : state FS) :
  contains sep file = false -> endswith sep root = false ->
  scan_shape s -> scan_shape (snd (get_file_info_file root file s)).
Proof.
  intros Hf Hr [Hnd Hrec]. unfold get_file_info_file.
  destruct (splitext file) as [file_name file_expand_name].
  destruct (truthy file_expand_name); simpl; [|now split].
  split; simpl.
  - now apply NoDup_dict_set.
  - intros k info Hget. apply dict_get_set_inv in Hget.
    destruct Hget as [[-> ->]|[_ Hget]]; simpl; auto.
Qed.

Lemma get_exif_metadata_file_catalog (file : string) (s : state FS) :
  file_info (self (snd (get_exif_metadata_file file s))) = file_info (self s).
Proof.
  unfold get_exif_metadata_file, file_info_at, printable, set_exif_dic,
    bind, gets, raise, ret, emit, fs_read, modify. simpl.
  destruct (dict_get file (file_info (self s))) as [info|]; simpl; auto.
  destruct (dict_mem (Name info) (exif_dic (self s))); simpl; auto.
  destruct (process_file (Path info) (disk s)) as [t|e]; simpl; auto.
  repeat match goal with
         | |- context [dict_get ?k t] => destruct (dict_get k t); simpl
         end; reflexivity.
Qed.

Lemma get_exif_metadata_catalog (s : state FS) :
  file_info (self (snd (get_exif_metadata s))) = file_info (self s).
Proof.
  unfold get_exif_metadata.
  apply (preserves_bind (fun s0 => file_info (self s0) = file_info (self s)));
    [reflexivity|]. intros files s1 H1.
  apply preserves_bind; [|auto].
  apply for_in_preserves; auto.
  intros file s0 _ H0. now rewrite get_exif_metadata_file_catalog.
Qed.

(** The state in which [main] starts the passes has the shape the
    statements on the passes ask for, whenever the walk lists names
    without separator under folders without trailing separator. *)
Lemma scanned_shape (config : Config) (d : FS) :
  (forall root dirs files file,
      In (root, dirs, files) (os_walk (config_target_path config) d) ->
      In file files -> contains sep file = false) ->
  (forall root dirs files,
      In (root, dirs, files) (os_walk (config_target_path config) d) ->
      endswith sep root = false) ->
  scan_shape (scanned config d).
Proof.
  intros Hnames Hroots. unfold scanned.
  set (s0 := mkState _ d []).
  assert (H1 : scan_shape (snd (get_file_info s0))).
  { rewrite get_file_info_state. apply for_in_preserves.
    - intros [[root dirs] files] s1 Hin Hs1.
      apply for_in_preserves; auto.
      intros file s2 Hfile. apply get_file_info_file_shape; eauto.
    - split; simpl; [constructor | discriminate]. }
  unfold bind. destruct (get_file_info s0) as [[[]|e] s1]; simpl in *; auto.
  unfold scan_shape. now rewrite get_exif_metadata_catalog.
Qed.

End Scan.

(** * Further properties *)

(** ** The text of the configuration file *)

Section ConfigTextFacts.
Import PyStr ConfigText.

Lemma replace_char_removes (c d : ascii) (s : string) :
  c <> d -> contains c (replace_char c d s) = false.
Proof.
  intros Hcd. induction s as [|x s IH]; simpl; auto.
  rewrite IH, orb_false_r.
  destruct (Ascii.eqb x c) eqn:E.
  - apply Ascii.eqb_neq. congruence.
  - exact E.
Qed.

Lemma replace_char_absent (c d : ascii) (s : string) :
  contains c s = false -> replace_char c d s = s.
Proof.
  induction s as [|x s IH]; simpl; auto. intros Hc.
  apply orb_false_iff in Hc. destruct Hc as [Hx Hs].
  now rewrite Hx, IH.
Qed.

Lemma append_empty_r (s : string) : (s ++ "")%string = s.
Proof. induction s; simpl; congruence. Qed.

Lemma concat_cons (x : string) (xs : list string) :
  String.concat "" (x :: xs) = (x ++ String.concat "" xs)%string.
Proof.
  destruct xs as [|y ys]; simpl; auto. now rewrite append_empty_r.
Qed.

Lemma concat_app (xs ys : list string) :
  String.concat "" (xs ++ ys)
  = (String.concat "" xs ++ String.concat "" ys)%string.
Proof.
  induction xs as [|x xs IH]; auto.
  change ((x :: xs) ++ ys) with (x :: (xs ++ ys)).
  now rewrite !concat_cons, IH, append_assoc.
Qed.

(** The lines of a text, joined, are the text. *)
Lemma concat_lines_of (text : string) : String.concat "" (lines_of text) = text.
Proof.
  induction text as [|c r IH]; auto.
  cbn [lines_of]. destruct (Ascii.eqb c (ascii_of_nat 10)).
  - rewrite concat_cons, IH. reflexivity.
  - destruct (lines_of r) as [|l ls].
    + simpl in IH. now subst r.
    + rewrite concat_cons in *. simpl. now rewrite IH.
Qed.

Lemma lines_of_empty (text : string) : lines_of text = [] -> text = "".
Proof.
  destruct text as [|c r]; auto. cbn [lines_of].
  destruct (Ascii.eqb c (ascii_of_nat 10)); [discriminate|].
  destruct (lines_of r); discriminate.
Qed.

(** A text that ends a line splits there. *)
Lemma lines_of_app (head body : string) :
  head = "" \/ endswith (ascii_of_nat 10) head = true ->
  lines_of (head ++ body) = lines_of head ++ lines_of body.
Proof.
  induction head as [|c r IH]; intros Hend; auto.
  destruct Hend as [Hend|Hend]; [discriminate|].
  assert (Hr : r = "" \/ endswith (ascii_of_nat 10) r = true).
  { destruct r as [|y r']; auto. }
  simpl String.append. cbn [lines_of].
  destruct (Ascii.eqb c (ascii_of_nat 10)) eqn:Ec.
  - now rewrite IH.
  - rewrite IH by auto.
    destruct (lines_of r) as [|l ls] eqn:El; auto.
    apply lines_of_empty in El. subst r.
    simpl in Hend. congruence.
Qed.

Lemma filter_none {A : Type} (f : A -> bool) (l : list A) :
  Forall (fun x => f x = false) l -> filter f l = [].
Proof.
  induction 1 as [|x l Hx Hl IH]; simpl; auto. now rewrite Hx.
Qed.

Lemma filter_all {A : Type} (f : A -> bool) (l : list A) :
  Forall (fun x => f x = true) l -> filter f l = l.
Proof.
  induction 1 as [|x l Hx Hl IH]; simpl; auto. now rewrite Hx, IH.
Qed.

(** X1.  Whatever the configuration file holds, the text [load] passes
    to [json.loads] has no backslash left: a path written with
    backslashes arrives with slashes (and so does every JSON escape). *)
Theorem load_json_text_has_no_backslash (text : string) :
  contains backslash (load_json_text text) = false.
Proof.
  unfold load_json_text. apply replace_char_removes. discriminate.
Qed.

(** X2.  A file made of comment lines followed by a body with no comment
    line and no backslash is read as its body, unchanged: the help text
    is dropped and nothing else is touched. *)
Theorem load_json_text_drops_leading_comments (head body : string) :
  head = "" \/ endswith (ascii_of_nat 10) head = true ->
  Forall (fun line => is_comment line = true) (lines_of head) ->
  Forall (fun line => is_comment line = false) (lines_of body) ->
  contains backslash body = false ->
  load_json_text (head ++ body) = body.
Proof.
  intros Hend Hhead Hbody Hslash. unfold load_json_text.
  rewrite lines_of_app by exact Hend. rewrite filter_app.
  rewrite (filter_none _ (lines_of head)).
  - rewrite (filter_all _ (lines_of body)).
    + simpl. rewrite concat_lines_of. now apply replace_char_absent.
    + eapply Forall_impl; [|exact Hbody]. intros line Hl. simpl. now rewrite Hl.
  - eapply Forall_impl; [|exact Hhead]. intros line Hl. simpl. now rewrite Hl.
Qed.

(** X3.  The loop of [load] ends with the first of the configured path
    and the answers, in order, that is non-empty and exists; the answers
    after it are not read; when there is none, [input] meets the end of
    the input. *)
Theorem ask_target_path_first_existing (path_exists : string -> bool)
    (stdin : list string) (target_path : string) :
  let valid p := truthy p && path_exists p in
  match ask_target_path path_exists stdin target_path with
  | Target p rest =>
      exists rejected,
        target_path :: stdin = rejected ++ p :: rest
        /\ Forall (fun q => valid q = false) rejected
        /\ valid p = true
  | EOFError => Forall (fun q => valid q = false) (target_path :: stdin)
  end.
Proof.
  intros valid. revert target_path.
  induction stdin as [|answer stdin IH]; intros target_path; simpl.
  - destruct (truthy target_path) eqn:Ht; simpl.
    + destruct (path_exists target_path) eqn:He; simpl.
      * exists []. unfold valid. rewrite Ht, He. auto.
      * repeat constructor. unfold valid. now rewrite Ht, He.
    + repeat constructor. unfold valid. now rewrite Ht.
  - assert (Hstep : valid target_path = false ->
              match ask_target_path path_exists stdin answer with
              | Target p rest =>
                  exists rejected,
                    target_path :: answer :: stdin = rejected ++ p :: rest
                    /\ Forall (fun q => valid q = false) rejected
                    /\ valid p = true
              | EOFError =>
                  Forall (fun q => valid q = false) (target_path :: answer :: stdin)
              end).
    { intros Hbad. specialize (IH answer).
      destruct (ask_target_path path_exists stdin answer) as [p rest|].
      - destruct IH as [rejected [Heq [Hrej Hp]]].
        exists (target_path :: rejected). simpl. rewrite Heq. auto.
      - constructor; auto. }
    destruct (truthy target_path) eqn:Ht; simpl.
    + destruct (path_exists target_path) eqn:He; simpl.
      * exists []. unfold valid. rewrite Ht, He. auto.
      * apply Hstep. unfold valid. now rewrite Ht, He.
    + apply Hstep. unfold valid. now rewrite Ht.
Qed.

End ConfigTextFacts.

(** The file [create_default_config] writes is read back as the default
    configuration that [json.dump] wrote. *)
Lemma load_json_text_drops_leading_comments_witness :
  ConfigText.load_json_text ConfigText.create_default_config
  = ConfigText.default_config_json.
Proof.
  refine (load_json_text_drops_leading_comments ConfigText.help_text
            ConfigText.default_config_json _ _ _ _).
  - right. vm_compute. reflexivity.
  - vm_compute. repeat constructor.
  - vm_compute. repeat constructor.
  - vm_compute. reflexivity.
Defined.

(** ** The catalog, as a function of the walk *)

Section ScanFacts.
Context {FS : Type} `{FileSystem FS}.
Import PyStr OsPath.

Lemma state_eta (s : state FS) : mkState (self s) (disk s) (log s) = s.
Proof. now destruct s. Qed.

Lemma with_file_info_id (i : ImageInfo) : with_file_info (file_info i) i = i.
Proof. now destruct i. Qed.

(** The loop over the files of one folder only assigns to the catalog. *)
Lemma for_in_get_file_info_file (root : string) (files : list string)
    (i : ImageInfo) (d : FS) (l : list event) :
  for_in files (get_file_info_file root) (mkState i d l)
  = (Ok Next, mkState (with_file_info (scan_files root files (file_info i)) i) d l).
Proof.
  revert i. induction files as [|file files IH]; intros i.
  - simpl. unfold ret. now rewrite with_file_info_id.
  - cbn [for_in]. unfold bind at 1. unfold get_file_info_file.
    destruct (splitext file) as [file_name file_expand_name] eqn:Hsplit.
    unfold scan_files. cbn [fold_left]. rewrite Hsplit. cbn [snd].
    destruct (truthy file_expand_name).
    + unfold bind, set_file_info, modify, ret. cbn [self disk log].
      rewrite IH. unfold scan_record. rewrite Hsplit. reflexivity.
    + unfold ret. rewrite IH. reflexivity.
Qed.

(** [get_file_info] always returns, with the catalog of the walk, and
    changes nothing else. *)
Lemma get_file_info_catalog (s : state FS) :
  get_file_info s
  = (Ok tt,
     mkState
       (with_file_info
          (scan_catalog (os_walk (target_path (self s)) (disk s))
             (file_info (self s)))
          (self s))
       (disk s) (log s)).
Proof.
  unfold get_file_info, bind at 1, gets. cbv beta iota.
  unfold bind at 1, fs_read. cbv beta iota.
  generalize (os_walk (target_path (self s)) (disk s)). intros triples.
  destruct s as [i d l]. cbn [self disk log].
  assert (Hloop : forall i0,
    for_in triples
      (fun '(root, _, files) => for_in files (get_file_info_file root))
      (mkState i0 d l)
    = (Ok Next,
       mkState (with_file_info (scan_catalog triples (file_info i0)) i0) d l)).
  { induction triples as [|[[root dirs] files] triples IH]; intros i0.
    - simpl. unfold ret. now rewrite with_file_info_id.
    - cbn [for_in]. unfold bind at 1.
      rewrite for_in_get_file_info_file. rewrite IH. reflexivity. }
  unfold bind. rewrite Hloop. reflexivity.
Qed.

Lemma in_files_dec (k : string) (files : list string) :
  {In k files} + {~ In k files}.
Proof. apply in_dec, string_dec. Qed.

(** The record under a key after the files of one folder. *)
Lemma dict_get_scan_files (root : string) (files : list string)
    (d : dict FileInfo) (k : string) :
  dict_get k (scan_files root files d)
  = if in_files_dec k files then
      if truthy (snd (splitext k)) then Some (scan_record root k)
      else dict_get k d
    else dict_get k d.
Proof.
  revert d. induction files as [|file files IH]; intros d.
  - destruct (in_files_dec k []) as [[]|]; reflexivity.
  - unfold scan_files in *. cbn [fold_left]. rewrite IH.
    destruct (in_files_dec k files) as [Hin|Hnin];
      destruct (in_files_dec k (file :: files)) as [Hin'|Hnin'].
    + destruct (truthy (snd (splitext k))) eqn:Hk; auto.
      destruct (truthy (snd (splitext file))) eqn:Hf; auto.
      destruct (string_dec file k) as [->|Hne]; [congruence|].
      now apply dict_get_set_other.
    + exfalso. apply Hnin'. now right.
    + destruct Hin' as [->|Hin']; [|contradiction].
      destruct (truthy (snd (splitext k))); auto.
      apply dict_get_set_same.
    + destruct (truthy (snd (splitext file))); auto.
      apply dict_get_set_other. intros ->. apply Hnin'. now left.
Qed.

Lemma scan_catalog_app (ts1 ts2 : list (string * list string * list string))
    (d : dict FileInfo) :
  scan_catalog (ts1 ++ ts2) d = scan_catalog ts2 (scan_catalog ts1 d).
Proof. unfold scan_catalog. apply fold_left_app. Qed.

(** A key that the folders of [ts] do not list keeps its record. *)
Lemma dict_get_scan_catalog_unlisted
    (ts : list (string * list string * list string)) (d : dict FileInfo) (k : string) :
  (forall root dirs files, In (root, dirs, files) ts -> ~ In k files) ->
  dict_get k (scan_catalog ts d) = dict_get k d.
Proof.
  revert d. induction ts as [|[[root dirs] files] ts IH]; intros d Hno; auto.
  unfold scan_catalog in *. cbn [fold_left]. rewrite IH.
  - rewrite dict_get_scan_files.
    destruct (in_files_dec k files) as [Hin|]; auto.
    exfalso. apply (Hno root dirs files); auto. now left.
  - intros r ds fs Hin. apply (Hno r ds fs). now right.
Qed.

(** Where a record of the catalog comes from. *)
Lemma dict_get_scan_catalog_inv
    (ts : list (string * list string * list string)) (d : dict FileInfo)
    (k : string) (info : FileInfo) :
  dict_get k (scan_catalog ts d) = Some info ->
  dict_get k d = Some info
  \/ exists root dirs files,
       In (root, dirs, files) ts /\ In k files
       /\ truthy (snd (splitext k)) = true /\ info = scan_record root k.
Proof.
  revert d. induction ts as [|[[root dirs] files] ts IH]; intros d Hget; auto.
  unfold scan_catalog in *. cbn [fold_left] in Hget.
  apply IH in Hget. destruct Hget as [Hget|[r [ds [fs [Hin Hrest]]]]].
  - rewrite dict_get_scan_files in Hget.
    destruct (in_files_dec k files) as [Hin|]; auto.
    destruct (truthy (snd (splitext k))) eqn:Hk; auto.
    right. exists root, dirs, files. injection Hget as <-.
    repeat split; auto. now left.
  - right. exists r, ds, fs. split; auto. now right.
Qed.

(** A listed name that has an extension is a key, under the record of
    one of the folders that list it. *)
Lemma dict_get_scan_catalog_listed
    (ts : list (string * list string * list string)) (d : dict FileInfo)
    (root : string) (dirs files : list string) (k : string) :
  In (root, dirs, files) ts -> In k files ->
  truthy (snd (splitext k)) = true ->
  exists root' dirs' files',
    In (root', dirs', files') ts /\ In k files'
    /\ dict_get k (scan_catalog ts d) = Some (scan_record root' k).
Proof.
  intros Hin Hk Hext. revert d.
  induction ts as [|t ts IH] using rev_ind; intros d; [destruct Hin|].
  rewrite scan_catalog_app. destruct t as [[r ds] fs].
  unfold scan_catalog at 1. cbn [fold_left]. rewrite dict_get_scan_files.
  destruct (in_files_dec k fs) as [Hlast|Hlast].
  - rewrite Hext. exists r, ds, fs. repeat split; auto.
    apply in_or_app. right. now left.
  - apply in_app_or in Hin. destruct Hin as [Hin|[Heq|[]]].
    + destruct (IH Hin d) as [r' [ds' [fs' [Hin' [Hk' Hget]]]]].
      exists r', ds', fs'. repeat split; auto. apply in_or_app. now left.
    + injection Heq as -> -> ->. contradiction.
Qed.

(** X4.  Every record [get_file_info] adds to the catalog describes a
    file of the walk: its key is a listed name that has an extension,
    and the record holds the folder that lists it, the path in that
    folder, the name without extension and the extension without dot. *)
Theorem get_file_info_records_are_listed (s : state FS) (k : string)
    (info : FileInfo) :
  dict_get k (file_info (self (snd (get_file_info s)))) = Some info ->
  dict_get k (file_info (self s)) = Some info
  \/ exists root dirs files,
       In (root, dirs, files) (os_walk (target_path (self s)) (disk s))
       /\ In k files
       /\ truthy (snd (splitext k)) = true
       /\ info = {| Name := fst (splitext k);
                    ext := remove_char "."%char (snd (splitext k));
                    Path := join root k;
                    Folder := root |}.
Proof.
  rewrite get_file_info_catalog. simpl. apply dict_get_scan_catalog_inv.
Qed.

(** X5.  Every name the walk lists that has an extension is a key of the
    catalog after [get_file_info], with that name split into base name
    and extension, in one of the folders that list it. *)
Theorem get_file_info_catalogs_listed_names (s : state FS) (root : string)
    (dirs files : list string) (k : string) :
  In (root, dirs, files) (os_walk (target_path (self s)) (disk s)) ->
  In k files ->
  truthy (snd (splitext k)) = true ->
  exists root' dirs' files',
    In (root', dirs', files') (os_walk (target_path (self s)) (disk s))
    /\ In k files'
    /\ dict_get k (file_info (self (snd (get_file_info s))))
       = Some (scan_record root' k).
Proof.
  intros Hin Hk Hext. rewrite get_file_info_catalog. simpl.
  eapply dict_get_scan_catalog_listed; eauto.
Qed.

(** X6.  Of several folders that list the same name, the one the walk
    visits last gives the record: the catalog holds the path in that
    folder, and the files of that name in the folders before it have no
    record of their own. *)
Theorem get_file_info_last_folder_wins (s : state FS)
    (before after : list (string * list string * list string))
    (root : string) (dirs files : list string) (k : string) :
  os_walk (target_path (self s)) (disk s) = before ++ (root, dirs, files) :: after ->
  In k files ->
  truthy (snd (splitext k)) = true ->
  (forall root' dirs' files', In (root', dirs', files') after -> ~ In k files') ->
  dict_get k (file_info (self (snd (get_file_info s)))) = Some (scan_record root k).
Proof.
  intros Hwalk Hk Hext Hafter. rewrite get_file_info_catalog, Hwalk. simpl.
  rewrite scan_catalog_app.
  change ((root, dirs, files) :: after) with ([(root, dirs, files)] ++ after).
  rewrite scan_catalog_app, dict_get_scan_catalog_unlisted by exact Hafter.
  unfold scan_catalog at 1. cbn [fold_left]. rewrite dict_get_scan_files.
  destruct (in_files_dec k files) as [|Hno]; [|contradiction].
  now rewrite Hext.
Qed.

End ScanFacts.

(** ** The metadata table *)

Section MetadataFacts.
Context {FS : Type} `{FileSystem FS}.
Import PyStr OsPath.

(** The body of the loop of [get_exif_metadata], case by case. *)
Lemma get_exif_metadata_file_cases (s : state FS) (file : string) (info : FileInfo) :
  dict_get file (file_info (self s)) = Some info ->
  get_exif_metadata_file file s =
    if dict_mem (Name info) (exif_dic (self s)) then (Ok Next, s)
    else
      let opened := mkState (self s) (disk s) (log s ++ [Open (Path info)]) in
      match process_file (Path info) (disk s) with
      | Raise x => (Raise x, opened)
      | Ok t =>
          match exif_of_tags (ext info) t with
          | Some e =>
              (Ok Next,
               mkState
                 (with_exif_dic (dict_set (Name info) e (exif_dic (self s))) (self s))
                 (disk s) (log s ++ [Open (Path info)]))
          | None => (Raise AttributeError, opened)
          end
      end.
Proof.
  intros Hget.
  unfold get_exif_metadata_file, file_info_at, printable, set_exif_dic,
    bind, gets, raise, ret, emit, fs_read, modify. simpl.
  rewrite Hget. simpl.
  destruct (dict_mem (Name info) (exif_dic (self s))); simpl; auto.
  destruct (process_file (Path info) (disk s)) as [t|x]; simpl; auto.
  unfold exif_of_tags.
  repeat match goal with
         | |- context [dict_get ?k t] => destruct (dict_get k t); simpl
         end; reflexivity.
Qed.

Lemma get_exif_metadata_file_missing (s : state FS) (file : string) :
  dict_get file (file_info (self s)) = None ->
  get_exif_metadata_file file s = (Raise KeyError, s).
Proof.
  intros Hget. unfold get_exif_metadata_file, file_info_at, bind, gets, raise.
  now rewrite Hget.
Qed.

Lemma get_exif_metadata_unfold (s : state FS) :
  get_exif_metadata s =
    match for_in (dict_keys (file_info (self s))) get_exif_metadata_file s with
    | (Ok _, s') => (Ok tt, s')
    | (Raise e, s') => (Raise e, s')
    end.
Proof. reflexivity. Qed.

Lemma get_exif_metadata_state (s : state FS) :
  snd (get_exif_metadata s)
  = snd (for_in (dict_keys (file_info (self s))) get_exif_metadata_file s).
Proof.
  rewrite get_exif_metadata_unfold. now destruct (for_in _ _ s) as [[c|e] s1].
Qed.

Lemma reads_only_refl (s : state FS) : reads_only s s.
Proof.
  repeat split; auto. exists []. split; [now rewrite app_nil_r | constructor].
Qed.

Lemma reads_only_trans (s s1 s2 : state FS) :
  reads_only s s1 -> reads_only s1 s2 -> reads_only s s2.
Proof.
  intros [Hd [Hf [He [l [Hl Ho]]]]] [Hd' [Hf' [He' [l' [Hl' Ho']]]]].
  repeat split; try congruence; auto.
  exists (l ++ l'). split.
  - now rewrite Hl', Hl, app_assoc.
  - apply Forall_app. split; auto.
    eapply Forall_impl; [|exact Ho'].
    intros ev [k [info [Hg Hev]]]. exists k, info. split; congruence.
Qed.

Lemma get_exif_metadata_file_reads_only (file : string) (s : state FS) :
  reads_only s (snd (get_exif_metadata_file file s)).
Proof.
  destruct (dict_get file (file_info (self s))) as [info|] eqn:Hget.
  2: { rewrite get_exif_metadata_file_missing; auto. apply reads_only_refl. }
  rewrite (get_exif_metadata_file_cases s file info Hget).
  destruct (dict_mem (Name info) (exif_dic (self s))) eqn:Hmem;
    [apply reads_only_refl|].
  assert (Hopen : Forall (fun ev => exists k info0,
                    dict_get k (file_info (self s)) = Some info0
                    /\ ev = Open (Path info0)) [Open (Path info)]).
  { repeat constructor. eauto. }
  cbv zeta.
  destruct (process_file (Path info) (disk s)) as [t|x]; simpl.
  - destruct (exif_of_tags (ext info) t) as [e|]; simpl.
    + repeat split; simpl; eauto.
      intros name e0 Hname. rewrite dict_get_set_other; auto.
      intros <-. unfold dict_mem in Hmem. now rewrite Hname in Hmem.
    + repeat split; simpl; eauto.
  - repeat split; simpl; eauto.
Qed.

Lemma get_exif_metadata_reads_only (s : state FS) :
  reads_only s (snd (get_exif_metadata s)).
Proof.
  rewrite get_exif_metadata_state.
  apply (for_in_preserves (reads_only s)); [|apply reads_only_refl].
  intros file s0 _ H0. eapply reads_only_trans; [exact H0|].
  apply get_exif_metadata_file_reads_only.
Qed.

Lemma scan_state (s : state FS) :
  snd ((get_file_info ;; get_exif_metadata) s)
  = snd (get_exif_metadata
           (mkState
              (with_file_info
                 (scan_catalog (os_walk (target_path (self s)) (disk s))
                    (file_info (self s)))
                 (self s))
              (disk s) (log s))).
Proof. unfold bind. now rewrite get_file_info_catalog. Qed.

(** X7.  The scan, [get_file_info] followed by [get_exif_metadata],
    only reads: the disk is the same afterwards, however the scan ends,
    and the only filesystem calls made are the opening of the paths of
    cataloged files. *)
Theorem scan_only_reads (s : state FS) :
  let s' := snd ((get_file_info ;; get_exif_metadata) s) in
  disk s' = disk s
  /\ exists l, log s' = log s ++ l
       /\ Forall (fun ev => exists k info,
                    dict_get k (file_info (self s')) = Some info
                    /\ ev = Open (Path info)) l.
Proof.
  intros s'. unfold s'. rewrite scan_state.
  set (s1 := mkState _ (disk s) (log s)).
  destruct (get_exif_metadata_reads_only s1) as [Hd [Hf [_ [l [Hl Ho]]]]].
  split; [exact Hd|]. exists l. split; [exact Hl|].
  eapply Forall_impl; [|exact Ho].
  intros ev [k [info [Hg Hev]]]. exists k, info. split; congruence.
Qed.

(** X8.  [get_exif_metadata] never replaces an entry: what the table
    holds under a base name stays, so of the files that share a base
    name the first one read gives the metadata of all. *)
Theorem get_exif_metadata_keeps_entries (s : state FS) (name : string)
    (e : FileExif) :
  dict_get name (exif_dic (self s)) = Some e ->
  dict_get name (exif_dic (self (snd (get_exif_metadata s)))) = Some e.
Proof.
  intros Hname.
  destruct (get_exif_metadata_reads_only s) as [_ [_ [He _]]]. now apply He.
Qed.

Lemma dict_mem_set {V : Type} (k k' : string) (v : V) (d : dict V) :
  dict_mem k d = true -> dict_mem k (dict_set k' v d) = true.
Proof.
  unfold dict_mem. intros Hk. destruct (string_dec k' k) as [->|Hne].
  - now rewrite dict_get_set_same.
  - now rewrite dict_get_set_other.
Qed.

Lemma reads_only_mem (s s' : state FS) (name : string) :
  reads_only s s' ->
  dict_mem name (exif_dic (self s)) = true ->
  dict_mem name (exif_dic (self s')) = true.
Proof.
  intros [_ [_ [He _]]]. unfold dict_mem.
  destruct (dict_get name (exif_dic (self s))) as [e|] eqn:Hn; [|discriminate].
  now rewrite (He name e Hn).
Qed.

(** After a loop of [get_exif_metadata] that ends normally, every file
    it went through has an entry under its base name. *)
Lemma get_exif_metadata_loop_covers (files : list string) (s s' : state FS) (c : flow) :
  for_in files get_exif_metadata_file s = (Ok c, s') ->
  forall file info, In file files ->
    dict_get file (file_info (self s)) = Some info ->
    dict_mem (Name info) (exif_dic (self s')) = true.
Proof.
  revert s. induction files as [|f files IH]; intros s Hrun file info Hin Hget.
  - destruct Hin.
  - cbn [for_in] in Hrun. unfold bind in Hrun.
    pose proof (get_exif_metadata_file_reads_only f s) as Hstep.
    destruct (get_exif_metadata_file f s) as [[c1|x] s1] eqn:Hf; [|discriminate].
    simpl in Hstep.
    assert (Hc1 : c1 = Next).
    { destruct (dict_get f (file_info (self s))) as [i|] eqn:Hgf.
      - rewrite (get_exif_metadata_file_cases s f i Hgf) in Hf.
        destruct (dict_mem (Name i) (exif_dic (self s))); [congruence|].
        cbv zeta in Hf.
        destruct (process_file (Path i) (disk s)) as [t|]; [|discriminate].
        destruct (exif_of_tags (ext i) t); congruence.
      - rewrite get_exif_metadata_file_missing in Hf; congruence. }
    subst c1.
    assert (Hrest : reads_only s1 s').
    { replace s' with (snd (for_in files get_exif_metadata_file s1))
        by now rewrite Hrun.
      apply (for_in_preserves (reads_only s1)); [|apply reads_only_refl].
      intros g s0 _ H0. eapply reads_only_trans; [exact H0|].
      apply get_exif_metadata_file_reads_only. }
    destruct Hin as [->|Hin].
    + apply (reads_only_mem s1 s' _ Hrest).
      rewrite (get_exif_metadata_file_cases s file info Hget) in Hf.
      destruct (dict_mem (Name info) (exif_dic (self s))) eqn:Hmem.
      * injection Hf as <-. exact Hmem.
      * cbv zeta in Hf.
        destruct (process_file (Path info) (disk s)) as [t|]; [|discriminate].
        destruct (exif_of_tags (ext info) t) as [e|]; [|discriminate].
        injection Hf as <-. simpl. unfold dict_mem.
        now rewrite dict_get_set_same.
    + apply (IH s1 Hrun file info Hin).
      destruct Hstep as [_ [Hfi _]]. now rewrite Hfi.
Qed.

(** X9.  When the scan of [main] ends normally, every cataloged file
    has an entry in the metadata table under the base name
    [classify_exif] looks up: no cataloged file is passed over by the
    EXIF pass for want of metadata. *)
Theorem scan_covers_every_cataloged_file (config : Config) (d : FS)
    (s' : state FS) (k : string) :
  (get_file_info ;; get_exif_metadata) (start config d) = (Ok tt, s') ->
  In k (dict_keys (file_info (self s'))) ->
  dict_mem (fst (splitext k)) (exif_dic (self s')) = true.
Proof.
  intros Hrun Hk. unfold bind in Hrun.
  rewrite get_file_info_catalog in Hrun.
  set (s1 := mkState _ _ _) in Hrun.
  rewrite get_exif_metadata_unfold in Hrun.
  destruct (for_in _ get_exif_metadata_file s1) as [[c|x] s2] eqn:Hloop;
    [|discriminate].
  injection Hrun as <-.
  assert (Hfi : file_info (self s2) = file_info (self s1)).
  { replace s2 with (snd (for_in (dict_keys (file_info (self s1)))
                            get_exif_metadata_file s1)) by now rewrite Hloop.
    rewrite <- get_exif_metadata_state. apply get_exif_metadata_catalog. }
  rewrite Hfi in Hk.
  destruct (dict_get_in_keys _ _ Hk) as [info Hget].
  pose proof (get_exif_metadata_loop_covers _ s1 s2 c Hloop k info Hk Hget) as Hm.
  simpl in Hget. apply dict_get_scan_catalog_inv in Hget.
  destruct Hget as [Hget|[root [dirs [files [_ [_ [_ ->]]]]]]]; [discriminate|].
  exact Hm.
Qed.

End MetadataFacts.

Section DateFacts.
Context {FS : Type} `{FileSystem FS}.
Import PyStr OsPath.

Lemma replace_char_keeps_absent (x c d : ascii) (s : string) :
  x <> d -> contains x s = false -> contains x (replace_char c d s) = false.
Proof.
  intros Hxd. induction s as [|y s IH]; simpl; auto. intros Hc.
  apply orb_false_iff in Hc. destruct Hc as [Hy Hs]. rewrite IH by auto.
  rewrite orb_false_r. destruct (Ascii.eqb y c); auto.
  apply Ascii.eqb_neq. congruence.
Qed.

Lemma split_first_has_no_sep (c : ascii) (s : string) :
  contains c (split_first c s) = false.
Proof.
  induction s as [|y s IH]; simpl; auto.
  destruct (Ascii.eqb y c) eqn:E; simpl; auto. now rewrite E, IH.
Qed.

Lemma split_last_has_no_sep (c : ascii) (s : string) :
  contains c (split_last c s) = false.
Proof.
  induction s as [|y s IH]; simpl; auto.
  destruct (contains c s) eqn:Hs; auto.
  destruct (Ascii.eqb y c) eqn:E; auto. simpl. now rewrite E, Hs.
Qed.

Lemma exif_of_tags_normalized (type_ : string) (t : tags) (e : FileExif) :
  exif_of_tags type_ t = Some e -> normalized e.
Proof.
  unfold exif_of_tags.
  destruct (dict_get "EXIF DateTimeOriginal" t) as [date_time|]; [|discriminate].
  destruct (dict_get "Image Model" t); [|discriminate].
  destruct (dict_get "EXIF ISOSpeedRatings" t); [|discriminate].
  destruct (dict_get "EXIF ExposureTime" t); [|discriminate].
  destruct (dict_get "EXIF FNumber" t); [|discriminate].
  intros He. injection He as <-. unfold normalized. simpl. repeat split.
  - apply replace_char_removes. discriminate.
  - apply replace_char_keeps_absent; [discriminate|].
    apply split_first_has_no_sep.
  - apply split_last_has_no_sep.
Qed.

Lemma get_exif_metadata_file_normalized (file : string) (s : state FS) :
  (forall name e, dict_get name (exif_dic (self s)) = Some e -> normalized e) ->
  forall name e,
    dict_get name (exif_dic (self (snd (get_exif_metadata_file file s)))) = Some e ->
    normalized e.
Proof.
  intros Hall name e.
  destruct (dict_get file (file_info (self s))) as [info|] eqn:Hget.
  2: { rewrite get_exif_metadata_file_missing; auto. apply Hall. }
  rewrite (get_exif_metadata_file_cases s file info Hget).
  destruct (dict_mem (Name info) (exif_dic (self s))); [apply Hall|].
  cbv zeta.
  destruct (process_file (Path info) (disk s)) as [t|x]; simpl; [|apply Hall].
  destruct (exif_of_tags (ext info) t) as [e0|] eqn:He0; simpl; [|apply Hall].
  intros Hn. apply dict_get_set_inv in Hn.
  destruct Hn as [[_ ->]|[_ Hn]]; [|eapply Hall; eauto].
  eapply exif_of_tags_normalized; eauto.
Qed.

(** X10.  Every entry the scan of [main] puts in the metadata table has
    a date without colon and without blank, and a time without blank,
    whatever the capture-timestamp tag reads: the folder the EXIF pass
    names after the date in mode ["1"] has neither. *)
Theorem scanned_dates_are_normalized (config : Config) (d : FS)
    (name : string) (e : FileExif) :
  dict_get name (exif_dic (self (scanned config d))) = Some e ->
  contains ":"%char (Date e) = false
  /\ contains " "%char (Date e) = false
  /\ contains " "%char (Time_ e) = false.
Proof.
  change (scanned config d)
    with (snd ((get_file_info ;; get_exif_metadata) (start config d))).
  rewrite scan_state, get_exif_metadata_state.
  revert name e.
  apply (for_in_preserves
           (fun s0 : state FS => forall name e,
              dict_get name (exif_dic (self s0)) = Some e -> normalized e)).
  - intros file s0 _ H0. now apply get_exif_metadata_file_normalized.
  - simpl. discriminate.
Qed.

End DateFacts.

(** ** What the passes ask of the filesystem *)

Section Plans.
Context {FS : Type} `{FileSystem FS}.
Import PyStr OsPath.

Lemma moves_of_app (l1 l2 : list event) :
  moves_of (l1 ++ l2) = moves_of l1 ++ moves_of l2.
Proof. unfold moves_of. apply flat_map_app. Qed.

Lemma flat_map_ext_on {A B : Type} (f g : A -> list B) (l : list A) :
  (forall x, In x l -> f x = g x) -> flat_map f l = flat_map g l.
Proof.
  induction l as [|x l IH]; intros Hfg; simpl; auto.
  rewrite Hfg by now left. rewrite IH; auto.
  intros y Hy. apply Hfg. now right.
Qed.

Lemma flat_map_singleton {A B : Type} (f : A -> B) (l : list A) :
  flat_map (fun x => [f x]) l = map f l.
Proof. induction l; simpl; congruence. Qed.

(** Under distinct keys, going through the keys and looking each one up
    is going through the entries. *)
Lemma flat_map_keys {V B : Type} (f : string * V -> list B) (d : dict V) :
  NoDup (dict_keys d) ->
  flat_map (fun k => match dict_get k d with
                     | Some v => f (k, v)
                     | None => []
                     end) (dict_keys d)
  = flat_map f d.
Proof.
  unfold dict_keys. induction d as [|[k v] d IH]; intros Hnd; auto.
  inversion Hnd as [|? ? Hk Hd]; subst. simpl.
  rewrite String.eqb_refl. f_equal. rewrite <- IH by auto.
  apply flat_map_ext_on. intros k' Hin.
  destruct (String.eqb k' k) eqn:E; auto.
  apply String.eqb_eq in E. subst k'. contradiction.
Qed.

(** The moves of a loop of the extension pass: one per key, planned from
    the record the key has when the loop starts. *)
Lemma classify_expand_name_loop_moves (files : list string) (s s' : state FS)
    (c : flow) :
  NoDup files ->
  for_in files classify_expand_name_file s = (Ok c, s') ->
  moves_of (log s')
  = moves_of (log s)
    ++ flat_map (fun k => match dict_get k (file_info (self s)) with
                          | Some info => [extension_move (k, info)]
                          | None => []
                          end) files.
Proof.
  revert s. induction files as [|f files IH]; intros s Hnd Hrun.
  - simpl in Hrun. injection Hrun as _ <-. simpl. now rewrite app_nil_r.
  - inversion Hnd as [|? ? Hf Hnd']; subst.
    cbn [for_in] in Hrun. unfold bind in Hrun.
    pose proof (classify_expand_name_file_frame f s) as Hframe.
    destruct (dict_get f (file_info (self s))) as [info|] eqn:Hget.
    2: { rewrite classify_expand_name_file_missing in Hrun; [discriminate|auto]. }
    rewrite (classify_expand_name_file_cases s f info Hget) in Hrun, Hframe.
    cbv zeta in Hrun, Hframe.
    destruct (os_makedirs _ (disk s)) as [d1|x]; [|discriminate].
    assert (Hrest : forall s1,
      frame f s s1 ->
      moves_of (log s1)
      = moves_of (log s) ++ [extension_move (f, info)] ->
      for_in files classify_expand_name_file s1 = (Ok c, s') ->
      moves_of (log s')
      = moves_of (log s)
        ++ flat_map (fun k => match dict_get k (file_info (self s)) with
                              | Some info => [extension_move (k, info)]
                              | None => []
                              end) (f :: files)).
    { intros s1 [_ [Hrec _]] Hlog Hloop. rewrite (IH s1 Hnd' Hloop), Hlog.
      cbn [flat_map]. rewrite Hget, <- app_assoc. f_equal. f_equal.
      apply flat_map_ext_on. intros k Hk. rewrite Hrec; auto.
      intros ->. contradiction. }
    destruct (shutil_move _ _ d1) as [d2|x];
      (eapply Hrest; [apply Hframe | | exact Hrun]);
      simpl; rewrite !moves_of_app; simpl; now rewrite !app_nil_r.
Qed.

(** X11.  When the extension pass ends normally, the moves it asked for
    are one per cataloged file, in the order of the catalog: from the
    path of the record to [Folder/ext/file], as the records were when
    the pass began, whether or not earlier moves succeeded. *)
Theorem classify_expand_name_moves (s s' : state FS) :
  NoDup (dict_keys (file_info (self s))) ->
  classify_expand_name s = (Ok tt, s') ->
  moves_of (log s')
  = moves_of (log s)
    ++ map (fun entry : string * FileInfo =>
              let '(file, info) := entry in
              (Path info, join (join (Folder info) (ext info)) file))
         (file_info (self s)).
Proof.
  intros Hnd Hrun. rewrite classify_expand_name_unfold in Hrun.
  destruct (for_in _ classify_expand_name_file s) as [[c|x] s1] eqn:Hloop;
    [|discriminate].
  injection Hrun as <-.
  rewrite (classify_expand_name_loop_moves _ s s1 c Hnd Hloop).
  f_equal.
  rewrite (flat_map_keys (fun entry => [extension_move entry])) by exact Hnd.
  rewrite flat_map_singleton. apply map_ext. now intros [file info].
Qed.

(** The moves of a loop of the EXIF pass in modes ["0"] and ["1"]. *)
Lemma classify_exif_loop_moves (files : list string) (s s' : state FS) (c : flow) :
  NoDup files ->
  exif_classify_mode (self s) = "0" \/ exif_classify_mode (self s) = "1" ->
  for_in files classify_exif_file s = (Ok c, s') ->
  moves_of (log s')
  = moves_of (log s)
    ++ flat_map (fun k => match dict_get k (file_info (self s)) with
                          | Some info =>
                              exif_moves (exif_classify_mode (self s))
                                (exif_dic (self s)) (k, info)
                          | None => []
                          end) files.
Proof.
  revert s. induction files as [|f files IH]; intros s Hnd Hmode Hrun.
  - simpl in Hrun. injection Hrun as _ <-. simpl. now rewrite app_nil_r.
  - inversion Hnd as [|? ? Hf Hnd']; subst.
    cbn [for_in] in Hrun. unfold bind in Hrun.
    pose proof (classify_exif_file_frame f s Hmode) as Hframe.
    assert (Hrest : forall s1 (planned : list (string * string)),
      frame f s s1 ->
      moves_of (log s1) = moves_of (log s) ++ planned ->
      planned = match dict_get f (file_info (self s)) with
                | Some info =>
                    exif_moves (exif_classify_mode (self s))
                      (exif_dic (self s)) (f, info)
                | None => []
                end ->
      for_in files classify_exif_file s1 = (Ok c, s') ->
      moves_of (log s')
      = moves_of (log s)
        ++ flat_map (fun k => match dict_get k (file_info (self s)) with
                              | Some info =>
                                  exif_moves (exif_classify_mode (self s))
                                    (exif_dic (self s)) (k, info)
                              | None => []
                              end) (f :: files)).
    { intros s1 planned [_ [Hrec [Hex [Hmd _]]]] Hlog Hplan Hloop.
      rewrite (IH s1 Hnd' (eq_ind_r (fun m => m = "0" \/ m = "1") Hmode Hmd) Hloop).
      rewrite Hlog, Hplan. cbn [flat_map]. rewrite <- app_assoc. f_equal. f_equal.
      rewrite Hex, Hmd. apply flat_map_ext_on. intros k Hk. rewrite Hrec; auto.
      intros ->. contradiction. }
    destruct (dict_get (fst (splitext f)) (exif_dic (self s))) as [e|] eqn:He.
    2: { assert (Hmem : dict_mem (fst (splitext f)) (exif_dic (self s)) = false)
           by (unfold dict_mem; now rewrite He).
         rewrite (classify_exif_file_skip s f Hmem) in Hrun.
         apply (Hrest s []); auto.
         - apply frame_refl.
         - now rewrite app_nil_r.
         - destruct (dict_get f (file_info (self s))); auto.
           unfold exif_moves. now rewrite He. }
    destruct (dict_get f (file_info (self s))) as [info|] eqn:Hget.
    2: { rewrite classify_exif_file_missing in Hrun; [discriminate| |auto].
         unfold dict_mem. now rewrite He. }
    destruct (exif_segment_some _ e Hmode) as [seg Hseg].
    rewrite (classify_exif_file_cases s f seg info e He Hget Hseg) in Hrun, Hframe.
    cbv zeta in Hrun, Hframe.
    assert (Hplan : [(Path info, join (join (dirname (Path info)) seg) f)]
                    = exif_moves (exif_classify_mode (self s))
                        (exif_dic (self s)) (f, info)).
    { unfold exif_moves. now rewrite He, Hseg. }
    destruct (os_makedirs _ (disk s)) as [d1|x]; [|discriminate].
    destruct (shutil_move _ _ d1) as [d2|[]]; try discriminate;
      (eapply (Hrest _ _); [apply Hframe | | exact Hplan | exact Hrun]);
      simpl; rewrite !moves_of_app; simpl; now rewrite !app_nil_r.
Qed.

(** X12.  When the EXIF pass ends normally in mode ["0"] or ["1"], the
    moves it asked for are one per cataloged file whose base name has
    metadata, in the order of the catalog, from the path of the record
    to [dirname(Path)/segment/file]; a file without metadata is asked
    nothing. *)
Theorem classify_exif_moves (s s' : state FS) :
  NoDup (dict_keys (file_info (self s))) ->
  exif_classify_mode (self s) = "0" \/ exif_classify_mode (self s) = "1" ->
  classify_exif s = (Ok tt, s') ->
  moves_of (log s')
  = moves_of (log s)
    ++ flat_map (exif_moves (exif_classify_mode (self s)) (exif_dic (self s)))
         (file_info (self s)).
Proof.
  intros Hnd Hmode Hrun.
  rewrite classify_exif_unfold in Hrun
    by (destruct Hmode as [-> | ->]; reflexivity).
  set (s0 := mkState (self s) (disk s) _) in Hrun.
  destruct (for_in _ classify_exif_file s0) as [[c|x] s1] eqn:Hloop;
    [|discriminate].
  injection Hrun as <-.
  rewrite (classify_exif_loop_moves _ s0 s1 c Hnd Hmode Hloop).
  unfold s0. cbn [self log]. rewrite moves_of_app.
  change (moves_of [Printed (SelectMode (exif_classify_mode (self s)))])
    with (@nil (string * string)).
  rewrite app_nil_r. f_equal.
  exact (flat_map_keys
           (exif_moves (exif_classify_mode (self s)) (exif_dic (self s))) _ Hnd).
Qed.






End Plans.

(** ** What the passes keep of the instance *)

Section Kept.
Context {FS : Type} `{FileSystem FS}.
Import PyStr OsPath.

Lemma same_files_refl (s : state FS) : same_files s s.
Proof. repeat split; auto. intros k info Hget. eauto. Qed.

Lemma same_files_trans (s s1 s2 : state FS) :
  same_files s s1 -> same_files s1 s2 -> same_files s s2.
Proof.
  intros [Ht [Hm [Hf [He [Hk Hr]]]]] [Ht' [Hm' [Hf' [He' [Hk' Hr']]]]].
  repeat split; try congruence.
  intros k info2 Hget. destruct (Hr' k info2 Hget) as [info1 [Hg1 [Hn1 Hx1]]].
  destruct (Hr k info1 Hg1) as [info [Hg [Hn Hx]]].
  exists info. repeat split; congruence.
Qed.

Lemma same_files_self (s : state FS) (d : FS) (l : list event) :
  same_files s (mkState (self s) d l).
Proof. repeat split; auto. intros k info Hget. eauto. Qed.

Lemma same_files_set (s : state FS) (d : FS) (l : list event) (file : string)
    (info new : FileInfo) :
  dict_get file (file_info (self s)) = Some info ->
  Name new = Name info -> ext new = ext info ->
  same_files s
    (mkState (with_file_info (dict_set file new (file_info (self s))) (self s)) d l).
Proof.
  intros Hget Hn Hx. repeat split; simpl; auto.
  - apply dict_keys_set_present. congruence.
  - intros k info' Hk. apply dict_get_set_inv in Hk.
    destruct Hk as [[-> ->]|[_ Hk]]; eauto.
Qed.

Lemma classify_expand_name_file_same_files (file : string) (s : state FS) :
  same_files s (snd (classify_expand_name_file file s)).
Proof.
  destruct (dict_get file (file_info (self s))) as [info|] eqn:Hget.
  - rewrite (classify_expand_name_file_cases s file info Hget). cbv zeta.
    destruct (os_makedirs _ (disk s)) as [d1|x]; simpl;
      [|apply same_files_self].
    destruct (shutil_move _ _ d1) as [d2|x]; simpl; [|apply same_files_self].
    now apply same_files_set with (info := info).
  - rewrite classify_expand_name_file_missing; auto. apply same_files_refl.
Qed.

Lemma classify_exif_file_same_files (file : string) (s : state FS) :
  same_files s (snd (classify_exif_file file s)).
Proof.
  destruct (dict_get (fst (splitext file)) (exif_dic (self s))) as [e|] eqn:He.
  2: { rewrite classify_exif_file_skip; [apply same_files_refl|].
       unfold dict_mem. now rewrite He. }
  assert (Hmem : dict_mem (fst (splitext file)) (exif_dic (self s)) = true)
    by (unfold dict_mem; now rewrite He).
  destruct (dict_get file (file_info (self s))) as [info|] eqn:Hget.
  2: { rewrite classify_exif_file_missing; auto. apply same_files_refl. }
  destruct (exif_segment (exif_classify_mode (self s)) e) as [seg|] eqn:Hseg.
  - rewrite (classify_exif_file_cases s file seg info e He Hget Hseg). cbv zeta.
    destruct (os_makedirs _ (disk s)) as [d1|x]; simpl;
      [|apply same_files_self].
    destruct (shutil_move _ _ d1) as [d2|[]]; simpl;
      try apply same_files_self.
    now apply same_files_set with (info := info).
  - destruct (string_dec (exif_classify_mode (self s)) "") as [Hm|Hm].
    + rewrite (classify_exif_file_disabled s file info); auto.
      apply same_files_self.
    + unfold exif_segment in Hseg.
      destruct (String.eqb (exif_classify_mode (self s)) "0") eqn:E0;
        [discriminate|].
      destruct (String.eqb (exif_classify_mode (self s)) "1") eqn:E1;
        [discriminate|].
      apply String.eqb_neq in E0, E1.
      rewrite classify_exif_file_unsupported; auto.
      * apply same_files_self.
      * eapply dict_get_some_in_keys; eauto.
Qed.

Lemma for_in_same_files (files : list string) (body : string -> M FS flow)
    (s : state FS) :
  (forall file s0, same_files s0 (snd (body file s0))) ->
  same_files s (snd (for_in files body s)).
Proof.
  intros Hbody.
  apply (for_in_preserves (same_files s)); [|apply same_files_refl].
  intros file s0 _ H0. eapply same_files_trans; [exact H0 | apply Hbody].
Qed.

Lemma classify_expand_name_same_files (s : state FS) :
  same_files s (snd (classify_expand_name s)).
Proof.
  replace (snd (classify_expand_name s))
    with (snd (for_in (dict_keys (file_info (self s)))
                 classify_expand_name_file s)).
  - apply for_in_same_files, classify_expand_name_file_same_files.
  - rewrite classify_expand_name_unfold.
    now destruct (for_in _ classify_expand_name_file s) as [[c|e] s1].
Qed.

Lemma classify_exif_same_files (s : state FS) :
  same_files s (snd (classify_exif s)).
Proof.
  destruct (exif_classify_mode (self s)) as [|c m] eqn:Hmode.
  - rewrite classify_exif_disabled by exact Hmode. apply same_files_refl.
  - rewrite classify_exif_unfold by now rewrite Hmode.
    set (s0 := mkState (self s) (disk s) _).
    apply same_files_trans with (s1 := s0); [apply same_files_self|].
    replace (snd (let (r, s') := for_in _ classify_exif_file s0 in _))
      with (snd (for_in (dict_keys (file_info (self s))) classify_exif_file s0)).
    + apply (for_in_same_files _ _ s0), classify_exif_file_same_files.
    + now destruct (for_in _ classify_exif_file s0) as [[c0|e] s1].
Qed.

(** X15.  However they end, the two classification passes leave the
    settings, the metadata table and the keys of the catalog as they
    found them, and under each key the base name and the extension:
    only the path and the folder of a record ever change. *)
Theorem both_passes_keep_names (s : state FS) :
  let s' := snd (both_passes s) in
  target_path (self s') = target_path (self s)
  /\ exif_classify_mode (self s') = exif_classify_mode (self s)
  /\ is_ext_classify (self s') = is_ext_classify (self s)
  /\ exif_dic (self s') = exif_dic (self s)
  /\ dict_keys (file_info (self s')) = dict_keys (file_info (self s))
  /\ forall k info', dict_get k (file_info (self s')) = Some info' ->
       exists info, dict_get k (file_info (self s)) = Some info
                    /\ Name info' = Name info /\ ext info' = ext info.
Proof.
  intros s'. change (same_files s s'). unfold s', both_passes.
  apply (preserves_bind (same_files s)).
  - apply classify_exif_same_files.
  - intros _ s1 H1. eapply same_files_trans; [exact H1|].
    apply classify_expand_name_same_files.
Qed.

End Kept.

(** ** The further properties on concrete trees *)

(** [Scenario.twins]: the record of [x.jpg] comes from the walk. *)
Lemma get_file_info_records_are_listed_witness :
  dict_get "x.jpg" (@nil (string * FileInfo))
  = Some (scan_record "r/b" "x.jpg")
  \/ exists root dirs files,
       In (root, dirs, files) (os_walk (FileSystem := TreeFS.posix) "r" Scenario.twins)
       /\ In "x.jpg" files
       /\ PyStr.truthy (snd (OsPath.splitext "x.jpg")) = true
       /\ scan_record "r/b" "x.jpg"
          = {| Name := fst (OsPath.splitext "x.jpg");
               ext := PyStr.remove_char "."%char (snd (OsPath.splitext "x.jpg"));
               Path := OsPath.join root "x.jpg";
               Folder := root |}.
Proof.
  refine (get_file_info_records_are_listed (H := TreeFS.posix)
            (start (mkConfig "r" true "") Scenario.twins)
            "x.jpg" (scan_record "r/b" "x.jpg") _).
  vm_compute. reflexivity.
Defined.

(** [Scenario.photos]: [a.jpg] is listed, and cataloged. *)
Lemma get_file_info_catalogs_listed_names_witness :
  exists root' dirs' files',
    In (root', dirs', files')
       (os_walk (FileSystem := TreeFS.posix) "r" Scenario.photos)
    /\ In "a.jpg" files'
    /\ dict_get "a.jpg"
         (file_info (self (snd (get_file_info (H := TreeFS.posix)
            (start (mkConfig "r" true "") Scenario.photos)))))
       = Some (scan_record root' "a.jpg").
Proof.
  refine (get_file_info_catalogs_listed_names (H := TreeFS.posix)
            (start (mkConfig "r" true "") Scenario.photos)
            "r" [] ["a.jpg"; "README"] "a.jpg" _ _ _).
  - vm_compute. now left.
  - now left.
  - reflexivity.
Defined.

(** [Scenario.twins]: the folder [r/b], visited last, gives the record. *)
Lemma get_file_info_last_folder_wins_witness :
  dict_get "x.jpg"
    (file_info (self (snd (get_file_info (H := TreeFS.posix)
       (start (mkConfig "r" true "") Scenario.twins)))))
  = Some {| Name := "x"; ext := "jpg"; Path := "r/b/x.jpg"; Folder := "r/b" |}.
Proof.
  refine (get_file_info_last_folder_wins (H := TreeFS.posix)
            (start (mkConfig "r" true "") Scenario.twins)
            [("r", ["a"; "b"], []); ("r/a", [], ["x.jpg"])] []
            "r/b" [] ["x.jpg"] "x.jpg" _ _ _ _).
  - vm_compute. reflexivity.
  - now left.
  - reflexivity.
  - intros root' dirs' files' [].
Defined.

(** [Scenario.pair]: the entry read from the raw file is the one kept. *)
Lemma get_exif_metadata_keeps_entries_witness :
  dict_get "IMG_001"
    (exif_dic (self (snd (get_exif_metadata (H := TreeFS.posix)
       (scanned (H := TreeFS.posix) (mkConfig "r" true "0") Scenario.pair)))))
  = Some {| Type_ := "raw"; Date := "2024-05-01"; Time_ := "10:00:00";
            CameraModel := "CameraX"; ISO := "ISO100"; Shutter := "1/250s";
            Aperture := "f2.8" |}.
Proof.
  refine (get_exif_metadata_keeps_entries (H := TreeFS.posix)
            (scanned (H := TreeFS.posix) (mkConfig "r" true "0") Scenario.pair)
            "IMG_001" _ _).
  vm_compute. reflexivity.
Defined.

(** [Scenario.pair]: the rendering has metadata under the shared name. *)
Lemma scan_covers_every_cataloged_file_witness :
  dict_mem (fst (OsPath.splitext "IMG_001.jpg"))
    (exif_dic (self (scanned (H := TreeFS.posix) (mkConfig "r" true "0")
                       Scenario.pair))) = true.
Proof.
  refine (scan_covers_every_cataloged_file (H := TreeFS.posix)
            (mkConfig "r" true "0") Scenario.pair
            (scanned (H := TreeFS.posix) (mkConfig "r" true "0") Scenario.pair)
            "IMG_001.jpg" _ _).
  - vm_compute. reflexivity.
  - vm_compute. right. now left.
Defined.

(** [Scenario.photos]: the date of the photograph. *)
Lemma scanned_dates_are_normalized_witness :
  PyStr.contains ":"%char "2024-05-01" = false
  /\ PyStr.contains " "%char "2024-05-01" = false
  /\ PyStr.contains " "%char "10:00:00" = false.
Proof.
  refine (scanned_dates_are_normalized (H := TreeFS.posix)
            (mkConfig "r" true "1") Scenario.photos "a"
            {| Type_ := "jpg"; Date := "2024-05-01"; Time_ := "10:00:00";
               CameraModel := "CameraX"; ISO := "ISO100"; Shutter := "1/250s";
               Aperture := "f2.8" |} _).
  vm_compute. reflexivity.
Defined.

(** [Scenario.pair]: the two moves of the extension pass. *)
Lemma classify_expand_name_moves_witness :
  moves_of (log (snd (classify_expand_name (H := TreeFS.posix)
     (scanned (H := TreeFS.posix) (mkConfig "r" true "") Scenario.pair))))
  = [("r/IMG_001.raw", "r/raw/IMG_001.raw");
     ("r/IMG_001.jpg", "r/jpg/IMG_001.jpg")].
Proof.
  refine (classify_expand_name_moves (H := TreeFS.posix)
            (scanned (H := TreeFS.posix) (mkConfig "r" true "") Scenario.pair)
            (snd (classify_expand_name (H := TreeFS.posix)
               (scanned (H := TreeFS.posix) (mkConfig "r" true "") Scenario.pair)))
            _ _).
  - vm_compute. repeat constructor; simpl; intuition discriminate.
  - vm_compute. reflexivity.
Defined.

(** [Scenario.pair]: the two moves of the EXIF pass by camera model. *)
Lemma classify_exif_moves_witness :
  moves_of (log (snd (classify_exif (H := TreeFS.posix)
     (scanned (H := TreeFS.posix) (mkConfig "r" true "0") Scenario.pair))))
  = [("r/IMG_001.raw", "r/CameraX/IMG_001.raw");
     ("r/IMG_001.jpg", "r/CameraX/IMG_001.jpg")].
Proof.
  refine (classify_exif_moves (H := TreeFS.posix)
            (scanned (H := TreeFS.posix) (mkConfig "r" true "0") Scenario.pair)
            (snd (classify_exif (H := TreeFS.posix)
               (scanned (H := TreeFS.posix) (mkConfig "r" true "0") Scenario.pair)))
            _ _ _).
  - vm_compute. repeat constructor; simpl; intuition discriminate.
  - left. reflexivity.
  - vm_compute. reflexivity.
Defined.


(** * The passes on a directory tree

  On [TreeFS.posix] the passes are followed down to the disk: where each
  file is when a pass ends.  The statements are about paths as lists of
  components, which is how the tree resolves them. *)

(** ** Paths as lists of components *)

Section Components.
Import PyStr OsPath TreeFS.

Lemma split_sep_append (a b cur : string) :
  split_sep (a ++ String sep b) cur = split_sep a cur ++ split_sep b "".
Proof.
  revert cur. induction a as [|x a IH]; intros cur; simpl.
  - reflexivity.
  - destruct (Ascii.eqb x sep); simpl; now rewrite IH.
Qed.

Lemma components_append_sep (a b : string) :
  components (a ++ String sep b) = components a ++ components b.
Proof. unfold components. now rewrite split_sep_append, filter_app. Qed.

Lemma split_sep_plain (k cur : string) :
  contains sep k = false -> split_sep k cur = [(cur ++ k)%string].
Proof.
  revert cur. induction k as [|x k IH]; intros cur Hk; simpl.
  - now rewrite append_empty_r.
  - simpl in Hk. apply orb_false_iff in Hk. destruct Hk as [Hx Hk].
    rewrite Hx, IH by auto. now rewrite append_assoc.
Qed.

(** A name is its own single component. *)
Lemma components_name (k : string) : valid_name k -> components k = [k].
Proof.
  intros [Hs [He Hd]]. unfold components. rewrite split_sep_plain by auto.
  simpl. apply String.eqb_neq in He, Hd. now rewrite He, Hd.
Qed.

(** The components of [join a b], for a relative [b], are those of [a]
    followed by those of [b]; a trailing separator of [a] adds none. *)
Lemma components_join (a b : string) :
  startswith sep b = false -> components (join a b) = components a ++ components b.
Proof.
  intros Hb. unfold join. rewrite Hb. destruct a as [|x a].
  - reflexivity.
  - cbn [truthy negb orb]. destruct (endswith sep (String x a)) eqn:He.
    + apply endswith_split in He. destruct He as [a' ->].
      rewrite append_assoc. simpl String.append.
      rewrite !components_append_sep. simpl (components "").
      now rewrite app_nil_r.
    + apply components_append_sep.
Qed.

Lemma join_absolute (a b : string) : startswith sep b = true -> join a b = b.
Proof. intros Hb. unfold join. now rewrite Hb. Qed.

Lemma components_join_name (a k : string) :
  valid_name k -> components (join a k) = components a ++ [k].
Proof.
  intros Hk. rewrite components_join by apply contains_startswith, Hk.
  now rewrite (components_name k).
Qed.

Lemma components_all_sep (a z : string) :
  all_char sep z = true -> components (a ++ z) = components a.
Proof.
  revert a. induction z as [|c z IH]; intros a Hz.
  - now rewrite append_empty_r.
  - simpl in Hz. apply andb_true_iff in Hz. destruct Hz as [Hc Hz].
    apply Ascii.eqb_eq in Hc. subst c.
    rewrite components_append_sep.
    pose proof (IH "" Hz) as Hz'. change (components z = []) in Hz'.
    rewrite Hz'. apply app_nil_r.
Qed.

Lemma rstrip_spec (s : string) :
  exists z, s = (rstrip sep s ++ z)%string /\ all_char sep z = true.
Proof.
  induction s as [|x r [z [Hr Hz]]].
  - now exists "".
  - cbn [rstrip]. destruct (rstrip sep r) as [|y r'] eqn:E.
    + simpl in Hr. subst r. destruct (Ascii.eqb x sep) eqn:Hx.
      * exists (String x z). simpl. now rewrite Hx.
      * now exists z.
    + exists z. split; auto. simpl. simpl in Hr. now rewrite <- Hr.
Qed.

(** Trailing separators add no component. *)
Lemma components_rstrip (s : string) : components (rstrip sep s) = components s.
Proof.
  destruct (rstrip_spec s) as [z [Hs Hz]].
  rewrite Hs at 2. now rewrite components_all_sep.
Qed.

Lemma dirname_append_sep (a k : string) :
  contains sep k = false ->
  components (dirname (a ++ String sep k)) = components a.
Proof.
  intros Hk. unfold dirname, rfind. rewrite rfind_from_last by (auto; lia).
  unfold slice_to.
  replace (Z.to_nat (0 + Z.of_nat (String.length a) + 1))
    with (String.length (a ++ String sep "")%string)
    by (rewrite length_append; simpl; lia).
  replace (a ++ String sep k)%string with ((a ++ String sep "") ++ k)%string
    by (now rewrite append_assoc).
  rewrite substring_prefix.
  assert (Hc : components (a ++ String sep "") = components a).
  { rewrite components_append_sep. simpl. now rewrite app_nil_r. }
  destruct (truthy (a ++ String sep "") && negb (all_char sep (a ++ String sep "")));
    [rewrite components_rstrip|]; exact Hc.
Qed.

(** The folder of a file joined to a folder is that folder, as a path. *)
Lemma components_dirname_join (x k : string) :
  contains sep k = false ->
  components (dirname (join x k)) = components x.
Proof.
  intros Hk. unfold join. rewrite contains_startswith by auto.
  destruct x as [|c x].
  - simpl. unfold dirname, rfind. rewrite rfind_from_absent by auto.
    simpl. now destruct k.
  - cbn [truthy negb orb]. destruct (endswith sep (String c x)) eqn:He.
    + apply endswith_split in He. destruct He as [a' ->].
      rewrite append_assoc. simpl String.append.
      rewrite dirname_append_sep by auto.
      rewrite components_append_sep. simpl. now rewrite app_nil_r.
    + now apply dirname_append_sep.
Qed.

Lemma split_sep_no_char (ch : ascii) (s cur c : string) :
  contains ch s = false -> contains ch cur = false ->
  In c (split_sep s cur) -> contains ch c = false.
Proof.
  revert cur. induction s as [|x s IH]; intros cur Hs Hcur Hin; simpl in *.
  - destruct Hin as [<-|[]]. exact Hcur.
  - apply orb_false_iff in Hs. destruct Hs as [Hx Hs].
    destruct (Ascii.eqb x sep).
    + destruct Hin as [<-|Hin]; auto. apply (IH ""); auto.
    + apply (IH (cur ++ String x "")%string); auto.
      rewrite contains_append. simpl. now rewrite Hcur, Hx.
Qed.

Lemma components_no_char (ch : ascii) (s c : string) :
  contains ch s = false -> In c (components s) -> contains ch c = false.
Proof.
  intros Hs Hin. unfold components in Hin. apply filter_In in Hin.
  destruct Hin as [Hin _]. now apply (split_sep_no_char ch s "" c).
Qed.



End Components.

(** ** Lookup, insertion and removal in a tree *)

Section Trees.
Import PyStr OsPath TreeFS.

Lemma lookup_app (n : node) (a b : list string) :
  lookup n (a ++ b)
  = match lookup n a with Some m => lookup m b | None => None end.
Proof.
  revert n. induction a as [|c a IH]; intros n; simpl; auto.
  destruct n as [t|es]; auto. destruct (lookup_entry c es); auto.
Qed.

(** Nothing lies below a regular file, and what lies above a node is a
    directory. *)
Lemma lookup_file_below (n : node) (p r : list string) (t : tags) :
  lookup n p = Some (File t) -> r <> [] -> lookup n (p ++ r) = None.
Proof.
  intros Hp Hr. rewrite lookup_app, Hp. destruct r; [congruence | reflexivity].
Qed.

Lemma lookup_dir_above (n : node) (p r : list string) (m : node) :
  lookup n (p ++ r) = Some m -> r <> [] -> dir_at n p.
Proof.
  intros Hp Hr. rewrite lookup_app in Hp. unfold dir_at.
  destruct (lookup n p) as [[t|es]|]; [| now exists es | discriminate].
  destruct r; [congruence | discriminate].
Qed.

Lemma is_prefix_cons (c c' : string) (p q : list string) :
  is_prefix (c :: p) (c' :: q) <-> c = c' /\ is_prefix p q.
Proof.
  split.
  - intros [r Hr]. injection Hr as -> ->. split; auto. now exists r.
  - intros [-> [r ->]]. now exists r.
Qed.

Lemma is_prefix_nil (q : list string) : is_prefix [] q.
Proof. now exists q. Qed.

Lemma insert_cons2 (c c1 : string) (cd : list string) (es : list (string * node))
    (new : node) :
  insert (Dir es) (c :: c1 :: cd) new
  = match dict_get c es with
    | Some n' => match insert n' (c1 :: cd) new with
                 | Ok n'' => Ok (Dir (dict_set c n'' es))
                 | Raise e => Raise e
                 end
    | None => Raise FileNotFoundError
    end.
Proof. reflexivity. Qed.

Lemma remove_cons2 (c c1 : string) (cs : list string) (es : list (string * node)) :
  remove (Dir es) (c :: c1 :: cs)
  = match dict_get c es with
    | Some n' => Dir (dict_set c (remove n' (c1 :: cs)) es)
    | None => Dir es
    end.
Proof. reflexivity. Qed.

Lemma dict_get_remove_other (c k : string) (es : list (string * node)) :
  k <> c -> dict_get k (remove_entry c es) = dict_get k es.
Proof.
  intros Hne. induction es as [|[c' n] es IH]; simpl; auto.
  destruct (String.eqb c c') eqn:E; simpl.
  - apply String.eqb_eq in E. subst c'.
    destruct (String.eqb k c) eqn:E'; auto.
    apply String.eqb_eq in E'. congruence.
  - now rewrite IH.
Qed.

Lemma dict_get_remove_same (c : string) (es : list (string * node)) :
  NoDup (dict_keys es) -> dict_get c (remove_entry c es) = None.
Proof.
  unfold dict_keys. induction es as [|[c' n] es IH]; simpl; intros Hnd; auto.
  apply NoDup_cons_iff in Hnd. destruct Hnd as [Hc Hnd].
  destruct (String.eqb c c') eqn:E; simpl.
  - apply String.eqb_eq in E. subst c'.
    destruct (dict_get c es) as [v|] eqn:Hg; auto.
    apply dict_get_some_in_keys in Hg. contradiction.
  - rewrite E. auto.
Qed.

Lemma keys_remove_entry (c : string) (es : list (string * node)) :
  NoDup (dict_keys es) -> NoDup (dict_keys (remove_entry c es)).
Proof.
  unfold dict_keys. induction es as [|[c' n] es IH]; simpl; intros Hnd; auto.
  apply NoDup_cons_iff in Hnd. destruct Hnd as [Hc Hnd].
  destruct (String.eqb c c') eqn:E; simpl; auto.
  constructor; auto. intros Hin. apply Hc.
  clear - Hin. induction es as [|[c0 n0] es IH]; simpl in *; auto.
  destruct (String.eqb c c0); simpl in *; auto. destruct Hin; auto.
Qed.

(** *** Directories list each name once *)

Lemma distinct_names_dir (es : list (string * node)) :
  distinct_names (Dir es)
  <-> NoDup (dict_keys es)
      /\ forall c m, dict_get c es = Some m -> distinct_names m.
Proof.
  split.
  - intros Hw. split.
    + apply (Hw [] es). reflexivity.
    + intros c m Hc p es' Hp. apply (Hw (c :: p) es'). simpl.
      unfold lookup_entry. now rewrite Hc.
  - intros [Hnd Hch] p es' Hp. destruct p as [|c p].
    + simpl in Hp. now injection Hp as <-.
    + simpl in Hp. unfold lookup_entry in Hp.
      destruct (dict_get c es) as [m|] eqn:Hc; [|discriminate].
      eapply Hch; eauto.
Qed.

Lemma distinct_names_file (t : tags) : distinct_names (File t).
Proof. intros [|c p] es Hp; discriminate. Qed.

Lemma distinct_names_empty : distinct_names (Dir []).
Proof.
  apply distinct_names_dir. split; [constructor | discriminate].
Qed.

Lemma distinct_names_set (c : string) (m : node) (es : list (string * node)) :
  distinct_names (Dir es) -> distinct_names m ->
  distinct_names (Dir (dict_set c m es)).
Proof.
  intros Hw Hm. apply distinct_names_dir in Hw. destruct Hw as [Hnd Hch].
  apply distinct_names_dir. split.
  - now apply NoDup_dict_set.
  - intros c0 m0 Hget. apply dict_get_set_inv in Hget.
    destruct Hget as [[-> ->]|[_ Hget]]; eauto.
Qed.

Lemma distinct_names_child (c : string) (m : node) (es : list (string * node)) :
  distinct_names (Dir es) -> dict_get c es = Some m -> distinct_names m.
Proof. intros Hw. apply distinct_names_dir in Hw. apply Hw. Qed.

Lemma mkdirs_distinct_names (cs : list string) (n n' : node) :
  distinct_names n -> mkdirs n cs = Ok n' -> distinct_names n'.
Proof.
  revert n n'. induction cs as [|c cs IH]; intros n n' Hw Hmk.
  - destruct n; simpl in Hmk; [discriminate|]. now injection Hmk as <-.
  - destruct n as [t|es]; simpl in Hmk; [discriminate|].
    unfold lookup_entry in Hmk.
    destruct (mkdirs _ cs) as [n''|e] eqn:Hrec; [|discriminate].
    injection Hmk as <-. apply distinct_names_set; auto.
    apply IH in Hrec; auto.
    destruct (dict_get c es) as [m|] eqn:Hc.
    + eapply distinct_names_child; eauto.
    + apply distinct_names_empty.
Qed.

Lemma insert_distinct_names (cd : list string) (n n' new : node) :
  distinct_names n -> distinct_names new -> insert n cd new = Ok n' ->
  distinct_names n'.
Proof.
  revert n n'. induction cd as [|c cd IH]; intros n n' Hw Hnew Hins.
  - simpl in Hins. now injection Hins as <-.
  - destruct n as [t|es]; [destruct cd; simpl in *; discriminate|].
    destruct cd as [|c1 cd].
    + simpl in Hins. injection Hins as <-. now apply distinct_names_set.
    + rewrite insert_cons2 in Hins.
      destruct (dict_get c es) as [m|] eqn:Hc; [|discriminate].
      destruct (insert m (c1 :: cd) new) as [n''|e] eqn:Hrec; [|discriminate].
      injection Hins as <-. apply distinct_names_set; auto.
      apply (IH m n''); auto. eapply distinct_names_child; eauto.
Qed.

Lemma remove_distinct_names (cs : list string) (n : node) :
  distinct_names n -> distinct_names (remove n cs).
Proof.
  revert n. induction cs as [|c cs IH]; intros n Hw.
  - now destruct n.
  - destruct n as [t|es]; [now destruct cs|].
    destruct cs as [|c1 cs].
    + simpl. apply distinct_names_dir in Hw. destruct Hw as [Hnd Hch].
      apply distinct_names_dir. split.
      * now apply keys_remove_entry.
      * intros c0 m Hget. destruct (string_dec c0 c) as [->|Hne].
        -- rewrite dict_get_remove_same in Hget by auto. discriminate.
        -- rewrite dict_get_remove_other in Hget by auto. eauto.
    + rewrite remove_cons2.
      destruct (dict_get c es) as [m|] eqn:Hc; auto.
      apply distinct_names_set; auto. apply IH.
      eapply distinct_names_child; eauto.
Qed.

(** *** What [mkdirs] keeps and adds *)

Lemma mkdirs_keeps_files (cs : list string) (n n' : node) (p : list string) (t : tags) :
  mkdirs n cs = Ok n' -> lookup n p = Some (File t) -> lookup n' p = Some (File t).
Proof.
  revert n n' p. induction cs as [|c cs IH]; intros n n' p Hmk Hp.
  - destruct n; simpl in Hmk; [discriminate|]. now injection Hmk as <-.
  - destruct n as [t0|es]; simpl in Hmk; [discriminate|].
    unfold lookup_entry in Hmk.
    destruct (mkdirs _ cs) as [n''|e] eqn:Hrec; [|discriminate].
    injection Hmk as <-. destruct p as [|c0 p]; [discriminate|].
    simpl in *. unfold lookup_entry in *.
    destruct (string_dec c0 c) as [->|Hne].
    + rewrite dict_get_set_same.
      destruct (dict_get c es) as [m|]; [|discriminate]. eauto.
    + rewrite dict_get_set_other by congruence. exact Hp.
Qed.

(** [mkdirs] keeps the directories there are, and makes the one asked
    for. *)
Lemma mkdirs_keeps_dirs (cs : list string) (n n' : node) (p : list string) :
  mkdirs n cs = Ok n' -> dir_at n p -> dir_at n' p.
Proof.
  revert n n' p. induction cs as [|c cs IH]; intros n n' p Hmk Hp.
  - destruct n; simpl in Hmk; [discriminate|]. now injection Hmk as <-.
  - destruct n as [t0|es]; simpl in Hmk; [discriminate|].
    unfold lookup_entry in Hmk.
    destruct (mkdirs _ cs) as [n''|e] eqn:Hrec; [|discriminate].
    injection Hmk as <-. destruct p as [|c0 p]; [eexists; reflexivity|].
    destruct Hp as [es' Hp]. unfold dir_at. simpl in *. unfold lookup_entry in *.
    destruct (string_dec c0 c) as [->|Hne].
    + rewrite dict_get_set_same.
      destruct (dict_get c es) as [m|]; [|discriminate].
      apply (IH m n'' p Hrec). now exists es'.
    + rewrite dict_get_set_other by congruence. now exists es'.
Qed.

Lemma mkdirs_makes_dir (cs : list string) (n n' : node) :
  mkdirs n cs = Ok n' -> dir_at n' cs.
Proof.
  revert n n'. induction cs as [|c cs IH]; intros n n' Hmk.
  - destruct n as [|es]; simpl in Hmk; [discriminate|]. injection Hmk as <-.
    now exists es.
  - destruct n as [t0|es]; simpl in Hmk; [discriminate|].
    unfold lookup_entry in Hmk.
    destruct (mkdirs _ cs) as [n''|e] eqn:Hrec; [|discriminate].
    injection Hmk as <-. unfold dir_at. simpl. unfold lookup_entry.
    rewrite dict_get_set_same. eapply IH; eauto.
Qed.

Lemma mkdirs_dirs (cs : list string) (n n' : node) (p : list string) :
  mkdirs n cs = Ok n' -> dir_at n' p -> dir_at n p \/ is_prefix p cs.
Proof.
  revert n n' p. induction cs as [|c cs IH]; intros n n' p Hmk Hp.
  - destruct n; simpl in Hmk; [discriminate|]. injection Hmk as <-. now left.
  - destruct n as [t0|es]; simpl in Hmk; [discriminate|].
    unfold lookup_entry in Hmk.
    destruct (mkdirs _ cs) as [n''|e] eqn:Hrec; [|discriminate].
    injection Hmk as <-. destruct p as [|c0 p].
    { left. now exists es. }
    destruct Hp as [es' Hp]. simpl in Hp. unfold lookup_entry in Hp.
    destruct (string_dec c0 c) as [->|Hne].
    + rewrite dict_get_set_same in Hp.
      destruct (IH _ n'' p Hrec (ex_intro _ es' Hp)) as [[es0 H0]|Hpre].
      * destruct (dict_get c es) as [m|] eqn:Hc.
        -- left. exists es0. simpl. unfold lookup_entry. now rewrite Hc.
        -- right. destruct p as [|c1 p]; [|discriminate].
           exists cs. reflexivity.
      * right. apply is_prefix_cons. now split.
    + rewrite dict_get_set_other in Hp by congruence.
      left. exists es'. exact Hp.
Qed.

Lemma mkdirs_keeps_none (cs : list string) (n n' : node) (p : list string) :
  mkdirs n cs = Ok n' -> lookup n p = None -> ~ is_prefix p cs ->
  lookup n' p = None.
Proof.
  revert n n' p. induction cs as [|c cs IH]; intros n n' p Hmk Hp Hpre.
  - destruct n; simpl in Hmk; [discriminate|]. now injection Hmk as <-.
  - destruct n as [t0|es]; simpl in Hmk; [discriminate|].
    unfold lookup_entry in Hmk.
    destruct (mkdirs _ cs) as [n''|e] eqn:Hrec; [|discriminate].
    injection Hmk as <-. destruct p as [|c0 p]; [discriminate|].
    simpl in *. unfold lookup_entry in *.
    destruct (string_dec c0 c) as [->|Hne].
    + rewrite dict_get_set_same.
      assert (Hp' : ~ is_prefix p cs).
      { intros H. apply Hpre. apply is_prefix_cons. now split. }
      destruct (dict_get c es) as [m|]; [eauto|].
      apply (IH (Dir []) n'' p Hrec); auto.
      destruct p; [|reflexivity].
      exfalso. apply Hp'. apply is_prefix_nil.
    + rewrite dict_get_set_other by congruence. exact Hp.
Qed.

(** *** What [remove] keeps *)

Lemma remove_keeps_files (cs : list string) (n : node) (p : list string) (t : tags) :
  lookup n p = Some (File t) -> ~ is_prefix cs p ->
  lookup (remove n cs) p = Some (File t).
Proof.
  revert n p. induction cs as [|c cs IH]; intros n p Hp Hpre.
  - now destruct n.
  - destruct n as [t0|es]; [now destruct cs|].
    destruct p as [|c0 p]; [discriminate|].
    simpl in Hp. unfold lookup_entry in Hp.
    assert (Hcase : c0 <> c \/ (c0 = c /\ ~ is_prefix cs p)).
    { destruct (string_dec c0 c) as [->|]; auto. right. split; auto.
      intros H. apply Hpre. apply is_prefix_cons. now split. }
    destruct cs as [|c1 cs].
    + simpl. unfold lookup_entry.
      destruct Hcase as [Hne|[_ Hno]];
        [|exfalso; apply Hno; apply is_prefix_nil].
      now rewrite dict_get_remove_other.
    + rewrite remove_cons2.
      destruct (dict_get c es) as [m|] eqn:Hc.
      * simpl. unfold lookup_entry.
        destruct Hcase as [Hne|[-> Hno]].
        -- rewrite dict_get_set_other by congruence. exact Hp.
        -- rewrite dict_get_set_same. rewrite Hc in Hp. now apply IH.
      * simpl. unfold lookup_entry. exact Hp.
Qed.

Lemma remove_keeps_dirs (cs : list string) (n : node) (p : list string) :
  dir_at n p -> ~ is_prefix cs p -> dir_at (remove n cs) p.
Proof.
  revert n p. induction cs as [|c cs IH]; intros n p Hp Hpre.
  - now destruct n.
  - destruct n as [t0|es]; [now destruct cs|].
    destruct p as [|c0 p].
    { destruct cs as [|c1 cs]; simpl.
      - eexists; reflexivity.
      - unfold lookup_entry. destruct (dict_get c es); eexists; reflexivity. }
    destruct Hp as [es' Hp]. simpl in Hp. unfold lookup_entry in Hp.
    assert (Hcase : c0 <> c \/ (c0 = c /\ ~ is_prefix cs p)).
    { destruct (string_dec c0 c) as [->|]; auto. right. split; auto.
      intros H. apply Hpre. apply is_prefix_cons. now split. }
    unfold dir_at. destruct cs as [|c1 cs].
    + simpl. unfold lookup_entry.
      destruct Hcase as [Hne|[_ Hno]];
        [|exfalso; apply Hno; apply is_prefix_nil].
      rewrite dict_get_remove_other by auto. now exists es'.
    + rewrite remove_cons2.
      destruct (dict_get c es) as [m|] eqn:Hc.
      * simpl. unfold lookup_entry.
        destruct Hcase as [Hne|[-> Hno]].
        -- rewrite dict_get_set_other by congruence. now exists es'.
        -- rewrite dict_get_set_same. rewrite Hc in Hp.
           apply (IH m p); auto. now exists es'.
      * simpl. unfold lookup_entry. now exists es'.
Qed.

Lemma remove_dirs (cs : list string) (n : node) (p : list string) :
  distinct_names n -> dir_at (remove n cs) p -> dir_at n p.
Proof.
  revert n p. induction cs as [|c cs IH]; intros n p Hw Hp.
  - now destruct n.
  - destruct n as [t0|es]; [now destruct cs|].
    destruct p as [|c0 p]; [eexists; reflexivity|].
    destruct Hp as [es' Hp]. unfold dir_at. simpl. unfold lookup_entry.
    destruct cs as [|c1 cs].
    + simpl in Hp. unfold lookup_entry in Hp.
      destruct (string_dec c0 c) as [->|Hne].
      * rewrite dict_get_remove_same in Hp; [discriminate|].
        now apply distinct_names_dir in Hw.
      * rewrite dict_get_remove_other in Hp by auto. now exists es'.
    + rewrite remove_cons2 in Hp.
      destruct (dict_get c es) as [m|] eqn:Hc.
      * simpl in Hp. unfold lookup_entry in Hp.
        destruct (string_dec c0 c) as [->|Hne].
        -- rewrite dict_get_set_same in Hp. rewrite Hc.
           apply (IH m p); [eapply distinct_names_child; eauto | now exists es'].
        -- rewrite dict_get_set_other in Hp by congruence. now exists es'.
      * simpl in Hp. unfold lookup_entry in Hp. now exists es'.
Qed.

Lemma remove_keeps_none (cs : list string) (n : node) (p : list string) :
  distinct_names n -> lookup n p = None -> lookup (remove n cs) p = None.
Proof.
  revert n p. induction cs as [|c cs IH]; intros n p Hw Hp.
  - now destruct n.
  - destruct n as [t0|es]; [now destruct cs|].
    destruct p as [|c0 p]; [discriminate|].
    simpl in Hp. unfold lookup_entry in Hp.
    destruct cs as [|c1 cs].
    + simpl. unfold lookup_entry.
      destruct (string_dec c0 c) as [->|Hne].
      * rewrite dict_get_remove_same; auto. now apply distinct_names_dir in Hw.
      * now rewrite dict_get_remove_other.
    + rewrite remove_cons2.
      destruct (dict_get c es) as [m|] eqn:Hc.
      * simpl. unfold lookup_entry.
        destruct (string_dec c0 c) as [->|Hne].
        -- rewrite dict_get_set_same. rewrite Hc in Hp.
           apply IH; auto. eapply distinct_names_child; eauto.
        -- rewrite dict_get_set_other by congruence. exact Hp.
      * simpl. unfold lookup_entry. exact Hp.
Qed.

(** Where every directory lists each name once, the path that [remove]
    unlinks is free afterwards. *)
Lemma remove_unlinks (cs : list string) (n : node) (m : node) :
  distinct_names n -> cs <> [] -> lookup n cs = Some m ->
  lookup (remove n cs) cs = None.
Proof.
  revert n. induction cs as [|c cs IH]; intros n Hw Hne Hp; [congruence|].
  destruct n as [t0|es]; [simpl in *; discriminate|].
  simpl in Hp. unfold lookup_entry in Hp.
  destruct (dict_get c es) as [m0|] eqn:Hc; [|discriminate].
  destruct cs as [|c1 cs].
  - simpl. unfold lookup_entry. rewrite dict_get_remove_same; auto.
    now apply distinct_names_dir in Hw.
  - rewrite remove_cons2. rewrite Hc.
    cbn [lookup]. unfold lookup_entry. rewrite dict_get_set_same.
    apply IH; auto; [eapply distinct_names_child; eauto | discriminate].
Qed.

(** *** What [insert] keeps and adds *)

Lemma insert_links (cd : list string) (n n' new : node) :
  insert n cd new = Ok n' -> lookup n' cd = Some new.
Proof.
  revert n n'. induction cd as [|c cd IH]; intros n n' Hins.
  - simpl in Hins. now injection Hins as <-.
  - destruct n as [t0|es]; [destruct cd; simpl in *; discriminate|].
    destruct cd as [|c1 cd].
    + simpl in Hins. injection Hins as <-. simpl. unfold lookup_entry.
      now rewrite dict_get_set_same.
    + rewrite insert_cons2 in Hins.
      destruct (dict_get c es) as [m|] eqn:Hc; [|discriminate].
      destruct (insert m (c1 :: cd) new) as [n''|e] eqn:Hrec; [|discriminate].
      injection Hins as <-. cbn [lookup]. unfold lookup_entry.
      rewrite dict_get_set_same. now apply (IH m).
Qed.

(** [insert] succeeds in a directory that exists. *)
Lemma insert_succeeds (parent : list string) (c : string) (n new : node) :
  dir_at n parent -> exists n', insert n (parent ++ [c]) new = Ok n'.
Proof.
  revert n. induction parent as [|c0 q IH]; intros n [es Hp].
  - simpl in Hp. injection Hp as ->. simpl. eauto.
  - destruct n as [t0|es0]; [simpl in *; discriminate|].
    simpl in Hp. unfold lookup_entry in Hp.
    destruct (dict_get c0 es0) as [m|] eqn:Hc; [|discriminate].
    destruct (IH m (ex_intro _ es Hp)) as [n'' Hrec].
    simpl app. destruct (q ++ [c]) as [|c1 r] eqn:Hq.
    { now destruct q. }
    rewrite insert_cons2, Hc, Hrec. eauto.
Qed.

Lemma insert_keeps_files (cd : list string) (n n' new : node) (p : list string)
    (t : tags) :
  insert n cd new = Ok n' -> lookup n p = Some (File t) -> ~ is_prefix cd p ->
  lookup n' p = Some (File t).
Proof.
  revert n n' p. induction cd as [|c cd IH]; intros n n' p Hins Hp Hpre.
  - exfalso. apply Hpre, is_prefix_nil.
  - destruct n as [t0|es]; [destruct cd; simpl in *; discriminate|].
    destruct p as [|c0 p]; [discriminate|].
    simpl in Hp. unfold lookup_entry in Hp.
    assert (Hcase : c0 <> c \/ (c0 = c /\ ~ is_prefix cd p)).
    { destruct (string_dec c0 c) as [->|]; auto. right. split; auto.
      intros H. apply Hpre. apply is_prefix_cons. now split. }
    destruct cd as [|c1 cd].
    + simpl in Hins. injection Hins as <-. simpl. unfold lookup_entry.
      destruct Hcase as [Hne|[_ Hno]];
        [|exfalso; apply Hno; apply is_prefix_nil].
      now rewrite dict_get_set_other by congruence.
    + rewrite insert_cons2 in Hins.
      destruct (dict_get c es) as [m|] eqn:Hc; [|discriminate].
      destruct (insert m (c1 :: cd) new) as [n''|e] eqn:Hrec; [|discriminate].
      injection Hins as <-. cbn [lookup]. unfold lookup_entry.
      destruct Hcase as [Hne|[-> Hno]].
      * now rewrite dict_get_set_other by congruence.
      * rewrite dict_get_set_same. rewrite Hc in Hp. eauto.
Qed.

Lemma insert_keeps_dirs (cd : list string) (n n' new : node) (p : list string) :
  insert n cd new = Ok n' -> dir_at n p -> ~ is_prefix cd p -> dir_at n' p.
Proof.
  revert n n' p. induction cd as [|c cd IH]; intros n n' p Hins Hp Hpre.
  - exfalso. apply Hpre, is_prefix_nil.
  - destruct n as [t0|es]; [destruct cd; simpl in *; discriminate|].
    assert (Hn' : exists es', n' = Dir es').
    { destruct cd as [|c1 cd].
      - simpl in Hins. injection Hins as <-. eauto.
      - rewrite insert_cons2 in Hins.
        destruct (dict_get c es); [|discriminate].
        destruct (insert _ (c1 :: cd) new); [|discriminate].
        injection Hins as <-. eauto. }
    destruct p as [|c0 p].
    { destruct Hn' as [es' ->]. now exists es'. }
    destruct Hp as [esp Hp]. simpl in Hp. unfold lookup_entry in Hp.
    assert (Hcase : c0 <> c \/ (c0 = c /\ ~ is_prefix cd p)).
    { destruct (string_dec c0 c) as [->|]; auto. right. split; auto.
      intros H. apply Hpre. apply is_prefix_cons. now split. }
    unfold dir_at. destruct cd as [|c1 cd].
    + simpl in Hins. injection Hins as <-. simpl. unfold lookup_entry.
      destruct Hcase as [Hne|[_ Hno]];
        [|exfalso; apply Hno; apply is_prefix_nil].
      rewrite dict_get_set_other by congruence. now exists esp.
    + rewrite insert_cons2 in Hins.
      destruct (dict_get c es) as [m|] eqn:Hc; [|discriminate].
      destruct (insert m (c1 :: cd) new) as [n''|e] eqn:Hrec; [|discriminate].
      injection Hins as <-. cbn [lookup]. unfold lookup_entry.
      destruct Hcase as [Hne|[-> Hno]].
      * rewrite dict_get_set_other by congruence. now exists esp.
      * rewrite dict_get_set_same. rewrite Hc in Hp.
        apply (IH m n'' p); auto. now exists esp.
Qed.

Lemma insert_file_dirs (cd : list string) (n n' : node) (t : tags) (p : list string) :
  insert n cd (File t) = Ok n' -> dir_at n' p -> dir_at n p.
Proof.
  revert n n' p. induction cd as [|c cd IH]; intros n n' p Hins [es' Hp].
  - simpl in Hins. injection Hins as <-. destruct p; discriminate.
  - destruct n as [t0|es]; [destruct cd; simpl in *; discriminate|].
    destruct p as [|c0 p]; [eexists; reflexivity|].
    unfold dir_at. simpl. unfold lookup_entry.
    destruct cd as [|c1 cd].
    + simpl in Hins. injection Hins as <-. simpl in Hp. unfold lookup_entry in Hp.
      destruct (string_dec c0 c) as [->|Hne].
      * rewrite dict_get_set_same in Hp. destruct p; discriminate.
      * rewrite dict_get_set_other in Hp by congruence. now exists es'.
    + rewrite insert_cons2 in Hins.
      destruct (dict_get c es) as [m|] eqn:Hc; [|discriminate].
      destruct (insert m (c1 :: cd) (File t)) as [n''|e] eqn:Hrec; [|discriminate].
      injection Hins as <-. cbn [lookup] in Hp. unfold lookup_entry in Hp.
      destruct (string_dec c0 c) as [->|Hne].
      * rewrite dict_get_set_same in Hp. rewrite Hc.
        apply (IH m n'' p Hrec). now exists es'.
      * rewrite dict_get_set_other in Hp by congruence. now exists es'.
Qed.

Lemma insert_file_keeps_none (cd : list string) (n n' : node) (t : tags)
    (p : list string) :
  insert n cd (File t) = Ok n' -> lookup n p = None -> p <> cd ->
  lookup n' p = None.
Proof.
  revert n n' p. induction cd as [|c cd IH]; intros n n' p Hins Hp Hne.
  - simpl in Hins. injection Hins as <-. destruct p; [congruence | reflexivity].
  - destruct n as [t0|es]; [destruct cd; simpl in *; discriminate|].
    destruct p as [|c0 p]; [discriminate|].
    simpl in Hp. unfold lookup_entry in Hp.
    destruct cd as [|c1 cd].
    + simpl in Hins. injection Hins as <-. simpl. unfold lookup_entry.
      destruct (string_dec c0 c) as [->|Hc0].
      * rewrite dict_get_set_same. destruct p; [congruence | reflexivity].
      * now rewrite dict_get_set_other by congruence.
    + rewrite insert_cons2 in Hins.
      destruct (dict_get c es) as [m|] eqn:Hc; [|discriminate].
      destruct (insert m (c1 :: cd) (File t)) as [n''|e] eqn:Hrec; [|discriminate].
      injection Hins as <-. cbn [lookup]. unfold lookup_entry.
      destruct (string_dec c0 c) as [->|Hc0].
      * rewrite dict_get_set_same. rewrite Hc in Hp.
        apply (IH m n'' p); auto. congruence.
      * now rewrite dict_get_set_other by congruence.
Qed.

End Trees.

(** ** Moving one file *)

Section Relocate.
Import PyStr OsPath TreeFS.
Variable K : list string.
Hypothesis K_valid : forall k, In k K -> valid_name k.

Lemma apart_join (a b : string) : apart K a -> apart K b -> apart K (join a b).
Proof.
  intros Ha Hb c Hc. destruct (startswith sep b) eqn:E.
  - rewrite join_absolute in Hc by auto. now apply Hb.
  - rewrite components_join in Hc by auto. apply in_app_or in Hc.
    destruct Hc; [now apply Ha | now apply Hb].
Qed.

(** The move of a regular file to a path that is not a directory, in a
    directory that exists, succeeds: the file is linked at the
    destination and unlinked at the source. *)
Lemma tree_move_file (d : node) (src dst : string) (t : tags)
    (parent : list string) (k : string) :
  distinct_names d ->
  lookup d (components src) = Some (File t) ->
  components dst = parent ++ [k] ->
  dir_at d parent ->
  ~ dir_at d (components dst) ->
  exists d', tree_move true src dst d = Ok d'
    /\ distinct_names d'
    /\ lookup d' (components dst) = Some (File t)
    /\ (forall p, dir_at d' p -> dir_at d p)
    /\ (forall p, dir_at d p -> dir_at d' p)
    /\ (forall p t', lookup d p = Some (File t') ->
          p <> components src -> p <> components dst ->
          lookup d' p = Some (File t'))
    /\ (forall p, lookup d p = None -> p <> components dst -> lookup d' p = None)
    /\ (components src <> components dst -> lookup d' (components src) = None).
Proof.
  intros Hw Hsrc Hdst Hpar Hnd.
  assert (Hisd : is_dir (lookup d (components dst)) = false).
  { destruct (lookup d (components dst)) as [[|es]|] eqn:E; auto.
    exfalso. apply Hnd. now exists es. }
  assert (Hbelow : forall p, is_prefix (components src) p ->
            p = components src \/ lookup d p = None).
  { intros p [r ->]. destruct r as [|c r].
    - left. now rewrite app_nil_r.
    - right. eapply lookup_file_below; eauto. discriminate. }
  assert (Hunder : forall p m, is_prefix (components dst) p ->
            lookup d p = Some m -> p = components dst).
  { intros p m [r ->] Hp. destruct r as [|c r].
    - now rewrite app_nil_r.
    - exfalso. apply Hnd. eapply lookup_dir_above; eauto. discriminate. }
  unfold tree_move. cbv zeta. rewrite Hisd. cbn [andb]. rewrite Hsrc.
  unfold list_eqb.
  destruct (list_eq_dec string_dec (components src) (components dst)) as [Heq|Hne].
  { exists d. repeat split; auto. - now rewrite <- Heq. - congruence. }
  set (r := remove d (components src)).
  assert (Hr : dir_at r parent).
  { apply remove_keeps_dirs; auto. intros Hpre.
    destruct (Hbelow _ Hpre) as [Heq|Hnone]; destruct Hpar as [es Hes];
      congruence. }
  destruct (insert_succeeds parent k r (File t) Hr) as [d' Hins].
  rewrite <- Hdst in Hins.
  assert (Hgoal : insert r (components dst) (File t) = Ok d' ->
    distinct_names d'
    /\ lookup d' (components dst) = Some (File t)
    /\ (forall p, dir_at d' p -> dir_at d p)
    /\ (forall p, dir_at d p -> dir_at d' p)
    /\ (forall p t', lookup d p = Some (File t') ->
          p <> components src -> p <> components dst ->
          lookup d' p = Some (File t'))
    /\ (forall p, lookup d p = None -> p <> components dst -> lookup d' p = None)
    /\ (components src <> components dst -> lookup d' (components src) = None)).
  { intros _. split; [|split; [|split; [|split; [|split; [|split]]]]].
    - eapply insert_distinct_names; [| |exact Hins].
      + now apply remove_distinct_names.
      + apply distinct_names_file.
    - now apply (insert_links _ r).
    - intros p Hp. apply (remove_dirs (components src)); auto.
      eapply insert_file_dirs; eauto.
    - intros p Hp. eapply insert_keeps_dirs; [exact Hins| |].
      + apply remove_keeps_dirs; auto. intros Hpre.
        destruct (Hbelow _ Hpre) as [Heq|Hnone]; destruct Hp as [es Hes];
          congruence.
      + intros Hpre. destruct Hp as [es Hes]. apply Hnd.
        rewrite <- (Hunder p _ Hpre Hes). now exists es.
    - intros p t' Hp Hs Hd. eapply insert_keeps_files; [exact Hins| |].
      + apply remove_keeps_files; auto. intros Hpre.
        destruct (Hbelow _ Hpre); congruence.
      + intros Hpre. apply Hd. eapply Hunder; eauto.
    - intros p Hp Hd. eapply insert_file_keeps_none; [exact Hins| |auto].
      now apply remove_keeps_none.
    - intros _. eapply insert_file_keeps_none; [exact Hins| |auto].
      apply (remove_unlinks _ _ (File t)); auto.
      intros Hnil. rewrite Hnil in Hsrc. simpl in Hsrc. injection Hsrc as ->.
      destruct Hpar as [es Hes]. destruct parent; discriminate. }
  destruct (lookup d (components dst)) as [[t0|es]|] eqn:Hd.
  - exists d'. split; auto.
  - exfalso. apply Hnd. now exists es.
  - exists d'. split; auto.
Qed.

(** One relocation: the folder is made, then the file is moved into it. *)
Lemma relocate (d : node) (k x folder : string) (t : tags) :
  In k K -> distinct_names d -> no_dir_named K d ->
  file_at d (join x k) t -> apart K folder ->
  match tree_makedirs folder d with
  | Raise _ => True
  | Ok d1 =>
      exists d2,
        tree_move true (join x k) (join folder k) d1 = Ok d2
        /\ distinct_names d2 /\ no_dir_named K d2
        /\ settled K k d d2
        /\ relocated k (join x k) folder t d d2
  end.
Proof.
  intros Hk Hw Hno Hfile Hfolder. unfold tree_makedirs.
  destruct (mkdirs d (components folder)) as [d1|e] eqn:Hmk; auto.
  pose proof (K_valid k Hk) as Hvalid.
  assert (Hsrc : components (join x k) = components x ++ [k])
    by now apply components_join_name.
  assert (Hdst : components (join folder k) = components folder ++ [k])
    by now apply components_join_name.
  assert (Hno1 : no_dir_named K d1).
  { intros p es Hp c Hc.
    destruct (mkdirs_dirs _ _ _ p Hmk (ex_intro _ es Hp)) as [[es0 H0]|[r Hr]].
    - eapply Hno; eauto.
    - apply Hfolder. rewrite Hr. apply in_or_app. now left. }
  assert (Hnd : ~ dir_at d1 (components (join folder k))).
  { intros [es Hes]. apply (Hno1 _ _ Hes k); auto.
    rewrite Hdst. apply in_or_app. right. now left. }
  destruct (tree_move_file d1 (join x k) (join folder k) t (components folder) k)
    as [d2 [Hmv [Hw2 [Hat [Hsub [Hkeep [Hfiles [Hnone Hgone]]]]]]]]; auto.
  { eapply mkdirs_distinct_names; eauto. }
  { eapply mkdirs_keeps_files; eauto. }
  { eapply mkdirs_makes_dir; eauto. }
  exists d2. split; [exact Hmv|]. split; [exact Hw2|]. split; [|split].
  - intros p es Hp c Hc. destruct (Hsub p (ex_intro _ es Hp)) as [es1 H1].
    eapply Hno1; eauto.
  - split; [|split].
    + intros p Hp. apply Hkeep. eapply mkdirs_keeps_dirs; eauto.
    + intros p c t' Hc Hp. apply Hfiles.
      * eapply mkdirs_keeps_files; eauto.
      * rewrite Hsrc. intros Heq. apply app_inj_tail in Heq. now destruct Heq.
      * rewrite Hdst. intros Heq. apply app_inj_tail in Heq. now destruct Heq.
    + intros p c Hc Hck Hp. apply Hnone.
      * eapply mkdirs_keeps_none; eauto. intros [r Hr].
        apply (Hfolder c); auto. rewrite Hr. apply in_or_app. left.
        apply in_or_app. right. now left.
      * rewrite Hdst. intros Heq. apply app_inj_tail in Heq. now destruct Heq.
  - split; [exact Hat|]. split; [|split].
    + apply Hkeep. eapply mkdirs_makes_dir; eauto.
    + rewrite <- Hdst. exact Hgone.
    + intros p Hne Hp. apply Hnone.
      * eapply mkdirs_keeps_none; eauto. intros [r Hr].
        apply (Hfolder k); auto. rewrite Hr. apply in_or_app. left.
        apply in_or_app. right. now left.
      * now rewrite Hdst.
Qed.

Lemma settled_refl (k : string) (d : node) : settled K k d d.
Proof. repeat split; auto. Qed.

(** The state after a relocation that succeeded. *)
Lemma tracked_relocated (s : state node) (k x folder : string) (info info' : FileInfo)
    (t : tags) (d2 : node) (l : list event) :
  tracked K s ->
  dict_get k (file_info (self s)) = Some info ->
  Path info = join x k ->
  distinct_names d2 -> no_dir_named K d2 -> settled K k (disk s) d2 ->
  file_at d2 (join folder k) t ->
  Path info' = join folder k ->
  apart K (Folder info') -> ext info' = ext info ->
  tracked K
    (mkState (with_file_info (dict_set k info' (file_info (self s))) (self s)) d2 l).
Proof.
  intros [Hw [Hno [Hrec Hex]]] Hget Hpath Hw2 Hno2 [_ [Hfiles _]] Hat Hp' Hf' He'.
  destruct (Hrec k info Hget) as [Hk [_ [_ [_ Hext]]]].
  split; [exact Hw2|]. split; [exact Hno2|]. split; [|exact Hex].
  simpl. intros k' i' Hget'. apply dict_get_set_inv in Hget'.
  destruct Hget' as [[-> ->]|[Hne Hget']].
  - split; [exact Hk|]. split; [now exists folder|]. split; [|split]; auto.
    + exists t. unfold file_at. now rewrite Hp'.
    + now rewrite He'.
  - destruct (Hrec k' i' Hget') as [Hk' [[x' Hx'] [[t' Ht'] [Hfo Hex']]]].
    split; [exact Hk'|]. split; [now exists x'|]. split; [|split]; auto.
    exists t'. unfold file_at in *. rewrite Hx' in *.
    rewrite components_join_name in * by auto. now apply Hfiles.
Qed.

Lemma tracked_log (s : state node) (l : list event) :
  tracked K s -> tracked K (mkState (self s) (disk s) l).
Proof. intros H. exact H. Qed.

End Relocate.

(** ** One step of each pass, on the disk *)

Section PosixSteps.
Import PyStr OsPath TreeFS.
Variable K : list string.
Hypothesis K_valid : forall k, In k K -> valid_name k.

Lemma posix_makedirs (p : string) (d : node) :
  os_makedirs (FileSystem := posix) p d = tree_makedirs p d.
Proof. reflexivity. Qed.

Lemma posix_move (src dst : string) (d : node) :
  shutil_move (FileSystem := posix) src dst d = tree_move true src dst d.
Proof. reflexivity. Qed.

Lemma file_at_inj (d : node) (path : string) (t t' : tags) :
  file_at d path t -> file_at d path t' -> t = t'.
Proof. unfold file_at. congruence. Qed.

Lemma apart_above (d : node) (x k : string) (t : tags) :
  valid_name k -> no_dir_named K d -> file_at d (join x k) t -> apart K x.
Proof.
  intros Hk Hno Hfile c Hc. unfold file_at in Hfile.
  rewrite components_join_name in Hfile by auto.
  destruct (lookup_dir_above d (components x) [k] _ Hfile) as [es Hes];
    [discriminate|].
  eapply Hno; eauto.
Qed.

(** One step of the extension pass on a tree. *)
Lemma classify_expand_name_file_posix (k : string) (s : state node) :
  tracked K s ->
  let r := classify_expand_name_file (H := posix) k s in
  tracked K (snd r) /\ settled K k (disk s) (disk (snd r))
  /\ forall info, dict_get k (file_info (self s)) = Some info ->
       let folder := join (Folder info) (ext info) in
       step_moves k (Path info) folder (with_Path (join folder k) info) s r.
Proof.
  intros Ht r. unfold r. clear r.
  destruct (dict_get k (file_info (self s))) as [info|] eqn:Hget.
  2: { rewrite classify_expand_name_file_missing by auto.
       split; [exact Ht|]. split; [apply settled_refl | discriminate]. }
  pose proof Ht as [Hw [Hno [Hrec Hex]]].
  destruct (Hrec k info Hget) as [Hk [[x Hx] [[t Hfile] [Hfo Hext]]]].
  rewrite (classify_expand_name_file_cases s k info Hget). cbv zeta.
  rewrite posix_makedirs.
  set (folder := join (Folder info) (ext info)).
  assert (Hfolder : apart K folder) by now apply apart_join.
  rewrite Hx in Hfile.
  pose proof (relocate K K_valid (disk s) k x folder t Hk Hw Hno Hfile Hfolder) as Hrel.
  destruct (tree_makedirs folder (disk s)) as [d1|e1].
  2: { split; [exact Ht|]. split; [apply settled_refl|].
       intros i Hi. exact I. }
  destruct Hrel as [d2 [Hmv [Hw2 [Hno2 [Hset Hrel]]]]].
  rewrite posix_move, Hx, Hmv. cbn [snd disk].
  split; [|split].
  - apply (tracked_relocated K K_valid s k x folder info
             (with_Path (join folder k) info) t d2 _ Ht Hget Hx Hw2 Hno2 Hset);
      [apply Hrel | reflexivity | exact Hfo | reflexivity].
  - exact Hset.
  - intros i Hi. injection Hi as <-. cbv zeta. fold folder. rewrite Hx.
    split; [reflexivity|]. split.
    + cbn [self file_info with_file_info]. now rewrite dict_get_set_same.
    + intros t' Ht'. cbn [disk].
      now rewrite <- (file_at_inj _ _ _ _ Hfile Ht').
Qed.

(** One step of the EXIF pass on a tree. *)
Lemma classify_exif_file_posix (k : string) (s : state node) :
  tracked K s ->
  let r := classify_exif_file (H := posix) k s in
  tracked K (snd r) /\ settled K k (disk s) (disk (snd r))
  /\ forall info e seg,
       dict_get k (file_info (self s)) = Some info ->
       dict_get (fst (splitext k)) (exif_dic (self s)) = Some e ->
       exif_segment (exif_classify_mode (self s)) e = Some seg ->
       let folder := join (dirname (Path info)) seg in
       step_moves k (Path info) folder
         (with_Folder folder (with_Path (join folder k) info)) s r.
Proof.
  intros Ht r. unfold r. clear r.
  destruct (dict_get (fst (splitext k)) (exif_dic (self s))) as [e|] eqn:He.
  2: { rewrite classify_exif_file_skip by (unfold dict_mem; now rewrite He).
       split; [exact Ht|]. split; [apply settled_refl | discriminate]. }
  assert (Hmem : dict_mem (fst (splitext k)) (exif_dic (self s)) = true)
    by (unfold dict_mem; now rewrite He).
  destruct (dict_get k (file_info (self s))) as [info|] eqn:Hget.
  2: { rewrite classify_exif_file_missing by auto.
       split; [exact Ht|]. split; [apply settled_refl | discriminate]. }
  pose proof Ht as [Hw [Hno [Hrec Hex]]].
  destruct (Hrec k info Hget) as [Hk [[x Hx] [[t Hfile] [Hfo Hext]]]].
  destruct (exif_segment (exif_classify_mode (self s)) e) as [seg|] eqn:Hseg.
  - rewrite (classify_exif_file_cases s k seg info e He Hget Hseg). cbv zeta.
    rewrite posix_makedirs.
    set (folder := join (dirname (Path info)) seg).
    rewrite Hx in Hfile.
    assert (Hfolder : apart K folder).
    { apply apart_join; [|eapply Hex; eauto].
      intros c Hc. rewrite Hx, components_dirname_join in Hc
        by apply (K_valid k Hk).
      eapply apart_above; eauto. }
    pose proof (relocate K K_valid (disk s) k x folder t Hk Hw Hno Hfile Hfolder)
      as Hrel.
    destruct (tree_makedirs folder (disk s)) as [d1|e1].
    2: { split; [exact Ht|]. split; [apply settled_refl|].
         intros i e0 sg Hi He0 Hsg. exact I. }
    destruct Hrel as [d2 [Hmv [Hw2 [Hno2 [Hset Hrel]]]]].
    rewrite posix_move, Hx, Hmv. cbn [snd disk].
    split; [|split].
    + apply (tracked_relocated K K_valid s k x folder info
               (with_Folder folder (with_Path (join folder k) info)) t d2 _
               Ht Hget Hx Hw2 Hno2 Hset);
        [apply Hrel | reflexivity | exact Hfolder | reflexivity].
    + exact Hset.
    + intros i e0 sg Hi He0 Hsg. injection Hi as <-. injection He0 as <-.
      rewrite Hseg in Hsg. injection Hsg as <-. cbv zeta. fold folder. rewrite Hx.
      split; [reflexivity|]. split.
      * cbn [self file_info with_file_info]. now rewrite dict_get_set_same.
      * intros t' Ht'. cbn [disk].
        now rewrite <- (file_at_inj _ _ _ _ Hfile Ht').
  - assert (Hidle : forall info0 e0 seg0 (P : Prop),
              Some info = Some info0 -> Some e = Some e0 ->
              exif_segment (exif_classify_mode (self s)) e0 = Some seg0 -> P).
    { intros i e0 sg P _ He0 Hsg. injection He0 as <-. congruence. }
    destruct (string_dec (exif_classify_mode (self s)) "") as [Hm|Hm].
    + rewrite (classify_exif_file_disabled s k info) by auto.
      split; [exact Ht|]. split; [apply settled_refl|].
      intros i e0 sg Hi He0 Hsg. eapply Hidle; eauto.
    + unfold exif_segment in Hseg.
      destruct (String.eqb (exif_classify_mode (self s)) "0") eqn:E0;
        [discriminate|].
      destruct (String.eqb (exif_classify_mode (self s)) "1") eqn:E1;
        [discriminate|].
      apply String.eqb_neq in E0, E1.
      rewrite classify_exif_file_unsupported;
        auto; [|eapply dict_get_some_in_keys; eauto].
      split; [exact Ht|]. split; [apply settled_refl|].
      intros i e0 sg Hi He0 Hsg. exact I.
Qed.

(** *** Loops on a tree *)

(** A file whose name is not that of a key stays where it is, however
    the loop ends. *)
Lemma for_in_keeps_file (body : string -> M node flow) (xs : list string)
    (p : list string) (c : string) (t : tags) :
  (forall x s, tracked K s ->
     tracked K (snd (body x s))
     /\ settled K x (disk s) (disk (snd (body x s)))) ->
  ~ In c xs ->
  forall s, tracked K s -> lookup (disk s) (p ++ [c]) = Some (File t) ->
    tracked K (snd (for_in xs body s))
    /\ lookup (disk (snd (for_in xs body s))) (p ++ [c]) = Some (File t).
Proof.
  intros Hstep Hc s Ht Hfile.
  apply (for_in_preserves
           (fun s0 => tracked K s0 /\ lookup (disk s0) (p ++ [c]) = Some (File t)));
    auto.
  intros x s0 Hx [Ht0 Hf0]. destruct (Hstep x s0 Ht0) as [Ht1 [_ [Hfiles _]]].
  split; auto. apply Hfiles; auto. intros ->. contradiction.
Qed.


End PosixSteps.

(** ** The two passes, on the disk *)

Section PosixPasses.
Import PyStr OsPath TreeFS.
Variable K : list string.
Hypothesis K_valid : forall k, In k K -> valid_name k.

Lemma classify_expand_name_state (s : state node) :
  snd (classify_expand_name (H := posix) s)
  = snd (for_in (dict_keys (file_info (self s)))
           (classify_expand_name_file (H := posix)) s).
Proof.
  rewrite classify_expand_name_unfold. now destruct (for_in _ _ s) as [[c|e] s1].
Qed.

Lemma classify_exif_state (s : state node) :
  snd (classify_exif (H := posix) s)
  = if truthy (exif_classify_mode (self s)) then
      snd (for_in (dict_keys (file_info (self s)))
             (classify_exif_file (H := posix))
             (mkState (self s) (disk s)
                (log s ++ [Printed (SelectMode (exif_classify_mode (self s)))])))
    else s.
Proof.
  destruct (truthy (exif_classify_mode (self s))) eqn:Hm.
  - rewrite classify_exif_unfold by auto. now destruct (for_in _ _ _) as [[c|e] s1].
  - rewrite classify_exif_disabled; auto.
    now destruct (exif_classify_mode (self s)).
Qed.

Lemma classify_expand_name_step (x : string) (s : state node) :
  tracked K s ->
  tracked K (snd (classify_expand_name_file (H := posix) x s))
  /\ settled K x (disk s) (disk (snd (classify_expand_name_file (H := posix) x s))).
Proof.
  intros Ht. destruct (classify_expand_name_file_posix K K_valid x s Ht) as [H1 [H2 _]].
  now split.
Qed.

Lemma classify_exif_step (x : string) (s : state node) :
  tracked K s ->
  tracked K (snd (classify_exif_file (H := posix) x s))
  /\ settled K x (disk s) (disk (snd (classify_exif_file (H := posix) x s))).
Proof.
  intros Ht. destruct (classify_exif_file_posix K K_valid x s Ht) as [H1 [H2 _]].
  now split.
Qed.

(** However the two passes end, a file whose name is not a key of the
    catalog is where it was. *)
Lemma both_passes_keep_file (s : state node) (p : list string) (c : string)
    (t : tags) :
  tracked K s -> ~ In c (dict_keys (file_info (self s))) ->
  lookup (disk s) (p ++ [c]) = Some (File t) ->
  lookup (disk (snd (both_passes (H := posix) s))) (p ++ [c]) = Some (File t).
Proof.
  intros Ht Hc Hfile.
  assert (H1 : tracked K (snd (classify_exif (H := posix) s))
               /\ lookup (disk (snd (classify_exif (H := posix) s))) (p ++ [c])
                  = Some (File t)
               /\ dict_keys (file_info (self (snd (classify_exif (H := posix) s))))
                  = dict_keys (file_info (self s))).
  { split; [|split].
    - rewrite classify_exif_state.
      destruct (truthy (exif_classify_mode (self s))); auto.
      apply (for_in_keeps_file K _ _ p c t); auto. apply classify_exif_step.
    - rewrite classify_exif_state.
      destruct (truthy (exif_classify_mode (self s))); auto.
      apply (for_in_keeps_file K _ _ p c t); auto. apply classify_exif_step.
    - apply classify_exif_same_files. }
  unfold both_passes, bind.
  destruct (classify_exif (H := posix) s) as [[[]|e] s1]; simpl in H1;
    destruct H1 as [Ht1 [Hf1 Hk1]]; simpl; auto.
  rewrite classify_expand_name_state.
  apply (for_in_keeps_file K _ _ p c t); auto.
  - apply classify_expand_name_step.
  - now rewrite Hk1.
Qed.



End PosixPasses.

(** ** Orderly trees *)

Section Checks.
Import PyStr OsPath TreeFS.

Lemma named_in_spec (K : list string) (c : string) :
  named_in K c = false <-> ~ In c K.
Proof.
  unfold named_in. split.
  - intros Hn Hin. assert (existsb (String.eqb c) K = true); [|congruence].
    apply existsb_exists. exists c. split; auto. apply String.eqb_refl.
  - intros Hn. destruct (existsb (String.eqb c) K) eqn:E; auto.
    apply existsb_exists in E. destruct E as [x [Hx Heq]].
    apply String.eqb_eq in Heq. subst x. contradiction.
Qed.

Lemma distinct_sound (l : list string) : distinct l = true -> NoDup l.
Proof.
  induction l as [|x l IH]; simpl; intros Hd; [constructor|].
  apply andb_true_iff in Hd. destruct Hd as [Hx Hl].
  constructor; auto. apply negb_true_iff in Hx. now apply named_in_spec in Hx.
Qed.

Lemma dict_get_in {V : Type} (c : string) (v : V) (es : dict V) :
  dict_get c es = Some v -> In (c, v) es.
Proof.
  induction es as [|[c' v'] es IH]; simpl; [discriminate|].
  destruct (String.eqb c c') eqn:E.
  - apply String.eqb_eq in E. subst c'. intros Hv. injection Hv as ->. now left.
  - auto.
Qed.

Lemma in_dict_get {V : Type} (c : string) (v : V) (es : dict V) :
  NoDup (dict_keys es) -> In (c, v) es -> dict_get c es = Some v.
Proof.
  unfold dict_keys. induction es as [|[c' v'] es IH]; simpl; intros Hnd Hin;
    [contradiction|].
  apply NoDup_cons_iff in Hnd. destruct Hnd as [Hc Hnd].
  destruct Hin as [Heq|Hin].
  - injection Heq as -> ->. now rewrite String.eqb_refl.
  - destruct (String.eqb c c') eqn:E; auto.
    apply String.eqb_eq in E. subst c'. exfalso. apply Hc.
    apply in_map_iff. now exists (c, v).
Qed.

Lemma well_formed_dir (es : list (string * node)) :
  well_formed (Dir es) = true ->
  (forall c, In c (dict_keys es) -> entry_name c = true)
  /\ NoDup (dict_keys es)
  /\ forall c m, In (c, m) es -> well_formed m = true.
Proof.
  simpl. intros Hw. apply andb_true_iff in Hw. destruct Hw as [Hw Hch].
  apply andb_true_iff in Hw. destruct Hw as [Hn Hd].
  rewrite forallb_forall in Hn, Hch. split; [|split].
  - exact Hn.
  - now apply distinct_sound.
  - intros c m Hin. exact (Hch (c, m) Hin).
Qed.

Lemma well_formed_lookup (p : list string) (n m : node) :
  well_formed n = true -> lookup n p = Some m -> well_formed m = true.
Proof.
  revert n. induction p as [|c p IH]; intros n Hw Hp.
  - simpl in Hp. now injection Hp as <-.
  - destruct n as [t|es]; [discriminate|].
    simpl in Hp. unfold lookup_entry in Hp.
    destruct (dict_get c es) as [m0|] eqn:Hc; [|discriminate].
    apply (IH m0); auto.
    apply well_formed_dir in Hw. destruct Hw as [_ [_ Hch]].
    apply (Hch c). now apply dict_get_in.
Qed.

(** The checks are sound for the properties they decide. *)
Lemma well_formed_distinct (d : node) : well_formed d = true -> distinct_names d.
Proof.
  intros Hw p es Hp. pose proof (well_formed_lookup p d _ Hw Hp) as Hes.
  now apply well_formed_dir in Hes.
Qed.

Lemma dirs_apart_sound (K : list string) (d : node) :
  dirs_apart K d = true -> no_dir_named K d.
Proof.
  intros Hd p. revert d Hd. induction p as [|c p IH]; intros d Hd es Hp x Hx.
  - destruct Hx.
  - destruct d as [t|es0]; [discriminate|].
    simpl in Hp. unfold lookup_entry in Hp.
    destruct (dict_get c es0) as [m|] eqn:Hc; [|discriminate].
    simpl in Hd. rewrite forallb_forall in Hd.
    pose proof (Hd (c, m) (dict_get_in _ _ _ Hc)) as Hm. simpl in Hm.
    destruct m as [t|esm].
    { destruct p; discriminate. }
    apply andb_true_iff in Hm. destruct Hm as [Hn Hm].
    destruct Hx as [<-|Hx].
    + apply negb_true_iff in Hn. now apply named_in_spec in Hn.
    + eapply IH; eauto.
Qed.

Lemma segments_apart_sound (K : list string) (mode : string)
    (known : dict FileExif) (name : string) (e : FileExif) (seg : string) :
  segments_apart K mode known = true ->
  dict_get name known = Some e -> exif_segment mode e = Some seg ->
  apart K seg.
Proof.
  intros Hs Hget Hseg c Hc. unfold segments_apart in Hs.
  rewrite forallb_forall in Hs.
  pose proof (Hs (name, e) (dict_get_in _ _ _ Hget)) as He. simpl in He.
  rewrite Hseg in He. unfold segment_apart in He. rewrite forallb_forall in He.
  pose proof (He c Hc) as H. apply andb_true_iff in H. destruct H as [H _].
  apply negb_true_iff in H. now apply named_in_spec in H.
Qed.

Lemma entry_name_valid (c : string) : entry_name c = true -> valid_name c.
Proof.
  unfold entry_name. intros H.
  repeat (apply andb_true_iff in H; destruct H as [H ?]).
  repeat match goal with
         | H : negb _ = true |- _ => apply negb_true_iff in H
         end.
  repeat split; auto; now apply String.eqb_neq.
Qed.

(** *** The walk of a well-formed tree *)

Lemma node_induction (P : node -> Prop) :
  (forall t, P (File t)) ->
  (forall es, (forall c m, In (c, m) es -> P m) -> P (Dir es)) ->
  forall n, P n.
Proof.
  intros Hf Hd. fix IH 1. intros [t|es]; [apply Hf|]. apply Hd.
  induction es as [|[c0 m0] es IHes]; intros c m Hin; [destruct Hin|].
  destruct Hin as [Heq|Hin].
  - injection Heq as <- <-. apply IH.
  - eapply IHes; eauto.
Qed.

Lemma walk_dir (top : string) (es : list (string * node)) :
  walk top (Dir es)
  = (top, names true es, names false es)
    :: flat_map (fun e => walk (join top (fst e)) (snd e)) es.
Proof.
  simpl. f_equal.
  induction es as [|[name child] es IH]; simpl; [reflexivity | now rewrite IH].
Qed.

(** Every triple of the walk of a well-formed tree is a directory of the
    tree, with the regular files it lists. *)
Lemma walk_sound (n : node) :
  well_formed n = true ->
  forall top root dirs files,
    In (root, dirs, files) (walk top n) ->
    exists p es, lookup n p = Some (Dir es)
                 /\ components root = components top ++ p
                 /\ files = names false es.
Proof.
  induction n as [t|es IH] using node_induction; intros Hw top root dirs files Hin.
  - destruct Hin.
  - rewrite walk_dir in Hin. destruct Hin as [Heq|Hin].
    + injection Heq as <- <- <-. exists [], es. rewrite app_nil_r. auto.
    + apply in_flat_map in Hin. destruct Hin as [[c m] [Hcm Hin]].
      simpl in Hin.
      destruct (well_formed_dir es Hw) as [Hnames [Hnd Hch]].
      destruct (IH c m Hcm (Hch c m Hcm) _ _ _ _ Hin) as [p [es' [Hp [Hr Hf]]]].
      exists (c :: p), es'. split; [|split]; auto.
      * simpl. unfold lookup_entry. now rewrite (in_dict_get c m es).
      * rewrite Hr, components_join_name, <- app_assoc; auto.
        apply entry_name_valid, Hnames. apply in_map_iff. now exists (c, m).
Qed.

Lemma names_files (es : list (string * node)) (k : string) :
  NoDup (dict_keys es) -> In k (names false es) ->
  exists t, dict_get k es = Some (File t).
Proof.
  intros Hnd Hin. unfold names in Hin. apply in_map_iff in Hin.
  destruct Hin as [[c m] [Hc Hin]]. simpl in Hc. subst c.
  apply filter_In in Hin. destruct Hin as [Hin Hf]. simpl in Hf.
  destruct m as [t|esm]; [|discriminate].
  exists t. now apply in_dict_get.
Qed.

(** [os.walk] on a well-formed tree lists existing folders, and in each
    the names of its regular files. *)
Lemma tree_walk_sound (d : node) (top root : string) (dirs files : list string) :
  well_formed d = true ->
  In (root, dirs, files) (tree_walk top d) ->
  dir_at d (components root)
  /\ forall k, In k files ->
       entry_name k = true
       /\ exists t, lookup d (components root ++ [k]) = Some (File t).
Proof.
  intros Hw Hin. unfold tree_walk in Hin.
  destruct (truthy top); [|destruct Hin].
  destruct (lookup d (components top)) as [n|] eqn:Htop; [|destruct Hin].
  pose proof (well_formed_lookup _ _ _ Hw Htop) as Hn.
  destruct (walk_sound n Hn _ _ _ _ Hin) as [p [es [Hp [Hr ->]]]].
  assert (Hd : lookup d (components root) = Some (Dir es)).
  { now rewrite Hr, lookup_app, Htop. }
  split; [now exists es|].
  intros k Hk.
  pose proof (well_formed_lookup _ _ _ Hw Hd) as Hes.
  destruct (well_formed_dir es Hes) as [Hnames [Hnd _]].
  destruct (names_files es k Hnd Hk) as [t Ht].
  split.
  - apply Hnames. eapply dict_get_some_in_keys; eauto.
  - exists t. rewrite lookup_app, Hd. simpl. unfold lookup_entry. now rewrite Ht.
Qed.

End Checks.

(** ** The scan of a tree *)

Section ScanGeneric.
Context {FS : Type} `{FileSystem FS}.
Import PyStr OsPath.

Lemma get_exif_metadata_file_mode (file : string) (s : state FS) :
  exif_classify_mode (self (snd (get_exif_metadata_file file s)))
  = exif_classify_mode (self s).
Proof.
  unfold get_exif_metadata_file, file_info_at, printable, set_exif_dic,
    bind, gets, raise, ret, emit, fs_read, modify. simpl.
  destruct (dict_get file (file_info (self s))) as [info|]; simpl; auto.
  destruct (dict_mem (Name info) (exif_dic (self s))); simpl; auto.
  destruct (process_file (Path info) (disk s)) as [t|e]; simpl; auto.
  repeat match goal with
         | |- context [dict_get ?k t] => destruct (dict_get k t); simpl
         end; reflexivity.
Qed.

Lemma get_exif_metadata_mode (s : state FS) :
  exif_classify_mode (self (snd (get_exif_metadata s)))
  = exif_classify_mode (self s).
Proof.
  rewrite get_exif_metadata_state.
  apply (for_in_preserves
           (fun s0 => exif_classify_mode (self s0) = exif_classify_mode (self s)));
    auto.
  intros file s0 _ H0. now rewrite get_exif_metadata_file_mode.
Qed.

Lemma scanned_catalog (config : Config) (d : FS) :
  file_info (self (scanned config d))
  = scan_catalog (os_walk (config_target_path config) d) [].
Proof.
  unfold scanned. rewrite scan_state, get_exif_metadata_catalog. reflexivity.
Qed.

Lemma scanned_disk (config : Config) (d : FS) : disk (scanned config d) = d.
Proof.
  unfold scanned. rewrite scan_state.
  now destruct (get_exif_metadata_reads_only
                  (mkState
                     (with_file_info
                        (scan_catalog (os_walk (config_target_path config) d) [])
                        {| target_path := config_target_path config;
                           exif_dic := []; file_info := [];
                           exif_classify_mode := config_exif_mode config;
                           is_ext_classify := config_classify_by_ext config |})
                     d [])) as [Hd _].
Qed.

Lemma scanned_mode (config : Config) (d : FS) :
  exif_classify_mode (self (scanned config d)) = config_exif_mode config.
Proof. unfold scanned. now rewrite scan_state, get_exif_metadata_mode. Qed.

(** A record of the catalog, after the scan, is the record of a file
    that the walk lists and that has an extension. *)
Lemma scanned_record (config : Config) (d : FS) (k : string) (info : FileInfo) :
  dict_get k (file_info (self (scanned config d))) = Some info ->
  exists root dirs files,
    In (root, dirs, files) (os_walk (config_target_path config) d)
    /\ In k files /\ truthy (snd (splitext k)) = true
    /\ info = scan_record root k.
Proof.
  rewrite scanned_catalog. intros Hget.
  apply dict_get_scan_catalog_inv in Hget.
  destruct Hget as [Hget|Hget]; [discriminate | exact Hget].
Qed.



Lemma rfind_from_lower (c : ascii) (s : string) (i : Z) :
  (0 <= i)%Z -> (-1 <= rfind_from c s i)%Z.
Proof.
  revert i. induction s as [|x s IH]; intros i Hi; simpl; [lia|].
  destruct (0 <=? rfind_from c s (i + 1))%Z eqn:E.
  - apply Z.leb_le in E. lia.
  - destruct (Ascii.eqb x c); lia.
Qed.

(** A name without a dot has no extension. *)
Lemma splitext_no_dot (k : string) :
  contains extsep k = false -> snd (splitext k) = "".
Proof.
  intros Hk. unfold splitext, rfind at 2. rewrite rfind_from_absent by auto.
  pose proof (rfind_from_lower sep k 0 ltac:(lia)) as Hl. unfold rfind.
  replace (rfind_from sep k 0 <? -1)%Z with false; auto.
  symmetry. apply Z.ltb_ge. lia.
Qed.

Lemma remove_char_absent (c : ascii) (s : string) :
  contains c (remove_char c s) = false.
Proof.
  induction s as [|x s IH]; simpl; auto.
  destruct (Ascii.eqb x c) eqn:E; simpl; auto. now rewrite E.
Qed.




End ScanGeneric.

Section ScannedTree.
Import PyStr OsPath TreeFS.

Lemma orderly_parts (config : Config) (d : node) :
  orderly config d = true ->
  well_formed d = true
  /\ no_dir_named (dict_keys (file_info (self (scanned (H := posix) config d)))) d
  /\ segments_apart (dict_keys (file_info (self (scanned (H := posix) config d))))
       (config_exif_mode config)
       (exif_dic (self (scanned (H := posix) config d))) = true.
Proof.
  unfold orderly. intros Ho.
  apply andb_true_iff in Ho. destruct Ho as [Ho Hs].
  apply andb_true_iff in Ho. destruct Ho as [Hw Hd].
  split; [exact Hw|]. split; [now apply dirs_apart_sound | exact Hs].
Qed.

(** What the scan of a well-formed tree records for a key. *)
Lemma scanned_file (config : Config) (d : node) (k : string) (info : FileInfo) :
  well_formed d = true ->
  dict_get k (file_info (self (scanned (H := posix) config d))) = Some info ->
  valid_name k
  /\ truthy (snd (splitext k)) = true
  /\ info = scan_record (Folder info) k
  /\ dir_at d (components (Folder info))
  /\ exists t, lookup d (components (Folder info) ++ [k]) = Some (File t).
Proof.
  intros Hw Hget. apply scanned_record in Hget.
  destruct Hget as [root [dirs [files [Hin [Hk [Hext ->]]]]]].
  destruct (tree_walk_sound d _ root dirs files Hw Hin) as [Hdir Hfiles].
  destruct (Hfiles k Hk) as [Hname Hfile].
  repeat split; auto; apply entry_name_valid in Hname; apply Hname.
Qed.

Lemma scanned_valid (config : Config) (d : node) (k : string) :
  well_formed d = true ->
  In k (dict_keys (file_info (self (scanned (H := posix) config d)))) ->
  valid_name k /\ truthy (snd (splitext k)) = true.
Proof.
  intros Hw Hin. apply dict_get_in_keys in Hin. destruct Hin as [info Hget].
  destruct (scanned_file config d k info Hw Hget) as [H1 [H2 _]]. now split.
Qed.

(** On an orderly tree the catalog of the scan keeps track of the files. *)
Lemma scanned_tracked (config : Config) (d : node) :
  orderly config d = true ->
  tracked (dict_keys (file_info (self (scanned (H := posix) config d))))
    (scanned (H := posix) config d).
Proof.
  intros Ho. destruct (orderly_parts config d Ho) as [Hw [Hno Hs]].
  set (s := scanned (H := posix) config d) in *.
  set (K := dict_keys (file_info (self s))) in *.
  assert (Hd : disk s = d) by apply scanned_disk.
  split; [|split; [|split]].
  - rewrite Hd. now apply well_formed_distinct.
  - now rewrite Hd.
  - intros k info Hget.
    destruct (scanned_file config d k info Hw Hget)
      as [Hk [Hext [Hinfo [Hdir [t Ht]]]]].
    split; [eapply dict_get_some_in_keys; eauto|].
    split; [exists (Folder info); now rewrite Hinfo at 1|].
    split; [|split].
    + exists t. unfold file_at. rewrite Hd. rewrite Hinfo at 1. simpl.
      now rewrite components_join_name.
    + intros c Hc. destruct Hdir as [es Hes]. eapply Hno; eauto.
    + intros c Hc Hin. rewrite Hinfo in Hc. simpl in Hc.
      assert (Hdot : contains extsep c = false).
      { eapply components_no_char; [|exact Hc]. apply remove_char_absent. }
      destruct (scanned_valid config d c Hw Hin) as [_ Hce].
      rewrite splitext_no_dot in Hce by auto. discriminate.
  - intros name e seg Hget Hseg. unfold s in Hseg. rewrite scanned_mode in Hseg.
    eapply segments_apart_sound; eauto.
Qed.

Lemma after_scan_both_passes (s : state node) :
  after_scan (H := posix) s
  = match both_passes (H := posix) s with
    | (Ok _, s') => (Ok tt, mkState (self s') (disk s') (log s' ++ [Printed Finished]))
    | (Raise e, s') => (Raise e, s')
    end.
Proof.
  unfold after_scan, both_passes, bind.
  destruct (classify_exif s) as [[[]|e] s1]; auto.
Qed.

Lemma run_scanned (config : Config) (d : node) :
  snd (run (H := posix) config d)
  = match (get_file_info (H := posix) ;; get_exif_metadata (H := posix))
            (start config d) with
    | (Ok _, _) => snd (after_scan (H := posix) (scanned (H := posix) config d))
    | (Raise _, _) => scanned (H := posix) config d
    end.
Proof.
  rewrite run_after_scan. unfold scanned, start.
  now destruct ((get_file_info;; get_exif_metadata) _) as [[[]|e] s].
Qed.


End ScannedTree.

(** ** Passes without a failed move *)

Section Quiet.
Import PyStr OsPath TreeFS.
Variable K : list string.
Hypothesis K_valid : forall k, In k K -> valid_name k.






End Quiet.

Section ScanQuiet.
Context {FS : Type} `{FileSystem FS}.


End ScanQuiet.

(** ** Where the files are when the run ends *)

Section OnDisk.
Import PyStr OsPath TreeFS.


(** C9, as amended.  A file the walk finds whose name has no extension
    ([os.path.splitext] gives it an empty second component) is not in
    the catalog at the end of the run; no move of the run has it as
    source and no move line names it; and on an orderly tree it is, when
    the run ends, however it ends, at the place where it was. *)
Theorem extensionless_file_stays (config : Config) (d : node)
    (root file : string) (dirs files : list string) :
  well_formed d = true ->
  In (root, dirs, files) (tree_walk (config_target_path config) d) ->
  In file files ->
  snd (splitext file) = "" ->
  let s := snd (run (H := posix) config d) in
  dict_get file (file_info (self s)) = None
  /\ (forall src dst, In (Move src dst) (log s) -> src <> join root file)
  /\ (forall src dst, ~ In (Printed (TryMove file src dst)) (log s))
  /\ (orderly config d = true ->
      exists t, lookup d (components (join root file)) = Some (File t)
                /\ lookup (disk s) (components (join root file)) = Some (File t)).
Proof.
  intros Hw Hroot Hfile Hext s.
  assert (Hnames : forall root dirs files file,
            In (root, dirs, files) (os_walk (FileSystem := posix)
                                      (config_target_path config) d) ->
            In file files -> contains sep file = false).
  { intros r ds fs f Hr Hf.
    destruct (tree_walk_sound d _ r ds fs Hw Hr) as [_ Hfs].
    destruct (Hfs f Hf) as [Hn _]. apply entry_name_valid in Hn. apply Hn. }
  destruct (extensionless_file_untouched (H := posix) config d root file dirs files
              Hnames Hroot Hfile Hext) as [H1 [H2 H3]].
  split; [exact H1|]. split; [exact H2|]. split; [exact H3|]. intros Ho.
  destruct (tree_walk_sound d _ root dirs files Hw Hroot) as [_ Hfs].
  destruct (Hfs file Hfile) as [Hn [t Ht]]. apply entry_name_valid in Hn.
  exists t. rewrite components_join_name by auto. split; [exact Ht|].
  unfold s. rewrite run_scanned.
  destruct ((get_file_info (H := posix);; get_exif_metadata (H := posix))
              (start config d)) as [[[]|e] s0].
  2: { now rewrite scanned_disk. }
  set (K := dict_keys (file_info (self (scanned (H := posix) config d)))).
  assert (Hkeep : lookup (disk (snd (both_passes (H := posix)
                                       (scanned (H := posix) config d))))
                    (components root ++ [file]) = Some (File t)).
  { apply (both_passes_keep_file K).
    - intros k Hk. now apply (scanned_valid config d k Hw).
    - now apply scanned_tracked.
    - intros Hin. destruct (scanned_valid config d file Hw Hin) as [_ He].
      rewrite Hext in He. discriminate.
    - now rewrite scanned_disk. }
  rewrite after_scan_both_passes.
  now destruct (both_passes (H := posix) (scanned (H := posix) config d))
    as [[[]|e] s1].
Qed.



End OnDisk.

(** ** Unsupported modes, for the whole run *)

Section UnsupportedRun.
Context {FS : Type} `{FileSystem FS}.
Import PyStr OsPath.




End UnsupportedRun.

(** ** The theorems on concrete trees *)

Section OnTrees.
Import PyStr OsPath TreeFS.


(** The theorem on files without extension applies: the [README] of
    [Scenario.photos] is where it was. *)
Lemma extensionless_file_stays_witness :
  lookup (disk (snd (run (H := posix) (mkConfig "r" true "1") Scenario.photos)))
    (components "r/README") = Some (File []).
Proof.
  destruct (extensionless_file_stays (mkConfig "r" true "1")
              Scenario.photos "r" "README" [] ["a.jpg"; "README"])
    as [_ [_ [_ Hdisk]]].
  - vm_compute. reflexivity.
  - vm_compute. now left.
  - simpl. auto.
  - reflexivity.
  - destruct Hdisk as [t [H1 H2]]; [vm_compute; reflexivity|].
    vm_compute in H1. injection H1 as <-. exact H2.
Defined.




(** C9, as stated, fails.  The walk finds [README], which has no
    extension, in the directory [r/CameraX/a.jpg]; the run moves that
    directory, and [README] with it.  And a name that ends with a dot
    has the extension ["."]: it is cataloged, with an empty [ext], and a
    move is asked for it. *)
Lemma extensionless_file_moved_with_directory :
  In ("r/CameraX/a.jpg", [], ["README"])
     (os_walk (FileSystem := posix) "r" Scenario.shadowed)
  /\ snd (splitext "README") = ""
  /\ (let '(r, s) := run (H := posix) (mkConfig "r" true "0") Scenario.shadowed in
      r = Ok tt
      /\ quiet (log s)
      /\ dict_get "README" (file_info (self s)) = None
      /\ lookup Scenario.shadowed (components "r/CameraX/a.jpg/README")
         = Some (File [])
      /\ lookup (disk s) (components "r/CameraX/a.jpg/README") = None
      /\ lookup (disk s) (components "r/CameraX/jpg/a.jpg/README")
         = Some (File []))
  /\ (let '(r, s) := run (H := posix) (mkConfig "r" true "") Scenario.dotted in
      r = Ok tt
      /\ remove_char "."%char (snd (splitext "b.")) = ""
      /\ dict_get "b." (file_info (self s))
         = Some {| Name := "b"; ext := ""; Path := "r/b."; Folder := "r" |}
      /\ moves_of (log s) = [("r/b.", "r/b.")]).
Proof.
  vm_compute. repeat split;
    try (intros ev Hin;
         repeat (destruct Hin as [<-|Hin]; [reflexivity|]); now destruct Hin);
    auto 12.
Qed.

End OnTrees.
